(** * Feedstock tools: a shallow embedding of [create_feedstock.py] and
      [make_package_db.py], and the properties of the resolver, the database
      build, the unpacker, the source URL rewriter and the requirements
      extractor.

    Conventions of the embedding.
    - A Python [str] is a Rocq [string]; one [ascii] stands for one code
      point in the range 0..255.  Comparison of strings is lexicographic on
      code points, as Python's.
    - A Python [dict] is an association list kept in insertion order with
      unique keys ([dict_get], [dict_set]).
    - Code that prints, downloads or touches the file system runs in the
      monad [M]: an event log together with either an error (a raised
      exception) or a value.  Progress messages are left out of the log; the
      two diagnostics that matter are events of their own.
    - Functions of libraries outside the repository ([packaging.version],
      [urllib.parse.urlparse], [os.path.abspath], [os.path.relpath]) are
      Section variables. *)

From Stdlib Require Import List Bool Arith Lia ZArith String Ascii.
From Stdlib Require Import Sorting.Sorted Sorting.Permutation.
Import ListNotations.

Local Open Scope list_scope.
Local Open Scope string_scope.

Set Implicit Arguments.

(** ** Python strings *)

Module Str.

Definition nl : ascii := "010"%char.

Definition ascii_in (c : ascii) (l : list nat) : bool :=
  existsb (Nat.eqb (nat_of_ascii c)) l.

(** [str.isspace] on one code point below 256; also the class [\s] of [re]
    for [str] patterns. *)
Definition is_space (c : ascii) : bool :=
  ascii_in c [9; 10; 11; 12; 13; 28; 29; 30; 31; 32; 133; 160].

(** [\d] of [re]: the decimal digits; below 256 these are 0..9. *)
Definition is_digit (c : ascii) : bool :=
  let n := nat_of_ascii c in ((48 <=? n) && (n <=? 57))%nat.

(** [\w] of [re]: alphanumeric code points and the underscore. *)
Definition is_word (c : ascii) : bool :=
  let n := nat_of_ascii c in
  (is_digit c
   || ((65 <=? n) && (n <=? 90))
   || ((97 <=? n) && (n <=? 122))
   || (n =? 95)
   || ascii_in c [170; 178; 179; 181; 185; 186; 188; 189; 190]
   || ((192 <=? n) && (n <=? 214))
   || ((216 <=? n) && (n <=? 246))
   || ((248 <=? n) && (n <=? 255)))%nat.

(** [s.startswith(p)] *)
Definition startswith (s p : string) : bool := String.prefix p s.

(** [sub in s] *)
Fixpoint contains (sub s : string) : bool :=
  String.prefix sub s ||
  match s with
  | EmptyString => false
  | String _ r => contains sub r
  end.

Fixpoint rev_acc (s acc : string) : string :=
  match s with
  | EmptyString => acc
  | String c r => rev_acc r (String c acc)
  end.

Definition rev (s : string) : string := rev_acc s EmptyString.

(** [s.endswith(p)]: some suffix of [s] is [p]. *)
Fixpoint endswith (s p : string) : bool :=
  String.eqb s p ||
  match s with
  | EmptyString => false
  | String _ r => endswith r p
  end.

(** [s.lstrip()], [s.rstrip()], [s.strip()] *)
Fixpoint lstrip (s : string) : string :=
  match s with
  | EmptyString => EmptyString
  | String c r => if is_space c then lstrip r else s
  end.

Definition rstrip (s : string) : string := rev (lstrip (rev s)).

Definition strip (s : string) : string := rstrip (lstrip s).

(** [s.split(c)] for a separator of one character *)
Fixpoint split (sep : ascii) (s : string) : list string :=
  match s with
  | EmptyString => [EmptyString]
  | String c r =>
      if Ascii.eqb c sep then EmptyString :: split sep r
      else match split sep r with
           | h :: t => String c h :: t
           | [] => [String c EmptyString]
           end
  end.

(** [sep.join(l)] *)
Definition join (sep : string) (l : list string) : string := String.concat sep l.

Fixpoint drop (n : nat) (s : string) : string :=
  match n, s with
  | S n', String _ r => drop n' r
  | _, _ => s
  end.

Fixpoint take (n : nat) (s : string) : string :=
  match n, s with
  | S n', String c r => String c (take n' r)
  | _, _ => EmptyString
  end.

(** [c in s] for one character *)
Fixpoint has_char (c : ascii) (s : string) : bool :=
  match s with
  | EmptyString => false
  | String c' r => Ascii.eqb c' c || has_char c r
  end.

(** [s.replace(old, new)]: every occurrence of [old], left to right, without
    overlap.  The fuel is the length of what remains to be read. *)
Fixpoint replace_fuel (fuel : nat) (old new s : string) : string :=
  match fuel with
  | O => s
  | S fuel' =>
      if String.prefix old s
      then new ++ replace_fuel fuel' old new (drop (String.length old) s)
      else match s with
           | EmptyString => EmptyString
           | String c r => String c (replace_fuel fuel' old new r)
           end
  end.

Definition replace (s old new : string) : string :=
  match old with
  | EmptyString => s (* not used by the program with an empty pattern *)
  | _ => replace_fuel (S (String.length s)) old new s
  end.

End Str.

(** ** Python dictionaries, in insertion order *)

Section Dict.
Variable V : Type.

Definition dict := list (string * V).

Fixpoint dict_get (k : string) (d : dict) : option V :=
  match d with
  | [] => None
  | (k', v) :: d' => if String.eqb k k' then Some v else dict_get k d'
  end.

(** [d[k] = v]: an existing key keeps its place, a new key goes last. *)
Fixpoint dict_set (k : string) (v : V) (d : dict) : dict :=
  match d with
  | [] => [(k, v)]
  | (k', v') :: d' =>
      if String.eqb k k' then (k', v) :: d' else (k', v') :: dict_set k v d'
  end.

Definition dict_keys (d : dict) : list string := map fst d.
End Dict.

(** ** Exceptions, events and the monad of the scripts *)

Inductive error : Type :=
| NotFoundError (pkg : string)
    (* ValueError("Requested package {pkg} is not in database") *)
| VersionNotFoundError (ver pkg : string)
    (* ValueError("version {ver} of {pkg} is not found in the db") *)
| InvalidVersion (ver : string)
    (* raised by packaging.version.parse *)
| IndexError
    (* list index out of range *)
| MissingHashError (url : string)
    (* ValueError("Unknown hash type in {item}") *)
| UnsupportedFormatError (format : string).
    (* ValueError("Unknown format {format} to extract.") *)

(** An event is a call that a script makes to the network, the disk or the
    terminal.  The log of a run holds these calls in program order, each one
    being reached when the calls before it have returned.  The errors are
    those that the scripts raise themselves and the one of the version
    parser.  A call that fails is outside the model: an outcome [inr] says
    that the script has raised nothing of its own, not that its calls have
    succeeded. *)
Inductive event : Type :=
| WarnNoBuild (py : string)          (* ">> No packages with {py} build string" *)
| DiagUrlNotFound (line : string)    (* "!! URL at {line.strip()!r} not found" *)
| DownloadFile (url fn : string)     (* download_file(url, fn) *)
| Rmtree (path : string)             (* shutil.rmtree *)
| Makedirs (path : string)           (* os.makedirs(path, exist_ok=True) *)
| UnpackArchive (archive out_path : string) (format : option string)
                                     (* shutil.unpack_archive *)
| ZstExtractAll (archive out_path : string)
                                     (* decompress archive, tar.extractall(out_path) *)
| Copytree (src dst : string)        (* shutil.copytree *)
| Remove (path : string)             (* os.remove *)
| WriteFile (path content : string)  (* open(path, "w").write(content) *)
| Move (src dst : string)            (* shutil.move *)
| AppendFile (path content : string). (* open(path, "a").write(content) *)

Definition M (A : Type) : Type := (list event * (error + A))%type.

Definition ret {A} (a : A) : M A := ([], inr a).
Definition raise {A} (e : error) : M A := ([], inl e).
Definition emit (ev : event) : M unit := ([ev], inr tt).

Definition bind {A B} (m : M A) (k : A -> M B) : M B :=
  match m with
  | (evs, inl e) => (evs, inl e)
  | (evs, inr a) => let '(evs', r) := k a in ((evs ++ evs')%list, r)
  end.

Notation "x <- m ;; k" := (bind m (fun x => k))
  (at level 61, m at next level, right associativity).
Notation "m ;;; k" := (bind m (fun _ => k))
  (at level 61, right associativity).

Definition events {A} (m : M A) : list event := fst m.
Definition outcome {A} (m : M A) : error + A := snd m.

(** ** Data model *)

Record PackageRecord : Type := mkRecord {
  name : string;
  version : string;
  url : string;
  depends : list string;
  nv : string;
  timestamp : Z;
  build : string
}.

(** ** The version resolver: [get_pkg_spec] of create_feedstock.py *)

Section Resolver.
(** [packaging.version.parse] and the order of the versions it returns;
    [None] stands for the exception [InvalidVersion]. *)
Variable Ver : Type.
Variable PV : string -> option Ver.
Variable Ver_le : Ver -> Ver -> bool.

(** Truth value of the [py] argument: [None] and the empty string are
    false. *)
Definition truthy (py : option string) : option string :=
  match py with
  | Some EmptyString => None
  | other => other
  end.

(** Lines 194-201: the build filter. *)
Definition filter_build (py : option string) (pkg_specs : list PackageRecord)
  : M (list PackageRecord) :=
  match truthy py with
  | Some py =>
      let filter_pkg_specs :=
        filter (fun x => Str.contains py (build x)) pkg_specs in
      if (0 <? List.length filter_pkg_specs)%nat then ret filter_pkg_specs
      else emit (WarnNoBuild py) ;;; ret pkg_specs
  | None => ret pkg_specs
  end.

(** [PV(p["version"]) <= PV(ver)]: the left operand is parsed first. *)
Definition version_le_bound (p : PackageRecord) (ver : string)
  : error + bool :=
  match PV (version p) with
  | None => inl (InvalidVersion (version p))
  | Some a =>
      match PV ver with
      | None => inl (InvalidVersion ver)
      | Some b => inr (Ver_le a b)
      end
  end.

(** Lines 205-209: the loop over [reversed(pkg_specs)]. *)
Fixpoint scan_bound (ver : string) (l : list PackageRecord)
  : error + option PackageRecord :=
  match l with
  | [] => inr None
  | p :: l' =>
      match version_le_bound p ver with
      | inl e => inl e
      | inr true => inr (Some p)
      | inr false => scan_bound ver l'
      end
  end.

Definition get_pkg_spec (pkg : string) (ver py : option string)
           (pkg_db : dict (list PackageRecord)) : M PackageRecord :=
  match dict_get pkg pkg_db with
  | None => raise (NotFoundError pkg)
  | Some pkg_specs =>
      pkg_specs <- filter_build py pkg_specs ;;
      match ver with
      | None =>
          match List.rev pkg_specs with
          | p :: _ => ret p              (* pkg_specs[-1] *)
          | [] => raise IndexError
          end
      | Some ver =>
          match scan_bound ver (List.rev pkg_specs) with
          | inl e => raise e
          | inr (Some p) => ret p
          | inr None => raise (VersionNotFoundError ver pkg)
          end
      end
  end.

End Resolver.

(** ** The database build: [parse_repodata] of make_package_db.py *)

(** [sorted(l, key=...)]: the keys are computed first, one per element, and
    an exception raised by a key aborts the call; the elements are then put
    in order with the [<] of their keys, equal keys keeping their original
    order.  The result of a stable sort does not depend on the algorithm;
    insertion is the simplest one. *)
Section PySorted.
Variables (A K : Type).
Variable lt : K -> K -> bool.

Fixpoint insert (x : K * A) (l : list (K * A)) : list (K * A) :=
  match l with
  | [] => [x]
  | y :: l' => if lt (fst y) (fst x) then y :: insert x l' else x :: l
  end.

Fixpoint isort (l : list (K * A)) : list (K * A) :=
  match l with
  | [] => []
  | x :: l' => insert x (isort l')
  end.

Fixpoint decorate (key : A -> option K) (l : list A) : option (list (K * A)) :=
  match l with
  | [] => Some []
  | x :: l' =>
      match key x with
      | None => None
      | Some k =>
          match decorate key l' with
          | None => None
          | Some d => Some ((k, x) :: d)
          end
      end
  end.

(** [None] when a key raises. *)
Definition sorted (key : A -> option K) (l : list A) : option (list A) :=
  match decorate key l with
  | None => None
  | Some d => Some (map snd (isort d))
  end.
End PySorted.

(** One entry of the channel listing ([repodata.json]). *)
Record RepoEntry : Type := mkEntry {
  e_name : string;
  e_version : string;
  e_subdir : string;
  e_build : string;
  e_depends : list string;
  e_timestamp : option Z          (* p.get("timestamp", 0) *)
}.

(** The key of the fallback order, and the [<] of Python tuples on it: the
    first component that differs decides. *)
Definition tuple_key (x : PackageRecord) : string * Z * string :=
  (version x, timestamp x, build x).

Definition tuple_lt (a b : string * Z * string) : bool :=
  let '(v1, t1, b1) := a in
  let '(v2, t2, b2) := b in
  if negb (String.eqb v1 v2) then String.ltb v1 v2
  else if negb (Z.eqb t1 t2) then Z.ltb t1 t2
  else String.ltb b1 b2.

Definition tuple_le (a b : string * Z * string) : bool := negb (tuple_lt b a).

Section Database.
Variable Ver : Type.
Variable PV : string -> option Ver.
Variable Ver_lt : Ver -> Ver -> bool.

(** Lines 41-56: the record built for the entry [p] of file name [pn]. *)
Definition make_record (forge_url pn : string) (p : RepoEntry) : PackageRecord :=
  let n := e_name p in
  let v := e_version p in
  let d := e_subdir p in
  let b := e_build p in
  let tt := match e_timestamp p with Some t => t | None => 0%Z end in
  {| name := n;
     version := v;
     url := forge_url ++ "/" ++ d ++ "/" ++ pn;
     depends := e_depends p;
     nv := n ++ "-" ++ v;
     timestamp := tt;
     build := b |}.

(** [pkg_db[n].append(r)] on a [defaultdict(list)]. *)
Definition db_append (pkg_db : dict (list PackageRecord)) (n : string)
           (r : PackageRecord) : dict (list PackageRecord) :=
  match dict_get n pkg_db with
  | Some l => dict_set n (l ++ [r])%list pkg_db
  | None => dict_set n [r] pkg_db
  end.

Definition group_records (forge_url : string) (data : list (string * RepoEntry))
  : dict (list PackageRecord) :=
  fold_left (fun db e => db_append db (e_name (snd e))
                                   (make_record forge_url (fst e) (snd e)))
            data [].

(** Lines 58-63: [try: sorted(v, key=PV(version)) except Exception:
    sorted(v, key=(version, timestamp, build))]. *)
Definition sort_group (v : list PackageRecord) : list PackageRecord :=
  match sorted Ver_lt (fun x => PV (version x)) v with
  | Some l => l
  | None =>
      match sorted tuple_lt (fun x => Some (tuple_key x)) v with
      | Some l => l
      | None => v   (* the keys of the fallback order never raise *)
      end
  end.

(** The database that [parse_repodata] dumps to [out]. *)
Definition parse_repodata (data : list (string * RepoEntry)) (forge_url : string)
  : dict (list PackageRecord) :=
  map (fun kv => (fst kv, sort_group (snd kv))) (group_records forge_url data).

End Database.

(** ** Paths: [posixpath] *)

Module Path.

Definition slash : ascii := "/"%char.

(** [os.path.join(a, b)]; [join(a, b, c)] is [join (join a b) c]. *)
Definition join (a b : string) : string :=
  if Str.startswith b "/" then b
  else if (String.eqb a "" || Str.endswith a "/")%bool then a ++ b
  else a ++ "/" ++ b.

(** [os.path.basename(p)]: what follows the last slash. *)
Definition basename (p : string) : string :=
  List.last (Str.split slash p) "".

Fixpoint rstrip_slash_rev (r : string) : string :=
  match r with
  | String c r' => if Ascii.eqb c slash then rstrip_slash_rev r' else r
  | EmptyString => EmptyString
  end.

(** [os.path.dirname(p)]: up to the last slash, trailing slashes removed
    unless nothing else is left. *)
Definition dirname (p : string) : string :=
  let head := Str.take (String.length p - String.length (basename p)) p in
  match rstrip_slash_rev (Str.rev head) with
  | EmptyString => head
  | r => Str.rev r
  end.

End Path.

(** ** Regular expressions: the fragment of [re] the program uses

    A pattern is matched the way a backtracking matcher does it: every way
    of matching a pattern at a position is listed in the order in which
    backtracking tries them (greedy operators take the longest first), and
    [re.match] returns the first one. *)

Module Re.

Inductive regex : Type :=
| Eps                              (* the empty pattern *)
| Bol                              (* ^ *)
| Eol                              (* $ *)
| Class (p : ascii -> bool)        (* one character of a class *)
| Seq (a b : regex)
| Opt (a : regex)                  (* a? *)
| Star (a : regex)                 (* a* *)
| Group (n : nat) (a : regex).     (* the n-th pair of parentheses *)

Definition Chr (c : ascii) : regex := Class (Ascii.eqb c).
Definition NotChr (c : ascii) : regex := Class (fun x => negb (Ascii.eqb x c)).
(** [.] matches everything but a newline. *)
Definition Dot : regex := Class (fun x => negb (Ascii.eqb x Str.nl)).
Definition Plus (a : regex) : regex := Seq a (Star a).

(** A literal text; also the pattern [re.escape(s)]. *)
Fixpoint Lit (s : string) : regex :=
  match s with
  | EmptyString => Eps
  | String c r => Seq (Chr c) (Lit r)
  end.

Record mstate : Type := mkState {
  pos : nat;                       (* characters consumed so far *)
  rest : string;                   (* what is still to be read *)
  caps : list (nat * string)       (* the groups closed so far, last first *)
}.

(** The iterations of a starred pattern, the longest first; an iteration
    that reads nothing is not repeated. *)
Fixpoint star_iter (step : mstate -> list mstate) (n : nat) (st : mstate)
  : list mstate :=
  match n with
  | O => [st]
  | S n' =>
      (flat_map (fun st' => if (pos st <? pos st')%nat
                            then star_iter step n' st' else [])
                (step st)
       ++ [st])%list
  end.

(** [fuel] bounds the number of iterations of a star; the length of the
    text is enough, each iteration reading at least one character. *)
Fixpoint matches (r : regex) (fuel : nat) (st : mstate) : list mstate :=
  match r with
  | Eps => [st]
  | Bol => if (pos st =? 0)%nat then [st] else []
  | Eol =>
      match rest st with
      | EmptyString => [st]
      | String c EmptyString => if Ascii.eqb c Str.nl then [st] else []
      | _ => []
      end
  | Class p =>
      match rest st with
      | String c r' =>
          if p c then [mkState (S (pos st)) r' (caps st)] else []
      | EmptyString => []
      end
  | Seq a b => flat_map (matches b fuel) (matches a fuel st)
  | Opt a => (matches a fuel st ++ [st])%list
  | Star a => star_iter (matches a fuel) fuel st
  | Group n a =>
      map (fun st' => mkState (pos st') (rest st')
                              ((n, Str.take (pos st' - pos st) (rest st))
                                 :: caps st'))
          (matches a fuel st)
  end.

(** The match object: [m.group()] and the numbered groups. *)
Record match_obj : Type := mkMatch {
  whole : string;
  groups : list (nat * string)
}.

Fixpoint lookup (n : nat) (l : list (nat * string)) : option string :=
  match l with
  | [] => None
  | (k, s) :: l' => if (k =? n)%nat then Some s else lookup n l'
  end.

(** [m.group(n)] for a group that took part in the match. *)
Definition group (n : nat) (m : match_obj) : string :=
  match lookup n (groups m) with
  | Some s => s
  | None => EmptyString
  end.

(** [re.compile(r).match(s)] and [re.match(r, s)]. *)
Definition re_match (r : regex) (s : string) : option match_obj :=
  match matches r (String.length s) (mkState 0 s []) with
  | st :: _ => Some (mkMatch (Str.take (pos st) s) (caps st))
  | [] => None
  end.

End Re.

(** ** create_feedstock.py *)

Import Re.

(** Line 21, the version-only shape: ^ v? \d+ ([\-.]\d+)+ (\.\w+)+ $ . *)
Definition fn_is_simple_regex : regex :=
  Seq Bol
 (Seq (Opt (Chr "v"))
 (Seq (Plus (Class Str.is_digit))
 (Seq (Plus (Group 1 (Seq (Class (fun c => Ascii.eqb c "-" || Ascii.eqb c "."))
                          (Plus (Class Str.is_digit)))))
 (Seq (Plus (Group 2 (Seq (Chr ".") (Plus (Class Str.is_word)))))
      Eol)))).

Definition fn_is_simple (fn : string) : bool :=
  match re_match fn_is_simple_regex fn with
  | Some _ => true
  | None => false
  end.

(** Line 53, the pattern of a candidate line; its parts, one per line of
    the definition:
    group 1 is ^ \s* -? \s* url: \s* ; group 2 is [^{]+ ; then \{\{ ; then
    .* ; then \}\} ; group 3 is [^}]+ ; then $ . *)
Definition url_regex : regex :=
  Seq (Group 1 (Seq Bol
               (Seq (Star (Class Str.is_space))
               (Seq (Opt (Chr "-"))
               (Seq (Star (Class Str.is_space))
               (Seq (Lit "url:")
                    (Star (Class Str.is_space))))))))
 (Seq (Group 2 (Plus (NotChr "{")))
 (Seq (Lit "{{")
 (Seq (Star Dot)
 (Seq (Lit "}}")
 (Seq (Group 3 (Plus (NotChr "}")))
      Eol))))).

(** Line 64: [re.escape(head)], then any text within a line, then
    [re.escape(tail)]. *)
Definition url_pattern (head tail : string) : regex :=
  Seq (Lit head) (Seq (Star Dot) (Lit tail)).

(** *** Source entries: [load_urls] *)

(** One mapping of the [source] field, with the keys the program reads. *)
Record SourceItem : Type := mkItem {
  i_url : option string;
  i_md5 : option string;
  i_sha256 : option string;
  i_sha1 : option string;
  i_fn : option string
}.

(** The [source] field: one mapping or a list of mappings. *)
Inductive source_field : Type :=
| OneSource (item : SourceItem)
| ManySources (items : list SourceItem).

(** The parsed metadata document, as far as [load_urls] reads it. *)
Record Meta : Type := mkMeta { source : option source_field }.

(** The value [[hash_type, hash, fn]] kept for a URL. *)
Record SourceEntry : Type := mkSource {
  hash_type : string;
  hash : string;
  fn : option string
}.

Definition item_hash (url : string) (item : SourceItem) : M (string * string) :=
  match i_md5 item with
  | Some h => ret ("md5", h)
  | None =>
      match i_sha256 item with
      | Some h => ret ("sha256", h)
      | None =>
          match i_sha1 item with
          | Some h => ret ("sha1", h)
          | None => raise (MissingHashError url)
          end
      end
  end.

(** Lines 34-48: the loop over the sources. *)
Fixpoint load_urls_loop (sources : list SourceItem) (result : dict SourceEntry)
  : M (dict SourceEntry) :=
  match sources with
  | [] => ret result
  | item :: sources' =>
      match i_url item with
      | None => load_urls_loop sources' result
      | Some url =>
          th <- item_hash url item ;;
          load_urls_loop sources'
            (dict_set url (mkSource (fst th) (snd th) (i_fn item)) result)
      end
  end.

Definition load_urls (meta : Meta) : M (dict SourceEntry) :=
  match source meta with
  | None => ret []
  | Some (OneSource item) => load_urls_loop [item] []
  | Some (ManySources items) => load_urls_loop items []
  end.

(** *** [extract_reqs] *)

Definition keys : list string := ["host:"; "run:"; "build:"; "run_constrained:"].

Definition in_keys (line : string) : bool := existsb (String.eqb line) keys.

(** Lines 91-112: the loop; [in_req] and [result] are its state. *)
Fixpoint extract_reqs_loop (content : list string) (in_req : bool)
         (result : list string) : list string :=
  match content with
  | [] => result
  | line :: content' =>
      let line := Str.strip line in
      if String.eqb line "" then extract_reqs_loop content' in_req result
      else if negb in_req then
        if negb (Str.startswith line "requirements:")
        then extract_reqs_loop content' in_req result
        else extract_reqs_loop content' true (result ++ [line])%list
      else
        if Str.startswith line "#" then extract_reqs_loop content' in_req result
        else if Str.startswith line "{"
        then extract_reqs_loop content' in_req (result ++ [line])%list
        else if Str.startswith line "-"
        then extract_reqs_loop content' in_req (result ++ [line])%list
        else if Str.endswith line ":" && negb (in_keys line)
        then extract_reqs_loop content' false result
        else extract_reqs_loop content' in_req (result ++ [line])%list
  end.

(** [text] is what the file [meta_yaml] holds. *)
Definition extract_reqs (text : string) : string :=
  Str.join (String Str.nl "") (extract_reqs_loop (Str.split Str.nl text) false []).

(** *** Unpacking, rewriting and the pipeline *)

Section Feedstock.
(** [urllib.parse.urlparse(url).path], [os.path.abspath] and
    [os.path.relpath]. *)
Variable urlparse_path : string -> string.
Variable abspath : string -> string.
Variable relpath : string -> string -> string.

Definition url_basename (url : string) : string :=
  Path.basename (urlparse_path url).

(** Lines 149-164. *)
Definition extract_zst (archive out_path : string) : M unit :=
  let archive := abspath archive in
  let out_path := abspath out_path in
  emit (ZstExtractAll archive out_path).

Definition plain_formats : list string :=
  ["zip"; "tar"; "tar.gz"; "tgz"; "gztar"; "bztar"; "tar.bz2"; "xztar"; "tar.zx"].

(** Lines 167-185. *)
Definition extract_archive (archive out_path format : string) : M unit :=
  if String.eqb format "zst" then extract_zst archive out_path
  else if String.eqb format "conda"
  then emit (UnpackArchive archive out_path (Some "zip"))
  else if existsb (String.eqb format) plain_formats
  then emit (UnpackArchive archive out_path None)
  else raise (UnsupportedFormatError format).

(** Lines 66-69: the first known URL that the pattern matches. *)
Definition find_url (head tail : string) (urls : dict SourceEntry)
  : option string :=
  find (fun u => match re_match (url_pattern head tail) u with
                 | Some _ => true
                 | None => false
                 end)
       (dict_keys urls).

(** Lines 74-78: the path written for the URL [new_url]. *)
Definition local_path (meta_yaml_tpl pkgs_dir new_url : string)
           (urls : dict SourceEntry) : string :=
  let fn := Path.basename (urlparse_path new_url) in
  let fn := match dict_get new_url urls with
            | Some (mkSource _ _ (Some fn')) => fn'
            | _ => fn
            end in
  let pkg_path := Path.join pkgs_dir fn in
  relpath pkg_path (Path.dirname meta_yaml_tpl).

(** Lines 57-80: the loop over the lines; [result] is its state. *)
Fixpoint replace_urls_loop (meta_yaml_tpl pkgs_dir : string)
         (urls : dict SourceEntry) (content result : list string)
  : M (list string) :=
  match content with
  | [] => ret result
  | line :: content' =>
      match re_match url_regex line with
      | None =>
          replace_urls_loop meta_yaml_tpl pkgs_dir urls content'
                            (result ++ [line])%list
      | Some m =>
          let head := group 2 m in
          let tail := group 3 m in
          match find_url head tail urls with
          | None =>
              emit (DiagUrlNotFound line) ;;;
              replace_urls_loop meta_yaml_tpl pkgs_dir urls content'
                                (result ++ [line])%list
          | Some new_url =>
              let pkg_path := local_path meta_yaml_tpl pkgs_dir new_url urls in
              replace_urls_loop meta_yaml_tpl pkgs_dir urls content'
                ((result ++ [("#" ++ whole m)%string]) ++ [(group 1 m ++ pkg_path)%string])%list
          end
      end
  end.

(** Lines 52-82; [text] is what the file [meta_yaml_tpl] holds. *)
Definition replace_urls (meta_yaml_tpl text : string) (urls : dict SourceEntry)
           (pkgs_dir : string) : M unit :=
  let content := Str.split Str.nl text in
  result <- replace_urls_loop meta_yaml_tpl pkgs_dir urls content [] ;;
  emit (WriteFile meta_yaml_tpl (Str.join (String Str.nl "") result)).

(** Lines 272-273: the destination file name of a source. *)
Definition dest_fn (pkg url : string) (v : SourceEntry) : string :=
  let fn := match fn v with
            | Some f => f
            | None => url_basename url
            end in
  if fn_is_simple fn then pkg ++ "-" ++ fn else fn.

(** Lines 271-277: the loop over [urls.items()]; [v[2] = fn] updates the
    entry that the dictionary holds, so the dictionary handed on to
    [replace_urls] has the fixed names. *)
Fixpoint download_sources (pkg pkgs_dir : string) (urls : dict SourceEntry)
  : M (dict SourceEntry) :=
  match urls with
  | [] => ret []
  | (url, v) :: urls' =>
      let fn := dest_fn pkg url v in
      let v' := mkSource (hash_type v) (hash v) (Some fn) in
      let full_fn := Path.join pkgs_dir fn in
      emit (DownloadFile url full_fn) ;;;
      rest <- download_sources pkg pkgs_dir urls' ;;
      ret ((url, v') :: rest)
  end.

(** Lines 269-279: sources are read, fetched, and the template rewritten. *)
Definition rewrite_sources (pkg pkgs_dir meta_yaml_tpl : string) (meta : Meta)
           (tpl_text : string) : M unit :=
  urls <- load_urls meta ;;
  urls <- download_sources pkg pkgs_dir urls ;;
  replace_urls meta_yaml_tpl tpl_text urls pkgs_dir.

(** Lines 228-244: download of the artifact and unpacking. *)
Definition unpack_artifact (pkg_spec : PackageRecord) (workdir : string)
  : M string :=
  let out_fn := Path.join workdir (url_basename (url pkg_spec)) in
  emit (DownloadFile (url pkg_spec) out_fn) ;;;
  let extract_dir :=
    Str.replace (Str.replace (Path.basename out_fn) ".tar.bz2" "") ".conda" "" in
  let extract_dir := Path.join workdir extract_dir in
  emit (Rmtree extract_dir) ;;;
  emit (Makedirs extract_dir) ;;;
  (if Str.contains ".conda" out_fn then
     extract_archive out_fn extract_dir "conda" ;;;
     let info_out_fn :=
       "info-" ++ Str.replace (url_basename (url pkg_spec)) ".conda" ".tar.zst" in
     let info_out_path := Path.join extract_dir info_out_fn in
     extract_archive info_out_path extract_dir "zst"
   else
     extract_archive out_fn extract_dir "zip") ;;;
  ret extract_dir.

(** What [create_feedstock] finds on disk after unpacking: which paths
    exist, the parsed [meta_yaml] and the text of [meta_yaml_tpl]. *)
Record Unpacked : Type := mkUnpacked {
  exists_new_recipe : bool;
  exists_parent : bool;
  exists_conda_build_cfg : bool;
  meta_doc : Meta;
  tpl_text : string
}.

(** The text that the rewritten template holds: the last [WriteFile]. *)
Fixpoint last_written (evs : list event) (default : string) : string :=
  match evs with
  | [] => default
  | WriteFile _ t :: evs' => last_written evs' t
  | _ :: evs' => last_written evs' default
  end.

(** Lines 215-298. *)
Definition create_feedstock (pkg_spec : PackageRecord) (fs : Unpacked)
           (workdir recipes_dir pkgs_dir : string) : M unit :=
  let pkg := name pkg_spec in
  let nv := nv pkg_spec in
  extract_dir <- unpack_artifact pkg_spec workdir ;;
  let old_recipe := Path.join (Path.join extract_dir "info") "recipe" in
  let new_recipe := Path.join recipes_dir nv in
  emit (Makedirs recipes_dir) ;;;
  (if exists_new_recipe fs then emit (Rmtree new_recipe) else ret tt) ;;;
  files <-
    (if exists_parent fs then
       let real_recipe := Path.join old_recipe "parent" in
       emit (Copytree real_recipe new_recipe) ;;;
       ret (Path.join old_recipe "meta.yaml", Path.join new_recipe "meta.yaml")
     else
       emit (Copytree old_recipe new_recipe) ;;;
       let conda_build_cfg := Path.join new_recipe "conda_build_config.yaml" in
       (if exists_conda_build_cfg fs then emit (Remove conda_build_cfg)
        else ret tt) ;;;
       ret (Path.join new_recipe "meta.yaml",
            Path.join new_recipe "meta.yaml.template")) ;;
  let meta_yaml := fst files in
  let meta_yaml_tpl := snd files in
  let rewriting :=
    rewrite_sources pkg pkgs_dir meta_yaml_tpl (meta_doc fs) (tpl_text fs) in
  rewriting ;;;
  (if exists_parent fs then ret tt
   else emit (Remove meta_yaml) ;;; emit (Move meta_yaml_tpl meta_yaml)) ;;;
  (* new_recipe/meta.yaml now holds the rewritten text *)
  let deps := extract_reqs (last_written (events rewriting) (tpl_text fs)) in
  emit (AppendFile (Path.join workdir "deps.txt")
          (Str.join "" [String.concat "" (repeat "-" 72);
                        String Str.nl "dependencies for " ++ nv ++ ":" ++ String Str.nl "";
                        deps ++ String Str.nl (String Str.nl "")])).

End Feedstock.

(** ** Instances of the library functions

    Small versions of the library functions, on which the development is
    run: release versions made of dotted numbers, URLs of the form
    scheme://host/path, and absolute paths already in normal form. *)

Module Instances.

Definition digit_val (c : ascii) : N := N.of_nat (nat_of_ascii c - 48).

Fixpoint number_acc (s : string) (acc : N) : option N :=
  match s with
  | EmptyString => Some acc
  | String c r =>
      if Str.is_digit c then number_acc r (10 * acc + digit_val c)%N else None
  end.

Definition number (s : string) : option N :=
  match s with
  | EmptyString => None
  | _ => number_acc s 0%N
  end.

Fixpoint numbers (l : list string) : option (list N) :=
  match l with
  | [] => Some []
  | s :: l' =>
      match number s, numbers l' with
      | Some n, Some ns => Some (n :: ns)
      | _, _ => None
      end
  end.

Fixpoint drop_zeros (l : list N) : list N :=
  match l with
  | 0%N :: l' => drop_zeros l'
  | _ => l
  end.

(** The key of a release: its numbers without the trailing zeros, so that
    1.0 and 1 are the same version. *)
Definition release_key (l : list N) : list N :=
  List.rev (drop_zeros (List.rev l)).

(** A release such as 1.10.3; anything else is not a version. *)
Definition PV (s : string) : option (list N) :=
  match numbers (Str.split "." s) with
  | Some l => Some (release_key l)
  | None => None
  end.

(** Keys compare as tuples of numbers do. *)
Fixpoint release_compare (a b : list N) : comparison :=
  match a, b with
  | [], [] => Eq
  | [], _ :: _ => Lt
  | _ :: _, [] => Gt
  | x :: a', y :: b' =>
      match N.compare x y with
      | Eq => release_compare a' b'
      | c => c
      end
  end.

Definition Ver_le (a b : list N) : bool :=
  match release_compare a b with Gt => false | _ => true end.

Definition Ver_lt (a b : list N) : bool :=
  match release_compare a b with Lt => true | _ => false end.

(** The path of scheme://host/path. *)
Fixpoint after_scheme (s : string) : string :=
  match s with
  | EmptyString => EmptyString
  | String c r => if String.prefix "://" s then Str.drop 3 s else after_scheme r
  end.

Fixpoint from_slash (s : string) : string :=
  match s with
  | EmptyString => EmptyString
  | String c r => if Ascii.eqb c "/" then s else from_slash r
  end.

Definition urlparse_path (url : string) : string := from_slash (after_scheme url).

(** The working directory is /work. *)
Definition abspath (p : string) : string :=
  if Str.startswith p "/" then p else "/work/" ++ p.

Definition components (p : string) : list string :=
  filter (fun x => negb (String.eqb x "")) (Str.split "/" p).

Fixpoint strip_common (a b : list string) : list string * list string :=
  match a, b with
  | x :: a', y :: b' => if String.eqb x y then strip_common a' b' else (a, b)
  | _, _ => (a, b)
  end.

(** Up from [start] to the common parent, then down to [p]. *)
Definition relpath (p start : string) : string :=
  let start_list := components (abspath start) in
  let path_list := components (abspath p) in
  let '(up, down) := strip_common start_list path_list in
  match (repeat ".." (List.length up) ++ down)%list with
  | [] => "."
  | rel_list => String.concat "/" rel_list
  end.

End Instances.

(** ** Vocabulary of the statements *)

Section ResolverVocabulary.
Variable Ver : Type.
Variable PV : string -> option Ver.
Variable Ver_le : Ver -> Ver -> bool.

(** The records whose build contains the filter. *)
Definition narrowed (py : string) (group : list PackageRecord) : list PackageRecord :=
  filter (fun x => Str.contains py (build x)) group.

(** The group after the build filter: narrowed, or whole when the filter
    is absent, empty, or selects nothing. *)
Definition candidates (py : option string) (group : list PackageRecord)
  : list PackageRecord :=
  match truthy py with
  | Some f =>
      match narrowed f group with
      | [] => group
      | l => l
      end
  | None => group
  end.

(** The parsed version of [p] is at most the parsed bound. *)
Definition qualifies (ver : string) (p : PackageRecord) : bool :=
  match PV (version p), PV ver with
  | Some a, Some b => Ver_le a b
  | _, _ => false
  end.

Definition parses (s : string) : Prop := PV s <> None.

(** What a resolution with an upper bound is to give: the first qualifying
    candidate from the newest to the oldest, [VersionNotFoundError] when
    there is none. *)
Definition newest_within_bound (pkg ver : string) (cands : list PackageRecord)
  : error + PackageRecord :=
  match find (qualifies ver) (List.rev cands) with
  | Some p => inr p
  | None => inl (VersionNotFoundError ver pkg)
  end.
End ResolverVocabulary.

(** The document of the requirements example. *)
Definition reqs_document : string :=
  "requirements:
  host:
    - a
  run:
    - b
about:
  summary: x".

(** The list that [load_urls] goes through. *)
Definition sources_of (meta : Meta) : list SourceItem :=
  match source meta with
  | None => []
  | Some (OneSource item) => [item]
  | Some (ManySources items) => items
  end.

Definition declares (u : string) (item : SourceItem) : bool :=
  match i_url item with
  | Some u' => String.eqb u' u
  | None => false
  end.

(** The value an item gives for a kind of hash. *)
Definition declared_hash (item : SourceItem) (kind : string) : option string :=
  if String.eqb kind "md5" then i_md5 item
  else if String.eqb kind "sha256" then i_sha256 item
  else if String.eqb kind "sha1" then i_sha1 item
  else None.

(** The kinds of hash, the preferred one first. *)
Definition precedence : list string := ["md5"; "sha256"; "sha1"].

Definition is_some {A} (o : option A) : bool :=
  match o with Some _ => true | None => false end.

(** The first kind, in the order of precedence, that the item declares. *)
Definition preferred_kind (item : SourceItem) : option string :=
  find (fun kind => is_some (declared_hash item kind)) precedence.

(** The item declares a URL and none of the three hashes. *)
Definition lacks_hash (item : SourceItem) : bool :=
  is_some (i_url item) && negb (is_some (preferred_kind item)).

Definition is_download (ev : event) : bool :=
  match ev with DownloadFile _ _ => true | _ => false end.

(** Orders given by a three-way comparison. *)
Class CmpOrder {T : Type} (cmp : T -> T -> comparison) : Prop := {
  cmp_eq : forall a b, cmp a b = Eq -> a = b;
  cmp_refl : forall a, cmp a a = Eq;
  cmp_antisym : forall a b, cmp a b = CompOpp (cmp b a);
  cmp_trans : forall a b c, cmp a b = Lt -> cmp b c = Lt -> cmp a c = Lt
}.

(** The lexicographic comparison of pairs. *)
Definition lex_cmp {A B : Type} (ca : A -> A -> comparison)
           (cb : B -> B -> comparison) (x y : A * B) : comparison :=
  match ca (fst x) (fst y) with
  | Eq => cb (snd x) (snd y)
  | c => c
  end.

Definition cmp_le {T : Type} (cmp : T -> T -> comparison) (a b : T) : bool :=
  match cmp a b with Gt => false | _ => true end.

Definition tuple_cmp : string * Z * string -> string * Z * string -> comparison :=
  lex_cmp (lex_cmp String.compare Z.compare) String.compare.

Section DatabaseVocabulary.
Variable Ver : Type.
Variable PV : string -> option Ver.
Variable Ver_le : Ver -> Ver -> bool.

(** The records of the entries named [k], in the order of the listing. *)
Definition records_named (forge_url k : string) (data : list (string * RepoEntry))
  : list PackageRecord :=
  map (fun e => make_record forge_url (fst e) (snd e))
      (filter (fun e => String.eqb (e_name (snd e)) k) data).

(** The order of the parsed versions, on records. *)
Definition version_le (x y : PackageRecord) : bool :=
  match PV (version x), PV (version y) with
  | Some a, Some b => Ver_le a b
  | _, _ => false
  end.

(** The fallback order, on records. *)
Definition fallback_le (x y : PackageRecord) : bool :=
  tuple_le (tuple_key x) (tuple_key y).

(** [l'] holds the elements of [l], and those that [le] does not tell apart
    from [x] come in the order they have in [l], whatever [x]. *)
Definition stable_wrt (le : PackageRecord -> PackageRecord -> bool)
           (l l' : list PackageRecord) : Prop :=
  forall x, filter (fun y => le x y && le y x) l' = filter (fun y => le x y && le y x) l.
End DatabaseVocabulary.

(** The group of a name in a database being built, empty when absent. *)
Definition group_of (db : dict (list PackageRecord)) (k : string) : list PackageRecord :=
  match dict_get k db with Some l => l | None => [] end.

(** Every character of [s] is in the class [p]. *)
Fixpoint all_chars (p : ascii -> bool) (s : string) : bool :=
  match s with
  | EmptyString => true
  | String c r => p c && all_chars p r
  end.

(** The matcher goes from [st] to [st'] by reading [w], groups untouched. *)
Definition reads (st : mstate) (w : string) (st' : mstate) : Prop :=
  rest st = w ++ rest st'
  /\ pos st' = (pos st + String.length w)%nat
  /\ caps st' = caps st.

(** The last character of a text. *)
Fixpoint last_char (s : string) : option ascii :=
  match s with
  | EmptyString => None
  | String c EmptyString => Some c
  | String _ r => last_char r
  end.

Definition not_char (c : ascii) : ascii -> bool := fun x => negb (Ascii.eqb x c).

(** The shape of a candidate line, with the parts that the three groups
    record: blanks, an optional dash, blanks, url:, blanks; a head without
    an opening brace; two opening braces, a middle, two closing braces; a
    tail without a closing brace; the end of the line. *)
Record candidate (line : string) (g1 head mid tail e : string) : Prop := {
  cand_line : line = g1 ++ head ++ "{{" ++ mid ++ "}}" ++ tail ++ e;
  cand_prefix : exists w1 d w2 w3,
      g1 = w1 ++ d ++ w2 ++ "url:" ++ w3
      /\ all_chars Str.is_space w1 = true
      /\ (d = "" \/ d = "-")
      /\ all_chars Str.is_space w2 = true
      /\ all_chars Str.is_space w3 = true;
  cand_head : head <> "" /\ all_chars (not_char "{") head = true;
  cand_mid : all_chars (not_char Str.nl) mid = true;
  cand_tail : tail <> "" /\ all_chars (not_char "}") tail = true;
  cand_end : e = "" \/ e = String Str.nl ""
}.

Section RewriterVocabulary.
Variable urlparse_path : string -> string.
Variable relpath : string -> string -> string.

(** The lines that [replace_urls] writes for the lines [content], and the
    diagnostics it prints. *)
Definition rewritten (meta_yaml_tpl pkgs_dir : string) (urls : dict SourceEntry)
           (content : list string) : list string :=
  match outcome (replace_urls_loop urlparse_path relpath meta_yaml_tpl pkgs_dir
                                   urls content []) with
  | inr l => l
  | inl _ => []
  end.

Definition diagnostics (meta_yaml_tpl pkgs_dir : string) (urls : dict SourceEntry)
           (content : list string) : list event :=
  events (replace_urls_loop urlparse_path relpath meta_yaml_tpl pkgs_dir
                            urls content []).
(** What one line becomes, and the diagnostic it causes. *)
Definition line_out (meta_yaml_tpl pkgs_dir : string) (urls : dict SourceEntry)
           (line : string) : list string :=
  match re_match url_regex line with
  | None => [line]
  | Some m =>
      match find_url (group 2 m) (group 3 m) urls with
      | None => [line]
      | Some u =>
          ["#" ++ whole m;
           group 1 m ++ local_path urlparse_path relpath meta_yaml_tpl pkgs_dir u urls]
      end
  end.

Definition line_diag (urls : dict SourceEntry) (line : string) : list event :=
  match re_match url_regex line with
  | None => []
  | Some m =>
      match find_url (group 2 m) (group 3 m) urls with
      | None => [DiagUrlNotFound line]
      | Some _ => []
      end
  end.
End RewriterVocabulary.

(** The pattern made of [head] and [tail] matches the URL [u]. *)
Definition url_matches (head tail u : string) : bool :=
  is_some (re_match (url_pattern head tail) u).

(** The dictionary that [create_feedstock] hands to [replace_urls]: the
    entries of [load_urls] with their destination file names. *)
Definition with_dest_fn (urlparse_path : string -> string) (pkg : string)
           (urls : dict SourceEntry) : dict SourceEntry :=
  map (fun kv => (fst kv,
                  mkSource (hash_type (snd kv)) (hash (snd kv))
                           (Some (dest_fn urlparse_path pkg (fst kv) (snd kv)))))
      urls.

(** The downloads of the sources, in the order of the dictionary. *)
Definition source_downloads (urlparse_path : string -> string)
           (pkg pkgs_dir : string) (urls : dict SourceEntry) : list event :=
  map (fun kv => DownloadFile (fst kv)
                   (Path.join pkgs_dir (dest_fn urlparse_path pkg (fst kv) (snd kv))))
      urls.

(** The URLs of the sources in the order of their first appearance. *)
Definition add_key (ks : list string) (u : string) : list string :=
  if existsb (String.eqb u) ks then ks else (ks ++ [u])%list.

Definition discover (ks : list string) (items : list SourceItem) : list string :=
  fold_left (fun ks item => match i_url item with
                            | Some u => add_key ks u
                            | None => ks
                            end)
            items ks.

(** ** Data of the examples *)

Module Examples.

Definition forge_url : string := "https://conda.anaconda.org/conda-forge".

Definition entry (v b : string) (t : Z) : RepoEntry :=
  mkEntry "pkg" v "linux-64" b [] (Some t).

Definition record (fname v b : string) (t : Z) : PackageRecord :=
  make_record forge_url fname (entry v b t).

(** A listing whose versions all parse. *)
Definition listing : list (string * RepoEntry) :=
  [("pkg-1.10-py310_0.conda", entry "1.10" "py310_0" 3);
   ("pkg-1.9-py310_0.conda", entry "1.9" "py310_0" 2);
   ("pkg-1.9-py39_0.conda", entry "1.9" "py39_0" 1)].

Definition r_1_10 : PackageRecord := record "pkg-1.10-py310_0.conda" "1.10" "py310_0" 3.
Definition r_1_9 : PackageRecord := record "pkg-1.9-py310_0.conda" "1.9" "py310_0" 2.
Definition r_1_9' : PackageRecord := record "pkg-1.9-py39_0.conda" "1.9" "py39_0" 1.

Definition pkg_db : dict (list PackageRecord) :=
  parse_repodata Instances.PV Instances.Ver_lt listing forge_url.

(** A listing with a version that does not parse. *)
Definition odd_listing : list (string * RepoEntry) :=
  [("pkg-abc-0.conda", entry "abc" "0" 2);
   ("pkg-1.0-0.conda", entry "1.0" "0" 1)].

Definition r_abc : PackageRecord := record "pkg-abc-0.conda" "abc" "0" 2.
Definition r_1_0 : PackageRecord := record "pkg-1.0-0.conda" "1.0" "0" 1.

Definition odd_db : dict (list PackageRecord) :=
  parse_repodata Instances.PV Instances.Ver_lt odd_listing forge_url.

(** A recipe with two sources and the template of its document. *)
Definition meta : Meta :=
  mkMeta (Some (ManySources
    [mkItem (Some "https://example.com/a/1.2.3.tar.gz")
            None (Some "ab12") (Some "cd34") None;
     mkItem None None None None (Some "local.patch");
     mkItem (Some "https://example.com/mylib-src.zip")
            (Some "ef56") (Some "ab12") None None])).

Definition bad_meta : Meta :=
  mkMeta (Some (ManySources
    [mkItem (Some "https://example.com/mylib-src.zip") (Some "ef56") None None None;
     mkItem (Some "https://example.com/a/1.2.3.tar.gz") None None None None])).

Definition template : string :=
  "source:
  - url: https://example.com/a/{{ version }}.tar.gz
    sha256: ab12
  - url: https://example.com/{{ name }}-src.zip
  - url: https://other.org/{{ name }}.zip
  - url: https://example.com/{{ name }}".

Definition unpacked : Unpacked := mkUnpacked false false true bad_meta template.

End Examples.

(** ** The rest of the scripts *)

(** *** [download_file]: the transfer loop

    Lines 131-141.  [reads] holds what the successive calls of
    [f.read(CHUNK_SIZE)] return; once it is used up the stream is at its
    end and a read returns nothing.  The loop gives what was written to the
    file and what was printed, one text per [print]. *)
Fixpoint download_loop (reads : list string) (blocks : nat)
  : string * list string :=
  match reads with
  | [] => ("", [])
  | s :: reads' =>
      if (String.length s =? 0)%nat then ("", [])
      else
        let blocks := S blocks in
        let '(printed, blocks) :=
          if (blocks =? 77)%nat
          then (["."; String Str.nl "oo "], 0)
          else (["."], blocks) in
        let '(written, printed') := download_loop reads' blocks in
        (s ++ written, (printed ++ printed')%list)
  end.

(** *** [get_abs_path] and [main] of create_feedstock.py *)

Section Main.
Variable Ver : Type.
Variable PV : string -> option Ver.
Variable Ver_le : Ver -> Ver -> bool.
Variable urlparse_path : string -> string.
Variable abspath : string -> string.
Variable relpath : string -> string -> string.
(** [__file__], the path of the script. *)
Variable script_file : string.

(** [os.path.isabs] *)
Definition isabs (path : string) : bool := Str.startswith path "/".

(** Lines 301-306. *)
Definition get_abs_path (path : string) : string :=
  if negb (isabs path) then
    let script_dir := Path.dirname script_file in
    let path := Path.join script_dir path in
    abspath path
  else path.

(** The parsed command line, with the defaults of lines 311-347. *)
Record Args : Type := mkArgs {
  PKG_NAME : string;
  upper_bound : option string;
  db : string;
  py : string;
  workdir : string;
  recipes_dir : string;
  pkgs_dir : string
}.

Definition default_args (pkg_name : string) : Args :=
  mkArgs pkg_name None "../data/pkgdb.json" "310" "../workdir" "../recipes" "../pkgs".

(** Lines 350-361; [read_db] gives the database that a file holds, [fs]
    what [create_feedstock] finds on disk. *)
Definition main (args : Args) (read_db : string -> dict (list PackageRecord))
           (fs : Unpacked) : M unit :=
  let db := get_abs_path (db args) in
  let workdir := get_abs_path (workdir args) in
  let pkgs_dir := get_abs_path (pkgs_dir args) in
  let recipes_dir := get_abs_path (recipes_dir args) in
  pkg_spec <- get_pkg_spec PV Ver_le (PKG_NAME args) (upper_bound args)
                           (Some (py args)) (read_db db) ;;
  create_feedstock urlparse_path abspath relpath pkg_spec fs
                   workdir recipes_dir pkgs_dir.
End Main.

(** *** [load_repodata] of make_package_db.py *)

(** [d.update(other)] *)
Definition dict_update {V : Type} (d other : dict V) : dict V :=
  fold_left (fun acc kv => dict_set (fst kv) (snd kv) acc) other d.

(** The two tables of one [repodata.json]. *)
Record Repodata : Type := mkRepodata {
  packages : dict RepoEntry;
  packages_conda : dict RepoEntry
}.

(** Lines 21-31; [fetched] holds the listing of each architecture, in the
    order of [arches]. *)
Definition load_repodata (fetched : list Repodata) : dict RepoEntry :=
  fold_left (fun data repodata =>
               dict_update (dict_update data (packages repodata))
                           (packages_conda repodata))
            fetched [].

(** ** More vocabulary *)

(** [l] is made of elements of [l'], in the order they have there. *)
Inductive subseq {A : Type} : list A -> list A -> Prop :=
| subseq_nil : subseq [] []
| subseq_skip : forall x l l', subseq l l' -> subseq l (x :: l')
| subseq_keep : forall x l l', subseq l l' -> subseq (x :: l) (x :: l').

(** One or more blocks, each a character of the class [p] followed by one
    or more characters of the class [q]. *)
Inductive blocks (p q : ascii -> bool) : string -> Prop :=
| blocks_one : forall c w,
    p c = true -> w <> "" -> all_chars q w = true ->
    blocks p q (String c w)
| blocks_more : forall c w r,
    p c = true -> w <> "" -> all_chars q w = true -> blocks p q r ->
    blocks p q (String c w ++ r).

Definition dash_or_dot (c : ascii) : bool := Ascii.eqb c "-" || Ascii.eqb c ".".

(** The version-only shape of a file name: an optional v, digits, blocks
    of a dash or a dot and digits, blocks of a dot and word characters,
    and the end, before which one newline may stand. *)
Definition version_only (s : string) : Prop :=
  exists v ds b1 b2 e,
    s = v ++ ds ++ b1 ++ b2 ++ e
    /\ (v = "" \/ v = "v")
    /\ ds <> "" /\ all_chars Str.is_digit ds = true
    /\ blocks dash_or_dot Str.is_digit b1
    /\ blocks (Ascii.eqb ".") Str.is_word b2
    /\ (e = "" \/ e = String Str.nl "").

Definition is_write (ev : event) : bool :=
  match ev with WriteFile _ _ => true | _ => false end.

(** Events that change the network or the disk: all but the two
    diagnostics. *)
Definition is_effect (ev : event) : bool :=
  match ev with
  | WarnNoBuild _ | DiagUrlNotFound _ => false
  | _ => true
  end.

Definition is_unpack (ev : event) : bool :=
  match ev with
  | UnpackArchive _ _ _ | ZstExtractAll _ _ => true
  | _ => false
  end.

(** Events of the finalization: a file removed or moved. *)
Definition is_finalize (ev : event) : bool :=
  match ev with
  | Remove _ | Move _ _ => true
  | _ => false
  end.

Definition is_append (ev : event) : bool :=
  match ev with AppendFile _ _ => true | _ => false end.

Section FeedstockVocabulary.
Variable urlparse_path : string -> string.

(** The directory an artifact is unpacked into (lines 231-232). *)
Definition extract_dir_of (pkg_spec : PackageRecord) (workdir : string) : string :=
  Path.join workdir
    (Str.replace (Str.replace (url_basename urlparse_path (url pkg_spec))
                              ".tar.bz2" "")
                 ".conda" "").
End FeedstockVocabulary.

Section PipelineVocabulary.
Variable urlparse_path : string -> string.

(** The paths of [create_feedstock]: the recipe inside the unpacked
    artifact, its copy, and the document that is rewritten. *)
Definition old_recipe_of (pkg_spec : PackageRecord) (workdir : string) : string :=
  Path.join (Path.join (extract_dir_of urlparse_path pkg_spec workdir) "info") "recipe".

Definition new_recipe_of (pkg_spec : PackageRecord) (recipes_dir : string) : string :=
  Path.join recipes_dir (nv pkg_spec).

Definition template_of (pkg_spec : PackageRecord) (fs : Unpacked)
           (recipes_dir : string) : string :=
  if exists_parent fs
  then Path.join (new_recipe_of pkg_spec recipes_dir) "meta.yaml"
  else Path.join (new_recipe_of pkg_spec recipes_dir) "meta.yaml.template".

(** What is appended to deps.txt for the dependencies [deps]. *)
Definition deps_entry (pkg_spec : PackageRecord) (deps : string) : string :=
  Str.join "" [String.concat "" (repeat "-" 72);
               String Str.nl "dependencies for " ++ nv pkg_spec ++ ":"
                 ++ String Str.nl "";
               deps ++ String Str.nl (String Str.nl "")].
End PipelineVocabulary.

Definition is_copy (ev : event) : bool :=
  match ev with Copytree _ _ => true | _ => false end.

Definition is_move (ev : event) : bool :=
  match ev with Move _ _ => true | _ => false end.

Definition is_candidate (line : string) : bool :=
  is_some (re_match url_regex line).

(** The lines that [extract_reqs] emits from [content], starting inside
    the requirements ([in_req]) or outside. *)
Definition emitted (content : list string) (in_req : bool) : list string :=
  extract_reqs_loop content in_req [].

(** The chunks of a stream up to its end, the first empty read. *)
Fixpoint received (reads : list string) : list string :=
  match reads with
  | [] => []
  | s :: reads' => if (String.length s =? 0)%nat then [] else s :: received reads'
  end.

(** All the rows of the listings that were fetched, in the order in which
    [load_repodata] merges them. *)
Definition all_rows (fetched : list Repodata) : list (string * RepoEntry) :=
  flat_map (fun r => (packages r ++ packages_conda r)%list) fetched.

(** The URL of an item, or the empty text. *)
Definition i_url_or (item : SourceItem) : string :=
  match i_url item with Some u => u | None => "" end.

(** The matcher goes from [st] to [st'] by reading [w]; the groups may
    change. *)
Definition advances (st : mstate) (w : string) (st' : mstate) : Prop :=
  rest st = w ++ rest st' /\ pos st' = (pos st + String.length w)%nat.

(** One block of the version-only shape: a character of [p], then one or
    more of [q], in the group [k]. *)
Definition block_regex (k : nat) (p q : ascii -> bool) : regex :=
  Group k (Seq (Class p) (Plus (Class q))).

(** ** The orders and the shapes of the specification *)

(** The order of the triples (version text, timestamp, build): the version
    texts decide when they differ, then the timestamps, then the builds;
    texts compare character by character, by code point. *)
Definition triple_le (x y : PackageRecord) : bool :=
  match String.compare (version x) (version y) with
  | Lt => true
  | Gt => false
  | Eq =>
      match Z.compare (timestamp x) (timestamp y) with
      | Lt => true
      | Gt => false
      | Eq =>
          match String.compare (build x) (build y) with
          | Gt => false
          | _ => true
          end
      end
  end.

(** The URL [u] fits the head and the tail of a candidate: it begins with
    the head and holds the tail further on, no newline standing between
    the two. *)
Definition url_fits (head tail u : string) : Prop :=
  exists mid rest,
    u = head ++ mid ++ tail ++ rest /\ all_chars (not_char Str.nl) mid = true.

(** What is printed for the chunk of rank [i], counted from one: a dot,
    and after the dot a line break when [i] is a multiple of 77. *)
Definition chunk_progress (i : nat) : list string :=
  if (i mod 77 =? 0)%nat then ["."; String Str.nl "oo "] else ["."].

(** ** More data for the examples *)

Module MoreExamples.

(** A multi-output recipe that replaces an existing one. *)
Definition multi : Unpacked := mkUnpacked true true false Examples.meta Examples.template.

(** A recipe of its own, with a conda_build_config.yaml. *)
Definition single : Unpacked := mkUnpacked false false true Examples.meta Examples.template.

(** A document without requirements. *)
Definition plain_text : string :=
  "package:
  name: x".

(** What a stream gives: two chunks, then its end. *)
Definition stream : list string := ["ab"; "c"; ""; "zz"].

(** The listings of two architectures; the second lists a file of the
    first again. *)
Definition fetched : list Repodata :=
  [mkRepodata [("a-1.tar.bz2", Examples.entry "1" "0" 1)]
              [("a-1.conda", Examples.entry "1" "0" 2)];
   mkRepodata [("a-1.tar.bz2", Examples.entry "1" "1" 3)] []].

(** The table of the sources of [Examples.meta], with their file names. *)
Definition sources : dict SourceEntry :=
  [("https://example.com/a/1.2.3.tar.gz", mkSource "sha256" "ab12" (Some "pkg-1.2.3.tar.gz"));
   ("https://example.com/mylib-src.zip", mkSource "md5" "ef56" (Some "mylib-src.zip"))].

(** A listing with a version that does not parse and sorts first. *)
Definition mixed_listing : list (string * RepoEntry) :=
  [("pkg-2.0-0.conda", Examples.entry "2.0" "0" 3);
   ("pkg-0abc-0.conda", Examples.entry "0abc" "0" 2);
   ("pkg-1.0-0.conda", Examples.entry "1.0" "0" 1)].

Definition r_0abc : PackageRecord := Examples.record "pkg-0abc-0.conda" "0abc" "0" 2.
Definition r_2_0 : PackageRecord := Examples.record "pkg-2.0-0.conda" "2.0" "0" 3.

Definition mixed_db : dict (list PackageRecord) :=
  parse_repodata Instances.PV Instances.Ver_lt mixed_listing Examples.forge_url.

(** A template whose only templated line names another host. *)
Definition foreign_template : string :=
  "source:
  - url: https://other.org/{{ name }}.bin".

(** An artifact of the older format. *)
Definition r_bz2 : PackageRecord := Examples.record "pkg-1.0-0.tar.bz2" "1.0" "0" 1.

End MoreExamples.

(** * Properties *)

Unset Implicit Arguments.

(** ** The monad *)

Lemma events_bind {A B} (m : M A) (k : A -> M B) :
  events (bind m k) =
  (events m ++ match outcome m with
               | inr a => events (k a)
               | inl _ => []
               end)%list.
Proof.
  destruct m as [evs [e | a]]; simpl.
  - now rewrite app_nil_r.
  - now destruct (k a).
Qed.

Lemma outcome_bind {A B} (m : M A) (k : A -> M B) :
  outcome (bind m k) =
  match outcome m with
  | inr a => outcome (k a)
  | inl e => inl e
  end.
Proof.
  destruct m as [evs [e | a]]; simpl; [reflexivity | now destruct (k a)].
Qed.

Lemma M_eta {A} (m : M A) : m = (events m, outcome m).
Proof. now destruct m. Qed.

(** ** Strings *)

Lemma append_assoc (a b c : string) : (a ++ b) ++ c = a ++ (b ++ c).
Proof. induction a; simpl; congruence. Qed.

Lemma append_empty_r (a : string) : a ++ "" = a.
Proof. induction a; simpl; congruence. Qed.

Lemma prefix_app (p s : string) : String.prefix p (p ++ s) = true.
Proof.
  induction p; simpl; [now destruct s |].
  destruct (ascii_dec a a); [assumption | congruence].
Qed.

Lemma contains_app_l (sub x y : string) :
  Str.contains sub y = true -> Str.contains sub (x ++ y) = true.
Proof.
  intros H. induction x as [| c x IH]; simpl; [assumption |].
  rewrite IH. apply orb_true_r.
Qed.

Lemma endswith_app (x p : string) : Str.endswith (x ++ p) p = true.
Proof.
  induction x as [| c x IH].
  - destruct p; [reflexivity |].
    cbn [append Str.endswith]. now rewrite String.eqb_refl.
  - cbn [append Str.endswith]. rewrite IH. apply orb_true_r.
Qed.

Lemma split_not_nil (sep : ascii) (s : string) : Str.split sep s <> [].
Proof.
  destruct s as [| c s]; simpl; [discriminate |].
  destruct (Ascii.eqb c sep); [discriminate |].
  destruct (Str.split sep s); discriminate.
Qed.

Lemma split_no_sep (sep : ascii) (s : string) :
  Str.has_char sep s = false -> Str.split sep s = [s].
Proof.
  induction s as [| c s IH]; simpl; [reflexivity |].
  intros H. apply orb_false_iff in H as [Hc Hs].
  rewrite Hc, (IH Hs). reflexivity.
Qed.

Lemma split_has_char (sep : ascii) (s : string) :
  Str.has_char sep s = true ->
  exists h h' t, Str.split sep s = h :: h' :: t.
Proof.
  induction s as [| c s IH]; simpl; [discriminate |].
  intros H. destruct (Ascii.eqb c sep) eqn:Ec.
  - destruct (Str.split sep s) as [| h t] eqn:E.
    + now apply split_not_nil in E.
    + now exists "", h, t.
  - simpl in H. destruct (IH H) as (h & h' & t & E).
    rewrite E. now exists (String c h), h', t.
Qed.

Lemma basename_cons (c : ascii) (s : string) :
  Path.basename (String c s) =
  if Str.has_char Path.slash s then Path.basename s
  else if Ascii.eqb c Path.slash then s else String c s.
Proof.
  unfold Path.basename.
  destruct (Str.has_char Path.slash s) eqn:H.
  - destruct (split_has_char _ _ H) as (h & h' & t & E).
    simpl. rewrite E. now destruct (Ascii.eqb c Path.slash).
  - simpl. rewrite (split_no_sep _ _ H).
    now destruct (Ascii.eqb c Path.slash).
Qed.

Lemma endswith_slash_cons (c : ascii) (x : string) :
  Str.endswith (String c x) "/" = true ->
  (x = "" /\ c = Path.slash) \/ Str.endswith x "/" = true.
Proof.
  cbn [Str.endswith]. intros H. apply orb_true_iff in H as [H | H]; [| now right].
  left. apply String.eqb_eq in H. now inversion H.
Qed.

Lemma endswith_has_char (x b : string) :
  Str.endswith x "/" = true -> Str.has_char Path.slash (x ++ b) = true.
Proof.
  induction x as [| c x IH]; intros H.
  - discriminate.
  - apply endswith_slash_cons in H as [[-> ->] | H]; [reflexivity |].
    simpl. rewrite (IH H). apply orb_true_r.
Qed.

(** The base name of [x ++ b] is [b] when [x] is empty or ends with a slash
    and [b] holds no slash. *)
Lemma basename_app (x b : string) :
  x = "" \/ Str.endswith x "/" = true ->
  Str.has_char Path.slash b = false ->
  Path.basename (x ++ b) = b.
Proof.
  intros Hx Hb.
  induction x as [| c x IH]; simpl append.
  - unfold Path.basename. now rewrite (split_no_sep _ _ Hb).
  - destruct Hx as [Hx | Hx]; [discriminate |].
    rewrite basename_cons.
    apply endswith_slash_cons in Hx as [[-> ->] | Hx].
    + simpl append. now rewrite Hb.
    + rewrite (endswith_has_char _ b Hx). apply IH. now right.
Qed.

(** ** Paths *)

Lemma join_relative (w b : string) :
  Str.startswith b "/" = false ->
  exists x, Path.join w b = x ++ b /\ (x = "" \/ Str.endswith x "/" = true).
Proof.
  intros Hb. unfold Path.join. rewrite Hb.
  destruct (String.eqb w "" || Str.endswith w "/")%bool eqn:E.
  - exists w. split; [reflexivity |].
    apply orb_true_iff in E as [E | E]; [left; now apply String.eqb_eq | now right].
  - exists (w ++ "/"). split; [now rewrite append_assoc |].
    right. apply endswith_app.
Qed.

Lemma basename_join (w b : string) :
  Str.startswith b "/" = false ->
  Str.has_char Path.slash b = false ->
  Path.basename (Path.join w b) = b.
Proof.
  intros Hs Hb. destruct (join_relative w b Hs) as (x & -> & Hx).
  now apply basename_app.
Qed.

Lemma contains_join (sub w b : string) :
  Str.startswith b "/" = false ->
  Str.contains sub b = true ->
  Str.contains sub (Path.join w b) = true.
Proof.
  intros Hs Hb. destruct (join_relative w b Hs) as (x & -> & _).
  now apply contains_app_l.
Qed.

(** ** The unpacker *)

Section Unpacker.
Variable urlparse_path : string -> string.
Variable abspath : string -> string.

(** C3.  For an artifact whose file name is pkg-1.0-0.conda, whatever the
    work directory: the artifact is unpacked as a zip archive into the
    extraction directory, the inner archive that is then unpacked is the
    file info-pkg-1.0-0.tar.zst of that directory, and it is unpacked into
    the absolute form of the same directory. *)
Theorem two_layer_unpack (pkg_spec : PackageRecord) (workdir : string) :
  url_basename urlparse_path (url pkg_spec) = "pkg-1.0-0.conda" ->
  let out_fn := Path.join workdir "pkg-1.0-0.conda" in
  let extract_dir := Path.join workdir "pkg-1.0-0" in
  let info_out_fn := "info-pkg-1.0-0.tar.zst" in
  abspath (abspath extract_dir) = abspath extract_dir ->
  unpack_artifact urlparse_path abspath pkg_spec workdir =
    ([DownloadFile (url pkg_spec) out_fn;
      Rmtree extract_dir;
      Makedirs extract_dir;
      UnpackArchive out_fn extract_dir (Some "zip");
      ZstExtractAll (abspath (Path.join extract_dir info_out_fn))
                    (abspath extract_dir)],
     inr extract_dir)
  /\ "info-" ++ Str.replace (url_basename urlparse_path (url pkg_spec))
                            ".conda" ".tar.zst" = info_out_fn
  /\ forall a1 d1 f a2 d2,
      In (UnpackArchive a1 d1 f)
         (events (unpack_artifact urlparse_path abspath pkg_spec workdir)) ->
      In (ZstExtractAll a2 d2)
         (events (unpack_artifact urlparse_path abspath pkg_spec workdir)) ->
      abspath d1 = abspath d2.
Proof.
  intros Hbase out_fn extract_dir info_out_fn Habs.
  assert (E : unpack_artifact urlparse_path abspath pkg_spec workdir =
    ([DownloadFile (url pkg_spec) out_fn;
      Rmtree extract_dir;
      Makedirs extract_dir;
      UnpackArchive out_fn extract_dir (Some "zip");
      ZstExtractAll (abspath (Path.join extract_dir info_out_fn))
                    (abspath extract_dir)],
     inr extract_dir)).
  { unfold unpack_artifact. rewrite Hbase.
    rewrite (basename_join workdir "pkg-1.0-0.conda") by reflexivity.
    rewrite (contains_join ".conda" workdir "pkg-1.0-0.conda") by reflexivity.
    reflexivity. }
  split; [exact E | split].
  - rewrite Hbase. reflexivity.
  - rewrite E. simpl. intros a1 d1 f a2 d2 H1 H2.
    repeat (destruct H1 as [H1 | H1]; try discriminate H1); try contradiction.
    repeat (destruct H2 as [H2 | H2]; try discriminate H2); try contradiction.
    inversion H1; inversion H2; subst. now rewrite Habs.
Qed.
End Unpacker.

(** ** The requirements extractor *)

(** C6, as the code has it.  On the example document the extractor
    yields the five lines of the requirements section, each without its
    indentation; the about: line and what follows it are left out. *)
Theorem extract_reqs_example :
  extract_reqs reqs_document =
  "requirements:
host:
- a
run:
- b".
Proof. vm_compute. reflexivity. Qed.

(** C6 as stated does not hold: the indented text is not what comes out. *)
Lemma extract_reqs_keeps_no_indentation :
  extract_reqs reqs_document <>
  "requirements:
  host:
    - a
  run:
    - b".
Proof. vm_compute. discriminate. Qed.

(** ** Destination file names of the sources *)

Section Destinations.
Variable urlparse_path : string -> string.

Lemma download_sources_events (pkg pkgs_dir : string) (urls : dict SourceEntry) :
  events (download_sources urlparse_path pkg pkgs_dir urls) =
  map (fun kv => DownloadFile (fst kv)
                   (Path.join pkgs_dir (dest_fn urlparse_path pkg (fst kv) (snd kv))))
      urls.
Proof.
  induction urls as [| [u v] urls IH]; [reflexivity |].
  cbn [download_sources]. rewrite events_bind. cbn [emit events outcome fst snd].
  rewrite events_bind, IH.
  destruct (outcome (download_sources urlparse_path pkg pkgs_dir urls));
    cbn; now rewrite app_nil_r.
Qed.

Lemma download_sources_outcome (pkg pkgs_dir : string) (urls : dict SourceEntry) :
  outcome (download_sources urlparse_path pkg pkgs_dir urls) =
  inr (map (fun kv => (fst kv,
                       mkSource (hash_type (snd kv)) (hash (snd kv))
                                (Some (dest_fn urlparse_path pkg (fst kv) (snd kv)))))
           urls).
Proof.
  induction urls as [| [u v] urls IH]; [reflexivity |].
  cbn [download_sources]. rewrite outcome_bind. cbn [emit events outcome fst snd].
  rewrite outcome_bind, IH. reflexivity.
Qed.


(** C9.  A source with an explicit file name of the version-only shape has
    the package name put before it: it is fetched to <pkg>-<fn>.  Whether
    the name was declared or derived from the URL, the same test on the
    name that is in effect decides. *)
Theorem explicit_filename_prefixed
        (pkg pkgs_dir u f : string) (v : SourceEntry) (urls : dict SourceEntry) :
  fn v = Some f ->
  fn_is_simple f = true ->
  In (u, v) urls ->
  dest_fn urlparse_path pkg u v = pkg ++ "-" ++ f
  /\ In (DownloadFile u (Path.join pkgs_dir (pkg ++ "-" ++ f)))
        (events (download_sources urlparse_path pkg pkgs_dir urls))
  /\ (forall v', fn v' = None -> url_basename urlparse_path u = f ->
                 dest_fn urlparse_path pkg u v' = dest_fn urlparse_path pkg u v).
Proof.
  intros Hfn Hs Hin.
  assert (E : dest_fn urlparse_path pkg u v = pkg ++ "-" ++ f).
  { unfold dest_fn. now rewrite Hfn, Hs. }
  split; [exact E | split].
  - rewrite <- E, download_sources_events.
    apply (in_map (fun kv => DownloadFile (fst kv)
        (Path.join pkgs_dir (dest_fn urlparse_path pkg (fst kv) (snd kv)))) _ _ Hin).
  - intros v' Hv' Hb. unfold dest_fn. now rewrite Hfn, Hv', Hb.
Qed.
End Destinations.


(** ** The resolver *)

Lemma prefix_split (p s : string) :
  String.prefix p s = true -> exists r, s = p ++ r.
Proof.
  revert s. induction p as [| c p IH]; intros s H.
  - now exists s.
  - destruct s as [| d s]; [discriminate |]. simpl in H.
    destruct (ascii_dec c d) as [-> |]; [| discriminate].
    destruct (IH s H) as [r ->]. now exists r.
Qed.

(** [sub in s] holds exactly when [sub] occurs in [s]. *)
Lemma contains_spec (sub s : string) :
  Str.contains sub s = true <-> exists a b, s = a ++ sub ++ b.
Proof.
  split.
  - induction s as [| c s IH]; cbn [Str.contains]; intros H.
    + rewrite orb_false_r in H. destruct (prefix_split _ _ H) as [r ->].
      now exists "", r.
    + apply orb_true_iff in H as [H | H].
      * destruct (prefix_split _ _ H) as [r ->]. now exists "", r.
      * destruct (IH H) as (a & b & ->). now exists (String c a), b.
  - intros (a & b & ->). apply contains_app_l.
    pose proof (prefix_app sub b) as H.
    destruct (sub ++ b); cbn [Str.contains]; now rewrite H.
Qed.

Section ResolverProperties.
Variable Ver : Type.
Variable PV : string -> option Ver.
Variable Ver_le : Ver -> Ver -> bool.

Lemma filter_build_candidates (py : option string) (group : list PackageRecord) :
  outcome (filter_build py group) = inr (candidates py group).
Proof.
  unfold filter_build, candidates. destruct (truthy py) as [f |]; [| reflexivity].
  fold (narrowed f group). now destruct (narrowed f group).
Qed.

Lemma get_pkg_spec_outcome (pkg : string) (ver py : option string)
      (pkg_db : dict (list PackageRecord)) (group : list PackageRecord) :
  dict_get pkg pkg_db = Some group ->
  outcome (get_pkg_spec PV Ver_le pkg ver py pkg_db) =
  match ver with
  | None =>
      match List.rev (candidates py group) with
      | p :: _ => inr p
      | [] => inl IndexError
      end
  | Some ver =>
      match scan_bound PV Ver_le ver (List.rev (candidates py group)) with
      | inl e => inl e
      | inr (Some p) => inr p
      | inr None => inl (VersionNotFoundError ver pkg)
      end
  end.
Proof.
  intros Hget. unfold get_pkg_spec. rewrite Hget, outcome_bind.
  rewrite filter_build_candidates. destruct ver as [ver |].
  - destruct (scan_bound PV Ver_le ver (List.rev (candidates py group)))
      as [e | [p |]]; reflexivity.
  - destruct (List.rev (candidates py group)); reflexivity.
Qed.

Lemma narrowed_empty_filter (group : list PackageRecord) : narrowed "" group = group.
Proof.
  unfold narrowed. induction group as [| p l IH]; [reflexivity |].
  cbn [filter]. rewrite IH.
  now destruct (build p).
Qed.

(** C8.  With a build filter, the candidates are the records of the group
    whose build contains the filter, unless there is none: then the group
    is kept whole, and the only effect is one warning.  The candidates are
    empty only if the group is; without an upper bound the resolver
    returns the last candidate of every group that is not empty, and it
    fails with a filter only where it fails without one. *)
Theorem build_filter_never_empties
        (pkg py : string) (pkg_db : dict (list PackageRecord))
        (group : list PackageRecord) :
  dict_get pkg pkg_db = Some group ->
  let cands := candidates (Some py) group in
  (forall p, In p (narrowed py group) <->
             In p group /\ exists a b, build p = a ++ py ++ b)
  /\ (narrowed py group <> [] ->
      filter_build (Some py) group = ([], inr (narrowed py group)))
  /\ (narrowed py group = [] ->
      outcome (filter_build (Some py) group) = inr group
      /\ (py <> "" -> events (filter_build (Some py) group) = [WarnNoBuild py]))
  /\ (cands = [] <-> group = [])
  /\ (group <> [] ->
      exists p, outcome (get_pkg_spec PV Ver_le pkg None (Some py) pkg_db) = inr p
                /\ In p cands /\ List.last cands p = p)
  /\ (forall e, outcome (get_pkg_spec PV Ver_le pkg None (Some py) pkg_db) = inl e ->
                outcome (get_pkg_spec PV Ver_le pkg None None pkg_db) = inl e).
Proof.
  intros Hget cands.
  assert (Ht : py <> "" -> truthy (Some py) = Some py)
    by (clear; intros Hpy; destruct py; [now elim Hpy | reflexivity]).
  assert (Hempty : cands = [] <-> group = []).
  { unfold cands, candidates. destruct (string_dec py "") as [-> | Hpy]; [tauto |].
    rewrite (Ht Hpy). destruct (narrowed py group) eqn:E; [tauto |].
    split; [discriminate |]. intros ->. discriminate. }
  split; [| split; [| split; [| split; [exact Hempty | split]]]].
  - intros p. unfold narrowed. rewrite filter_In, contains_spec. tauto.
  - intros Hne. destruct (string_dec py "") as [-> | Hpy].
    + now rewrite narrowed_empty_filter.
    + unfold filter_build. rewrite (Ht Hpy). fold (narrowed py group).
      destruct (narrowed py group); [congruence | reflexivity].
  - intros He. split.
    + rewrite filter_build_candidates. f_equal. unfold candidates.
      destruct (truthy (Some py)) as [f |] eqn:E; [| reflexivity].
      assert (f = py) by (destruct py; [discriminate | now injection E]).
      subst f. now rewrite He.
    + intros Hpy. unfold filter_build. rewrite (Ht Hpy). fold (narrowed py group).
      now rewrite He.
  - intros Hne. rewrite (get_pkg_spec_outcome pkg None (Some py) pkg_db group Hget).
    fold cands. destruct (List.rev cands) as [| p l] eqn:E.
    + exfalso. apply Hne, Hempty.
      apply (f_equal (@List.rev _)) in E. now rewrite rev_involutive in E.
    + exists p. split; [reflexivity |].
      apply (f_equal (@List.rev _)) in E. rewrite rev_involutive in E.
      rewrite E. simpl. split; [apply in_or_app; right; now left |].
      apply last_last.
  - intros e.
    rewrite (get_pkg_spec_outcome pkg None (Some py) pkg_db group Hget).
    rewrite (get_pkg_spec_outcome pkg None None pkg_db group Hget).
    fold cands. destruct (List.rev cands) as [| p l] eqn:E; [| discriminate].
    apply (f_equal (@List.rev _)) in E. rewrite rev_involutive in E. simpl in E.
    apply Hempty in E. subst group. trivial.
Qed.

Lemma scan_bound_parsed (ver : string) (l : list PackageRecord) :
  (l <> [] -> parses PV ver) ->
  Forall (fun p => parses PV (version p)) l ->
  scan_bound PV Ver_le ver l = inr (find (qualifies PV Ver_le ver) l).
Proof.
  unfold parses. intros Hv Hl. induction Hl as [| p l Hp Hl IH]; [reflexivity |].
  assert (Hb : PV ver <> None) by (apply Hv; discriminate).
  cbn [scan_bound find]. unfold version_le_bound, qualifies.
  destruct (PV (version p)) as [a |]; [| congruence].
  destruct (PV ver) as [b |] eqn:Eb; [| congruence].
  destruct (Ver_le a b); [reflexivity |].
  rewrite IH by (intros _; discriminate).
  unfold qualifies. now rewrite Eb.
Qed.

Lemma scan_bound_unparsed (ver : string) (pre : list PackageRecord)
      (p : PackageRecord) (post : list PackageRecord) :
  Forall (fun q => parses PV (version q) /\ qualifies PV Ver_le ver q = false) pre ->
  (pre <> [] -> parses PV ver) ->
  (PV (version p) = None ->
   scan_bound PV Ver_le ver (pre ++ p :: post) = inl (InvalidVersion (version p)))
  /\ (parses PV (version p) -> PV ver = None ->
      scan_bound PV Ver_le ver (pre ++ p :: post) = inl (InvalidVersion ver)).
Proof.
  unfold parses. intros Hpre Hv.
  induction Hpre as [| q pre [Hq Hnq] Hpre IH].
  - cbn [app scan_bound]. unfold version_le_bound. split.
    + now intros ->.
    + intros Hp Hb. destruct (PV (version p)); [| congruence]. now rewrite Hb.
  - assert (Hb : PV ver <> None) by (apply Hv; discriminate).
    cbn [app scan_bound]. unfold version_le_bound.
    unfold qualifies in Hnq.
    destruct (PV (version q)) as [a |]; [| congruence].
    destruct (PV ver) as [b |] eqn:Eb; [| congruence].
    rewrite Hnq. apply IH. intros _. congruence.
Qed.

Lemma scan_bound_first (ver : string) (pre : list PackageRecord)
      (p : PackageRecord) (post : list PackageRecord) :
  Forall (fun q => parses PV (version q) /\ qualifies PV Ver_le ver q = false) pre ->
  qualifies PV Ver_le ver p = true ->
  scan_bound PV Ver_le ver (pre ++ p :: post) = inr (Some p).
Proof.
  unfold parses. intros Hpre Hp.
  assert (Hb : PV ver <> None).
  { unfold qualifies in Hp. destruct (PV (version p)); [| discriminate].
    destruct (PV ver); [discriminate | discriminate]. }
  induction Hpre as [| q pre [Hq Hnq] Hpre IH].
  - cbn [app scan_bound]. unfold version_le_bound. unfold qualifies in Hp.
    destruct (PV (version p)) as [a |]; [| discriminate].
    destruct (PV ver) as [b |]; [| discriminate]. now rewrite Hp.
  - cbn [app scan_bound]. unfold version_le_bound. unfold qualifies in Hnq.
    destruct (PV (version q)) as [a |]; [| congruence].
    destruct (PV ver) as [b |] eqn:Eb; [| congruence].
    rewrite Hnq. exact IH.
Qed.

(** C1, as the code has it.  For a package of the database and an upper
    bound, the candidates are scanned from the newest to the oldest, the
    version of the record at hand and then the bound being parsed at each
    step.  The first record whose version is at most the bound is returned
    when the versions of the records scanned before it parse, whatever the
    versions of the records after it; when the bound and all the versions
    parse and no record is within the bound, the resolver fails with
    VersionNotFoundError.  When the scan meets a version that does not
    parse, or the bound does not parse, before a record qualifies, the
    resolver fails with the parser's InvalidVersion instead. *)
Theorem resolve_upper_bound
        (pkg ver : string) (py : option string)
        (pkg_db : dict (list PackageRecord)) (group : list PackageRecord) :
  dict_get pkg pkg_db = Some group ->
  let cands := candidates py group in
  let result := outcome (get_pkg_spec PV Ver_le pkg (Some ver) py pkg_db) in
  ((cands <> [] -> parses PV ver) ->
   Forall (fun p => parses PV (version p)) cands ->
   result = newest_within_bound PV Ver_le pkg ver cands)
  /\ (forall pre p post,
         List.rev cands = (pre ++ p :: post)%list ->
         Forall (fun q => parses PV (version q)
                          /\ qualifies PV Ver_le ver q = false) pre ->
         (pre <> [] -> parses PV ver) ->
         (PV (version p) = None -> result = inl (InvalidVersion (version p)))
         /\ (parses PV (version p) -> PV ver = None ->
             result = inl (InvalidVersion ver)))
  /\ (forall pre p post,
         List.rev cands = (pre ++ p :: post)%list ->
         Forall (fun q => parses PV (version q)
                          /\ qualifies PV Ver_le ver q = false) pre ->
         qualifies PV Ver_le ver p = true ->
         result = inr p).
Proof.
  intros Hget cands result. unfold result.
  rewrite (get_pkg_spec_outcome pkg (Some ver) py pkg_db group Hget).
  fold cands. split; [| split].
  - intros Hv Hall. unfold newest_within_bound.
    rewrite scan_bound_parsed.
    + now destruct (find (qualifies PV Ver_le ver) (List.rev cands)).
    + intros Hne. apply Hv. intros ->. now apply Hne.
    + apply Forall_rev, Hall.
  - intros pre p post E Hpre Hv. rewrite E.
    destruct (scan_bound_unparsed ver pre p post Hpre Hv) as [H1 H2].
    split.
    + intros Hp. now rewrite (H1 Hp).
    + intros Hp Hb. now rewrite (H2 Hp Hb).
  - intros pre p post E Hpre Hp. rewrite E.
    now rewrite (scan_bound_first ver pre p post Hpre Hp).
Qed.
End ResolverProperties.

(** ** Source entries *)

Lemma dict_get_set_same {V} (k : string) (v : V) (d : dict V) :
  dict_get k (dict_set k v d) = Some v.
Proof.
  induction d as [| [k' v'] d IH]; simpl.
  - now rewrite String.eqb_refl.
  - destruct (String.eqb k k') eqn:E; simpl; now rewrite E.
Qed.

Lemma dict_get_set_other {V} (k k' : string) (v : V) (d : dict V) :
  k <> k' -> dict_get k (dict_set k' v d) = dict_get k d.
Proof.
  intros Hne. induction d as [| [k1 v1] d IH]; simpl.
  - apply String.eqb_neq in Hne. now rewrite Hne.
  - destruct (String.eqb k' k1) eqn:E; simpl.
    + apply String.eqb_eq in E. subst k1.
      apply String.eqb_neq in Hne. now rewrite Hne.
    + now rewrite IH.
Qed.

Lemma item_hash_preferred (u : string) (item : SourceItem) :
  match preferred_kind item with
  | Some kind =>
      exists h, declared_hash item kind = Some h /\ item_hash u item = ([], inr (kind, h))
  | None => item_hash u item = ([], inl (MissingHashError u))
  end.
Proof.
  unfold preferred_kind, item_hash, declared_hash. cbn.
  destruct (i_md5 item) as [h |]; cbn; [now exists h |].
  destruct (i_sha256 item) as [h |]; cbn; [now exists h |].
  destruct (i_sha1 item) as [h |]; cbn; [now exists h | reflexivity].
Qed.

Lemma load_urls_loop_events (items : list SourceItem) (result : dict SourceEntry) :
  events (load_urls_loop items result) = [].
Proof.
  revert result. induction items as [| item items IH]; intros result; [reflexivity |].
  cbn [load_urls_loop]. destruct (i_url item) as [u |]; [| apply IH].
  rewrite events_bind. pose proof (item_hash_preferred u item) as H.
  destruct (preferred_kind item).
  - destruct H as (h & _ & ->). cbn. apply IH.
  - now rewrite H.
Qed.

Lemma load_urls_loop_failure (pre : list SourceItem) (item : SourceItem)
      (post : list SourceItem) (u : string) (result : dict SourceEntry) :
  Forall (fun x => lacks_hash x = false) pre ->
  i_url item = Some u ->
  lacks_hash item = true ->
  load_urls_loop (pre ++ item :: post) result = ([], inl (MissingHashError u)).
Proof.
  intros Hpre Hu Hl. revert result.
  induction Hpre as [| x pre Hx Hpre IH]; intros result.
  - cbn [app load_urls_loop]. rewrite Hu.
    pose proof (item_hash_preferred u item) as H.
    unfold lacks_hash in Hl. rewrite Hu in Hl.
    destruct (preferred_kind item); [discriminate |]. now rewrite H.
  - cbn [app load_urls_loop]. destruct (i_url x) as [ux |] eqn:Ex; [| apply IH].
    pose proof (item_hash_preferred ux x) as H.
    unfold lacks_hash in Hx. rewrite Ex in Hx.
    destruct (preferred_kind x); [| discriminate].
    destruct H as (h & _ & ->). cbn. rewrite (M_eta (load_urls_loop _ _)).
    rewrite IH. reflexivity.
Qed.

Lemma find_app {A} (f : A -> bool) (l1 l2 : list A) :
  find f (l1 ++ l2) = match find f l1 with Some x => Some x | None => find f l2 end.
Proof.
  induction l1 as [| a l1 IH]; simpl; [reflexivity |].
  destruct (f a); [reflexivity | exact IH].
Qed.

(** What a successful run keeps for a URL: the entry of the last item that
    declares it, with the preferred kind of hash. *)
Lemma load_urls_loop_success (items : list SourceItem) (result : dict SourceEntry) :
  Forall (fun x => lacks_hash x = false) items ->
  exists d,
    load_urls_loop items result = ([], inr d) /\
    forall u,
      match find (declares u) (List.rev items) with
      | Some item =>
          exists kind h,
            preferred_kind item = Some kind /\
            declared_hash item kind = Some h /\
            dict_get u d = Some (mkSource kind h (i_fn item))
      | None => dict_get u d = dict_get u result
      end.
Proof.
  intros Hall. revert result.
  induction Hall as [| x items Hx Hall IH]; intros result.
  - exists result. split; [reflexivity |]. intros u. reflexivity.
  - cbn [load_urls_loop List.rev].
    destruct (i_url x) as [ux |] eqn:Ex.
    + pose proof (item_hash_preferred ux x) as H.
      unfold lacks_hash in Hx. rewrite Ex in Hx.
      destruct (preferred_kind x) as [kind |] eqn:Ek; [| discriminate].
      destruct H as (h & Hh & ->). cbn.
      destruct (IH (dict_set ux (mkSource kind h (i_fn x)) result)) as (d & Hd & Hspec).
      exists d. rewrite Hd. split; [reflexivity |].
      intros u. rewrite find_app. specialize (Hspec u).
      destruct (find (declares u) (List.rev items)); [exact Hspec |].
      cbn [find]. unfold declares at 1. rewrite Ex.
      destruct (String.eqb_spec ux u) as [-> | Hne].
      * exists kind, h. rewrite Hspec, dict_get_set_same. now repeat split.
      * rewrite Hspec. apply dict_get_set_other. congruence.
    + destruct (IH result) as (d & Hd & Hspec).
      exists d. split; [exact Hd |].
      intros u. rewrite find_app. specialize (Hspec u).
      destruct (find (declares u) (List.rev items)); [exact Hspec |].
      cbn [find]. unfold declares. now rewrite Ex.
Qed.

Lemma load_urls_loop_skips (items : list SourceItem) (result : dict SourceEntry) :
  load_urls_loop (filter (fun x => is_some (i_url x)) items) result =
  load_urls_loop items result.
Proof.
  revert result. induction items as [| x items IH]; intros result; [reflexivity |].
  cbn [filter]. destruct (i_url x) as [u |] eqn:E; cbn [is_some load_urls_loop].
  - rewrite E. destruct (item_hash u x) as [evs [e | th]]; [reflexivity |].
    cbn. now rewrite IH.
  - rewrite E. apply IH.
Qed.

Lemma load_urls_sources (meta : Meta) :
  load_urls meta = load_urls_loop (sources_of meta) [].
Proof.
  unfold load_urls, sources_of. destruct (source meta) as [[item | items] |]; reflexivity.
Qed.

Lemma first_lacking (items : list SourceItem) :
  existsb lacks_hash items = true ->
  exists pre item post,
    items = (pre ++ item :: post)%list /\
    Forall (fun x => lacks_hash x = false) pre /\ lacks_hash item = true.
Proof.
  induction items as [| x items IH]; [discriminate |].
  cbn [existsb]. destruct (lacks_hash x) eqn:Ex.
  - intros _. exists [], x, items. now repeat split.
  - intros H. destruct (IH H) as (pre & item & post & -> & Hpre & Hit).
    exists (x :: pre), item, post. repeat split; [| exact Hit].
    now constructor.
Qed.


Lemma dict_keys_set {V} (k : string) (v : V) (d : dict V) :
  dict_keys (dict_set k v d) = add_key (dict_keys d) k.
Proof.
  unfold add_key, dict_keys. induction d as [| [k' v'] d IH]; [reflexivity |].
  cbn [dict_set map fst existsb].
  destruct (String.eqb k k') eqn:E; cbn [map fst orb]; [reflexivity |].
  rewrite IH. now destruct (existsb (String.eqb k) (map fst d)).
Qed.

(** The keys of the dictionary that [load_urls] returns are the URLs of
    the sources in the order of their first appearance. *)
Lemma load_urls_loop_keys (items : list SourceItem) (result d : dict SourceEntry) :
  load_urls_loop items result = ([], inr d) ->
  dict_keys d = discover (dict_keys result) items.
Proof.
  revert result. induction items as [| x items IH]; intros result.
  - cbn. now intros [= <-].
  - cbn [load_urls_loop discover fold_left].
    destruct (i_url x) as [u |]; [| apply IH].
    destruct (item_hash u x) as [evs [e | th]] eqn:E.
    + cbn. discriminate.
    + cbn [bind]. intros H.
      rewrite <- dict_keys_set with (v := mkSource (fst th) (snd th) (i_fn x)).
      apply IH. rewrite (M_eta (load_urls_loop _ _)) in *.
      rewrite load_urls_loop_events in *.
      rewrite app_nil_r in H. injection H as _ H.
      now rewrite H.
Qed.

(** ** The pipeline around the sources *)

Section Pipeline.
Variable urlparse_path : string -> string.
Variable abspath : string -> string.
Variable relpath : string -> string -> string.

Lemma unpack_artifact_shape (pkg_spec : PackageRecord) (workdir : string) :
  exists evs extract_dir,
    unpack_artifact urlparse_path abspath pkg_spec workdir =
    (DownloadFile (url pkg_spec)
                  (Path.join workdir (url_basename urlparse_path (url pkg_spec)))
       :: evs, inr extract_dir)
    /\ filter is_download evs = [].
Proof.
  unfold unpack_artifact.
  destruct (Str.contains ".conda"
              (Path.join workdir (url_basename urlparse_path (url pkg_spec))));
    cbn; eexists; eexists; split; reflexivity.
Qed.

(** When [load_urls] fails, [create_feedstock] fails with the same error
    and the only download of its log is that of the artifact. *)
Lemma create_feedstock_load_failure
      (pkg_spec : PackageRecord) (fs : Unpacked)
      (workdir recipes_dir pkgs_dir : string) (e : error) :
  load_urls (meta_doc fs) = ([], inl e) ->
  outcome (create_feedstock urlparse_path abspath relpath pkg_spec fs
                            workdir recipes_dir pkgs_dir) = inl e
  /\ filter is_download
       (events (create_feedstock urlparse_path abspath relpath pkg_spec fs
                                 workdir recipes_dir pkgs_dir))
     = [DownloadFile (url pkg_spec)
          (Path.join workdir (url_basename urlparse_path (url pkg_spec)))].
Proof.
  intros Hl. unfold create_feedstock.
  destruct (unpack_artifact_shape pkg_spec workdir) as (evs & dir & -> & Hevs).
  unfold rewrite_sources. rewrite Hl.
  destruct (exists_new_recipe fs), (exists_parent fs), (exists_conda_build_cfg fs);
    cbn; rewrite filter_app, Hevs; cbn; split; reflexivity.
Qed.


(** C4.  Of the mappings of [source], those without a URL count for
    nothing.  When each mapping with a URL declares a hash, [load_urls]
    keeps for every URL one kind of hash and its value, md5 before sha256
    before sha1.  When some mapping with a URL declares none of the three,
    [load_urls] fails with MissingHashError, and the rewriting of the
    sources that starts with it fails likewise with an empty log: nothing
    was downloaded and nothing written.  [create_feedstock] then fails
    with that error, the artifact being the only file it has fetched. *)
Theorem load_urls_hash_precedence (meta : Meta) :
  load_urls meta =
    load_urls_loop (filter (fun x => is_some (i_url x)) (sources_of meta)) []
  /\ (existsb lacks_hash (sources_of meta) = false ->
      exists d,
        load_urls meta = ([], inr d) /\
        forall u item,
          find (declares u) (List.rev (sources_of meta)) = Some item ->
          exists kind h,
            preferred_kind item = Some kind /\
            declared_hash item kind = Some h /\
            dict_get u d = Some (mkSource kind h (i_fn item)))
  /\ (existsb lacks_hash (sources_of meta) = true ->
      exists u,
        load_urls meta = ([], inl (MissingHashError u)) /\
        (forall pkg pkgs_dir meta_yaml_tpl tpl_text,
            rewrite_sources urlparse_path relpath pkg pkgs_dir meta_yaml_tpl
                            meta tpl_text
            = ([], inl (MissingHashError u))) /\
        (forall pkg_spec fs workdir recipes_dir pkgs_dir,
            meta_doc fs = meta ->
            let run := create_feedstock urlparse_path abspath relpath pkg_spec fs
                                        workdir recipes_dir pkgs_dir in
            outcome run = inl (MissingHashError u) /\
            filter is_download (events run) =
            [DownloadFile (url pkg_spec)
               (Path.join workdir (url_basename urlparse_path (url pkg_spec)))])).
Proof.
  rewrite load_urls_sources. split; [| split].
  - symmetry. apply load_urls_loop_skips.
  - intros H.
    assert (Hall : Forall (fun x => lacks_hash x = false) (sources_of meta)).
    { apply Forall_forall. intros x Hx.
      destruct (lacks_hash x) eqn:E; [| reflexivity].
      assert (existsb lacks_hash (sources_of meta) = true)
        by (apply existsb_exists; now exists x).
      congruence. }
    destruct (load_urls_loop_success (sources_of meta) [] Hall) as (d & Hd & Hspec).
    exists d. split; [exact Hd |].
    intros u item Hf. specialize (Hspec u). now rewrite Hf in Hspec.
  - intros H. destruct (first_lacking _ H) as (pre & item & post & E & Hpre & Hit).
    assert (Hu : exists u, i_url item = Some u).
    { unfold lacks_hash in Hit. destruct (i_url item) as [u |]; [now exists u | discriminate]. }
    destruct Hu as [u Hu]. exists u.
    assert (Hl : load_urls_loop (sources_of meta) [] = ([], inl (MissingHashError u))).
    { rewrite E. now apply load_urls_loop_failure. }
    split; [exact Hl | split].
    + intros. unfold rewrite_sources. now rewrite load_urls_sources, Hl.
    + intros pkg_spec fs workdir recipes_dir pkgs_dir Hm run.
      apply create_feedstock_load_failure.
      now rewrite Hm, load_urls_sources.
Qed.
End Pipeline.

(** ** Orders *)

Lemma ascii_compare_trans (a b c : ascii) :
  Ascii.compare a b = Lt -> Ascii.compare b c = Lt -> Ascii.compare a c = Lt.
Proof.
  unfold Ascii.compare. rewrite !N.compare_lt_iff. apply N.lt_trans.
Qed.

Lemma ascii_compare_refl (a : ascii) : Ascii.compare a a = Eq.
Proof. unfold Ascii.compare. apply N.compare_refl. Qed.

#[export] Instance string_CmpOrder : CmpOrder String.compare.
Proof.
  split.
  - apply String.compare_eq_iff.
  - induction a as [| x a IH]; simpl; [reflexivity |].
    now rewrite ascii_compare_refl.
  - apply String.compare_antisym.
  - induction a as [| x a IH]; intros [| y b] [| z c]; simpl;
      try discriminate; try reflexivity.
    destruct (Ascii.compare x y) eqn:Exy; try discriminate.
    + apply Ascii.compare_eq_iff in Exy. subst y.
      destruct (Ascii.compare x z); try discriminate; [apply IH | reflexivity].
    + intros _. destruct (Ascii.compare y z) eqn:Eyz; try discriminate.
      * apply Ascii.compare_eq_iff in Eyz. subst z. now rewrite Exy.
      * now rewrite (ascii_compare_trans x y z Exy Eyz).
Qed.

#[export] Instance Z_CmpOrder : CmpOrder Z.compare.
Proof.
  split.
  - apply Z.compare_eq.
  - apply Z.compare_refl.
  - intros a b. apply Z.compare_antisym.
  - intros a b c. rewrite !Z.compare_lt_iff. apply Z.lt_trans.
Qed.

#[export] Instance lex_CmpOrder {A B : Type}
  (ca : A -> A -> comparison) (cb : B -> B -> comparison)
  `{CmpOrder A ca} `{CmpOrder B cb} : CmpOrder (lex_cmp ca cb).
Proof.
  split; unfold lex_cmp.
  - intros [a1 b1] [a2 b2]; simpl. destruct (ca a1 a2) eqn:E; try discriminate.
    intros Hb. apply cmp_eq in E, Hb. congruence.
  - intros [a b]; simpl. now rewrite !cmp_refl.
  - intros [a1 b1] [a2 b2]; simpl. rewrite (cmp_antisym a1 a2).
    destruct (ca a2 a1); simpl; [apply cmp_antisym | reflexivity | reflexivity].
  - intros [a1 b1] [a2 b2] [a3 b3]; simpl.
    destruct (ca a1 a2) eqn:E12; try discriminate.
    + apply cmp_eq in E12. subst a2.
      destruct (ca a1 a3); try discriminate; [apply cmp_trans | reflexivity].
    + intros _. destruct (ca a2 a3) eqn:E23; try discriminate.
      * apply cmp_eq in E23. subst a3. now rewrite E12.
      * now rewrite (cmp_trans a1 a2 a3 E12 E23).
Qed.

Lemma string_eqb_compare (a b : string) :
  String.eqb a b = match String.compare a b with Eq => true | _ => false end.
Proof.
  destruct (String.eqb_spec a b) as [-> | Hne].
  - now rewrite cmp_refl.
  - destruct (String.compare a b) eqn:E; try reflexivity.
    now apply cmp_eq in E.
Qed.

Lemma tuple_lt_cmp (a b : string * Z * string) :
  tuple_lt a b = match tuple_cmp a b with Lt => true | _ => false end.
Proof.
  destruct a as [[v1 t1] b1], b as [[v2 t2] b2].
  unfold tuple_lt, tuple_cmp, lex_cmp; simpl.
  rewrite string_eqb_compare. unfold String.ltb.
  destruct (String.compare v1 v2); simpl; try reflexivity.
  rewrite Z.eqb_compare. unfold Z.ltb.
  destruct (Z.compare t1 t2); reflexivity.
Qed.

Section CmpOrderFacts.
Context {T : Type} (cmp : T -> T -> comparison) `{CmpOrder T cmp}.

Lemma cmp_le_total (a b : T) : cmp_le cmp a b = true \/ cmp_le cmp b a = true.
Proof.
  unfold cmp_le. rewrite (cmp_antisym b a).
  destruct (cmp a b); simpl; auto.
Qed.

Lemma cmp_le_trans (a b c : T) :
  cmp_le cmp a b = true -> cmp_le cmp b c = true -> cmp_le cmp a c = true.
Proof.
  unfold cmp_le.
  destruct (cmp a b) eqn:Eab; try discriminate; intros _.
  - apply cmp_eq in Eab. now subst b.
  - destruct (cmp b c) eqn:Ebc; try discriminate; intros _.
    + apply cmp_eq in Ebc. subst c. now rewrite Eab.
    + now rewrite (cmp_trans a b c Eab Ebc).
Qed.
End CmpOrderFacts.

Lemma tuple_le_cmp (a b : string * Z * string) :
  tuple_le a b = cmp_le tuple_cmp a b.
Proof.
  unfold tuple_le, cmp_le. rewrite tuple_lt_cmp.
  rewrite (cmp_antisym (cmp := tuple_cmp) a b).
  destruct (tuple_cmp b a); reflexivity.
Qed.

Lemma tuple_le_total (a b : string * Z * string) :
  tuple_le a b = true \/ tuple_le b a = true.
Proof. rewrite !tuple_le_cmp. apply (cmp_le_total tuple_cmp). Qed.

Lemma tuple_le_trans (a b c : string * Z * string) :
  tuple_le a b = true -> tuple_le b c = true -> tuple_le a c = true.
Proof. rewrite !tuple_le_cmp. apply (cmp_le_trans tuple_cmp). Qed.

(** ** Sorting *)

Lemma filter_false {T : Type} (l : list T) : filter (fun _ => false) l = [].
Proof. induction l; auto. Qed.

Section SortedProperties.
Variables (A K : Type).
Variable lt : K -> K -> bool.

Let le (a b : K) : bool := negb (lt b a).

Hypothesis le_total : forall a b, le a b = true \/ le b a = true.
Hypothesis le_trans : forall a b c, le a b = true -> le b c = true -> le a c = true.

Let dle (x y : K * A) : Prop := le (fst x) (fst y) = true.

Lemma insert_perm (x : K * A) (l : list (K * A)) :
  Permutation (x :: l) (insert lt x l).
Proof.
  induction l as [| y l IH]; simpl; [apply Permutation_refl |].
  destruct (lt (fst y) (fst x)); [| apply Permutation_refl].
  eapply Permutation_trans; [apply perm_swap |]. now apply perm_skip.
Qed.

Lemma isort_perm (l : list (K * A)) : Permutation l (isort lt l).
Proof.
  induction l as [| x l IH]; simpl; [constructor |].
  eapply Permutation_trans; [apply perm_skip, IH | apply insert_perm].
Qed.

Lemma insert_sorted (x : K * A) (l : list (K * A)) :
  StronglySorted dle l -> StronglySorted dle (insert lt x l).
Proof.
  induction 1 as [| y l Hs IH Hy]; simpl.
  - constructor; constructor.
  - destruct (lt (fst y) (fst x)) eqn:E.
    + constructor; [exact IH |].
      apply (Permutation_Forall (insert_perm x l)).
      constructor; [| exact Hy].
      unfold dle. destruct (le_total (fst y) (fst x)) as [H | H]; [exact H |].
      unfold le in H. rewrite E in H. discriminate.
    + assert (Hxy : dle x y) by (unfold dle, le; now rewrite E).
      constructor; [now constructor |].
      constructor; [exact Hxy |].
      eapply Forall_impl; [| exact Hy].
      intros z Hz. unfold dle in *. eapply le_trans; eassumption.
Qed.

Lemma isort_sorted (l : list (K * A)) : StronglySorted dle (isort lt l).
Proof.
  induction l as [| x l IH]; simpl; [constructor | now apply insert_sorted].
Qed.

Lemma insert_stable (k : K) (x : K * A) (l : list (K * A)) :
  filter (fun y => le k (fst y) && le (fst y) k) (insert lt x l) =
  filter (fun y => le k (fst y) && le (fst y) k) (x :: l).
Proof.
  induction l as [| y l IH]; [reflexivity |].
  cbn [insert]. destruct (lt (fst y) (fst x)) eqn:E; [| reflexivity].
  cbn [filter] in *. rewrite IH.
  destruct (le k (fst y) && le (fst y) k) eqn:Ey; [| reflexivity].
  destruct (le k (fst x) && le (fst x) k) eqn:Ex; [| reflexivity].
  exfalso. apply andb_true_iff in Ey as [Hky _], Ex as [_ Hxk].
  pose proof (le_trans _ _ _ Hxk Hky) as H.
  unfold le in H. rewrite E in H. discriminate.
Qed.

Lemma isort_stable (k : K) (l : list (K * A)) :
  filter (fun y => le k (fst y) && le (fst y) k) (isort lt l) =
  filter (fun y => le k (fst y) && le (fst y) k) l.
Proof.
  induction l as [| x l IH]; [reflexivity |].
  cbn [isort]. rewrite insert_stable. cbn [filter]. now rewrite IH.
Qed.

Variable key : A -> option K.

Let kle (x y : A) : bool :=
  match key x, key y with
  | Some a, Some b => le a b
  | _, _ => false
  end.

Lemma decorate_keys (l : list A) (d : list (K * A)) :
  decorate key l = Some d ->
  map snd d = l /\ Forall (fun kx => key (snd kx) = Some (fst kx)) d.
Proof.
  revert d. induction l as [| x l IH]; intros d; cbn [decorate].
  - intros [= <-]. split; constructor.
  - destruct (key x) as [k |] eqn:Ek; [| discriminate].
    destruct (decorate key l) as [d' |]; [| discriminate].
    intros [= <-]. destruct (IH d' eq_refl) as [Hm Hk].
    split; [simpl; now rewrite Hm | now constructor].
Qed.

Lemma decorate_defined (l : list A) :
  Forall (fun x => key x <> None) l <-> exists d, decorate key l = Some d.
Proof.
  induction l as [| x l IH]; cbn [decorate].
  - split; [now exists [] | constructor].
  - split.
    + intros H. inversion H as [| ? ? Hx Hl]; subst.
      destruct (key x) as [k |]; [| congruence].
      apply IH in Hl as [d ->]. now eexists.
    + intros [d H]. destruct (key x) as [k |] eqn:Ek; [| discriminate].
      destruct (decorate key l) as [d' |] eqn:Ed; [| discriminate].
      constructor; [congruence | apply IH; now exists d'].
Qed.

Lemma sorted_defined (l : list A) :
  Forall (fun x => key x <> None) l <-> exists l', sorted lt key l = Some l'.
Proof.
  rewrite decorate_defined. unfold sorted.
  destruct (decorate key l) as [d |]; split; intros [x Hx];
    try discriminate; eauto.
Qed.

Lemma sorted_perm (l l' : list A) :
  sorted lt key l = Some l' -> Permutation l l'.
Proof.
  unfold sorted. destruct (decorate key l) as [d |] eqn:Ed; [| discriminate].
  intros [= <-]. destruct (decorate_keys l d Ed) as [<- _].
  apply Permutation_map, isort_perm.
Qed.

Lemma sorted_sorted (l l' : list A) :
  sorted lt key l = Some l' -> StronglySorted (fun x y => kle x y = true) l'.
Proof.
  unfold sorted. destruct (decorate key l) as [d |] eqn:Ed; [| discriminate].
  intros [= <-]. destruct (decorate_keys l d Ed) as [_ Hk].
  assert (Hk' : Forall (fun kx => key (snd kx) = Some (fst kx)) (isort lt d))
    by (apply (Permutation_Forall (isort_perm d)), Hk).
  pose proof (isort_sorted d) as Hs.
  induction Hs as [| y s Hs IH Hy]; simpl; constructor.
  - apply IH. now inversion Hk'.
  - inversion Hk' as [| ? ? Hky Hks]; subst.
    rewrite Forall_forall in *. intros z Hz.
    apply in_map_iff in Hz as (kz & <- & Hz).
    unfold kle. rewrite Hky, (Hks kz Hz). apply (Hy kz Hz).
Qed.

Lemma filter_map_snd (P : A -> bool) (d : list (K * A)) :
  filter P (map snd d) = map snd (filter (fun kx => P (snd kx)) d).
Proof.
  induction d as [| kx d IH]; simpl; [reflexivity |].
  destruct (P (snd kx)); simpl; now rewrite IH.
Qed.

Lemma sorted_stable (l l' : list A) (x : A) :
  sorted lt key l = Some l' ->
  filter (fun y => kle x y && kle y x) l' = filter (fun y => kle x y && kle y x) l.
Proof.
  unfold sorted. destruct (decorate key l) as [d |] eqn:Ed; [| discriminate].
  intros [= <-]. destruct (decorate_keys l d Ed) as [Hm Hk].
  rewrite <- Hm. rewrite !filter_map_snd. f_equal.
  assert (Hk' : Forall (fun kx => key (snd kx) = Some (fst kx)) (isort lt d))
    by (apply (Permutation_Forall (isort_perm d)), Hk).
  rewrite Forall_forall in Hk, Hk'.
  destruct (key x) as [k |] eqn:Ex.
  - rewrite (filter_ext_in _ (fun y => le k (fst y) && le (fst y) k) (isort lt d)).
    + rewrite (filter_ext_in _ (fun y => le k (fst y) && le (fst y) k) d).
      * apply isort_stable.
      * intros kx Hin. unfold kle. now rewrite Ex, (Hk kx Hin).
    + intros kx Hin. unfold kle. now rewrite Ex, (Hk' kx Hin).
  - rewrite (filter_ext_in _ (fun _ => false) (isort lt d)).
    + rewrite (filter_ext_in _ (fun _ => false) d).
      * now rewrite !filter_false.
      * intros kx _. unfold kle. now rewrite Ex.
    + intros kx _. unfold kle. now rewrite Ex.
Qed.
End SortedProperties.

(** ** The database build *)

Lemma dict_get_map {V W} (f : V -> W) (k : string) (d : dict V) :
  dict_get k (map (fun kv => (fst kv, f (snd kv))) d) =
  match dict_get k d with Some v => Some (f v) | None => None end.
Proof.
  induction d as [| [k' v] d IH]; simpl; [reflexivity |].
  destruct (String.eqb k k'); [reflexivity | exact IH].
Qed.

Lemma dict_get_db_append (db : dict (list PackageRecord)) (k n : string)
      (r : PackageRecord) :
  dict_get k (db_append db n r) =
  if String.eqb k n then Some (group_of db n ++ [r])%list else dict_get k db.
Proof.
  unfold db_append, group_of.
  destruct (String.eqb_spec k n) as [-> | Hne].
  - destruct (dict_get n db); now rewrite dict_get_set_same.
  - destruct (dict_get n db); now rewrite dict_get_set_other.
Qed.

Lemma group_of_db_append (db : dict (list PackageRecord)) (k n : string)
      (r : PackageRecord) :
  group_of (db_append db n r) k =
  if String.eqb k n then (group_of db n ++ [r])%list else group_of db k.
Proof.
  unfold group_of at 1. rewrite dict_get_db_append.
  now destruct (String.eqb k n).
Qed.

Lemma group_records_get (forge_url k : string) (data : list (string * RepoEntry))
      (db : dict (list PackageRecord)) :
  dict_get k (fold_left (fun db e => db_append db (e_name (snd e))
                                       (make_record forge_url (fst e) (snd e)))
                        data db) =
  match records_named forge_url k data with
  | [] => dict_get k db
  | l => Some (group_of db k ++ l)%list
  end.
Proof.
  revert db. induction data as [| e data IH]; intros db; [reflexivity |].
  cbn [fold_left]. rewrite IH. unfold records_named. cbn [filter].
  rewrite group_of_db_append, dict_get_db_append.
  rewrite (String.eqb_sym k).
  destruct (String.eqb (e_name (snd e)) k) eqn:E.
  - apply String.eqb_eq in E. rewrite E. cbn [map].
    destruct (map _ (filter _ data)) as [| r l]; [reflexivity |].
    now rewrite <- app_assoc.
  - reflexivity.
Qed.

Lemma StronglySorted_impl {T : Type} (R1 R2 : T -> T -> Prop) (l : list T) :
  (forall x y, R1 x y -> R2 x y) -> StronglySorted R1 l -> StronglySorted R2 l.
Proof.
  intros Himp. induction 1 as [| a l Hs IH Ha]; constructor; [exact IH |].
  eapply Forall_impl; [| exact Ha]. intros y. apply Himp.
Qed.

Lemma stable_wrt_ext (le1 le2 : PackageRecord -> PackageRecord -> bool)
      (l l' : list PackageRecord) :
  (forall x y, le1 x y = le2 x y) -> stable_wrt le1 l l' -> stable_wrt le2 l l'.
Proof.
  intros E H x. specialize (H x).
  rewrite (filter_ext (fun y => le2 x y && le2 y x) (fun y => le1 x y && le1 y x) )
    by (intros; now rewrite !E).
  rewrite (filter_ext (fun y => le2 x y && le2 y x) (fun y => le1 x y && le1 y x) )
    by (intros; now rewrite !E).
  exact H.
Qed.

Section DatabaseProperties.
Variable Ver : Type.
Variable PV : string -> option Ver.
Variable Ver_lt Ver_le : Ver -> Ver -> bool.

Hypothesis Ver_lt_le : forall a b, Ver_lt a b = negb (Ver_le b a).
Hypothesis Ver_le_total : forall a b, Ver_le a b = true \/ Ver_le b a = true.
Hypothesis Ver_le_trans :
  forall a b c, Ver_le a b = true -> Ver_le b c = true -> Ver_le a c = true.

Lemma parse_repodata_get (data : list (string * RepoEntry)) (forge_url k : string) :
  dict_get k (parse_repodata PV Ver_lt data forge_url) =
  match records_named forge_url k data with
  | [] => None
  | l => Some (sort_group PV Ver_lt l)
  end.
Proof.
  unfold parse_repodata. rewrite dict_get_map. unfold group_records.
  rewrite group_records_get.
  now destruct (records_named forge_url k data).
Qed.

Lemma negb_Ver_lt (a b : Ver) : negb (Ver_lt b a) = Ver_le a b.
Proof. rewrite Ver_lt_le. apply negb_involutive. Qed.

Lemma version_sorted (l l' : list PackageRecord) :
  sorted Ver_lt (fun x => PV (version x)) l = Some l' ->
  Permutation l l'
  /\ StronglySorted (fun x y => version_le PV Ver_le x y = true) l'
  /\ stable_wrt (version_le PV Ver_le) l l'.
Proof.
  intros H.
  assert (Htot : forall a b, negb (Ver_lt b a) = true \/ negb (Ver_lt a b) = true)
    by (intros; rewrite !negb_Ver_lt; apply Ver_le_total).
  assert (Htr : forall a b c, negb (Ver_lt b a) = true -> negb (Ver_lt c b) = true ->
                              negb (Ver_lt c a) = true)
    by (intros a b c; rewrite !negb_Ver_lt; apply Ver_le_trans).
  assert (Hle : forall x y,
             match PV (version x), PV (version y) with
             | Some a, Some b => negb (Ver_lt b a)
             | _, _ => false
             end = version_le PV Ver_le x y).
  { intros x y. unfold version_le.
    destruct (PV (version x)), (PV (version y)); try reflexivity. apply negb_Ver_lt. }
  split; [| split].
  - eapply sorted_perm; eassumption.
  - eapply StronglySorted_impl; [| exact (sorted_sorted _ _ _ Htot Htr _ _ _ H)].
    intros x y. cbv beta. now rewrite Hle.
  - eapply stable_wrt_ext; [exact Hle |].
    intros x. exact (sorted_stable _ _ _ Htr _ _ _ x H).
Qed.

Lemma fallback_sorted (l : list PackageRecord) :
  exists l',
    sorted tuple_lt (fun x => Some (tuple_key x)) l = Some l'
    /\ Permutation l l'
    /\ StronglySorted (fun x y => fallback_le x y = true) l'
    /\ stable_wrt fallback_le l l'.
Proof.
  assert (Hd : exists l', sorted tuple_lt (fun x => Some (tuple_key x)) l = Some l').
  { apply sorted_defined. apply Forall_forall. intros; discriminate. }
  destruct Hd as [l' H]. exists l'. split; [exact H |].
  assert (Htot : forall a b, negb (tuple_lt b a) = true \/ negb (tuple_lt a b) = true)
    by (intros; apply tuple_le_total).
  assert (Htr : forall a b c, negb (tuple_lt b a) = true -> negb (tuple_lt c b) = true ->
                              negb (tuple_lt c a) = true)
    by (intros a b c; apply tuple_le_trans).
  split; [| split].
  - eapply sorted_perm; eassumption.
  - exact (sorted_sorted _ _ _ Htot Htr _ _ _ H).
  - intros x. exact (sorted_stable _ _ _ Htr _ _ _ x H).
Qed.

(** The fallback order of the code is the order of the triples. *)
Lemma fallback_le_triple (x y : PackageRecord) : fallback_le x y = triple_le x y.
Proof.
  unfold fallback_le, triple_le. rewrite tuple_le_cmp.
  unfold cmp_le, tuple_cmp, lex_cmp, tuple_key. cbn [fst snd].
  destruct (String.compare (version x) (version y)); try reflexivity.
  destruct (Z.compare (timestamp x) (timestamp y)); reflexivity.
Qed.

(** C2.  Every group of the database is one of the groups of the listing,
    not empty, with the same records.  When all its versions parse it is in
    ascending order of the parsed versions.  When one of them does not
    parse, the whole group is in ascending order of the triple (version
    text, timestamp, build): the version texts decide when they differ,
    then the timestamps, then the builds.  Any two records compare in that
    order.  In both cases records that the order does not tell apart keep
    the order of the listing. *)
Theorem database_groups_sorted
        (data : list (string * RepoEntry)) (forge_url k : string)
        (g : list PackageRecord) :
  dict_get k (parse_repodata PV Ver_lt data forge_url) = Some g ->
  let raw := records_named forge_url k data in
  raw <> []
  /\ Permutation raw g
  /\ (Forall (fun x => parses PV (version x)) raw ->
      StronglySorted (fun x y => version_le PV Ver_le x y = true) g
      /\ stable_wrt (version_le PV Ver_le) raw g)
  /\ (~ Forall (fun x => parses PV (version x)) raw ->
      StronglySorted (fun x y => triple_le x y = true) g
      /\ stable_wrt triple_le raw g)
  /\ (forall x y, triple_le x y = true \/ triple_le y x = true).
Proof.
  intros Hget raw. rewrite parse_repodata_get in Hget. fold raw in Hget.
  assert (Hg : raw <> [] /\ g = sort_group PV Ver_lt raw).
  { destruct raw; [discriminate |]. split; [discriminate | congruence]. }
  destruct Hg as [Hne ->]. clear Hget.
  unfold sort_group.
  pose proof (sorted_defined _ _ Ver_lt (fun x => PV (version x)) raw) as Hdef.
  destruct (fallback_sorted raw) as (lf & Ef & Hpf & Hsf & Hstf).
  assert (Hsf' : StronglySorted (fun x y => triple_le x y = true) lf).
  { clear - Hsf. induction Hsf as [| x l Hl IH Hx]; constructor; [exact IH |].
    eapply Forall_impl; [| exact Hx]. intros y Hy. now rewrite <- fallback_le_triple. }
  assert (Hstf' : stable_wrt triple_le raw lf)
    by (exact (stable_wrt_ext fallback_le triple_le raw lf fallback_le_triple Hstf)).
  assert (Htot : forall x y, triple_le x y = true \/ triple_le y x = true).
  { intros x y. rewrite <- !fallback_le_triple. apply tuple_le_total. }
  destruct (sorted Ver_lt (fun x => PV (version x)) raw) as [l' |] eqn:E.
  - destruct (version_sorted raw l' E) as (Hp & Hs & Hst).
    split; [exact Hne | split; [exact Hp | split; [| split]]].
    + intros _. now split.
    + intros Hn. exfalso. apply Hn. apply Hdef. now exists l'.
    + exact Htot.
  - rewrite Ef.
    split; [exact Hne | split; [exact Hpf | split; [| split]]].
    + intros Hall. apply Hdef in Hall as [l' Hl']. discriminate.
    + intros _. now split.
    + exact Htot.
Qed.
End DatabaseProperties.

(** ** The matcher *)

Lemma length_append (a b : string) :
  String.length (a ++ b) = (String.length a + String.length b)%nat.
Proof. induction a; simpl; congruence. Qed.

Lemma take_app (w r : string) : Str.take (String.length w) (w ++ r) = w.
Proof. induction w; simpl; [now destruct r | congruence]. Qed.

Lemma reads_refl (st : mstate) : reads st "" st.
Proof. unfold reads. simpl. now rewrite Nat.add_0_r. Qed.

Lemma reads_trans (st1 st2 st3 : mstate) (w1 w2 : string) :
  reads st1 w1 st2 -> reads st2 w2 st3 -> reads st1 (w1 ++ w2) st3.
Proof.
  unfold reads. intros (R1 & P1 & C1) (R2 & P2 & C2).
  rewrite R1, R2, P2, P1, C2, C1, append_assoc, length_append.
  repeat split. lia.
Qed.

Lemma in_matches_seq (a b : regex) (fuel : nat) (st st' : mstate) :
  In st' (matches (Seq a b) fuel st) <->
  exists mid, In mid (matches a fuel st) /\ In st' (matches b fuel mid).
Proof. cbn [matches]. apply in_flat_map. Qed.

Lemma in_matches_class (p : ascii -> bool) (fuel : nat) (st st' : mstate) :
  In st' (matches (Class p) fuel st) ->
  exists c, p c = true /\ reads st (String c "") st'.
Proof.
  cbn [matches]. destruct (rest st) as [| c r] eqn:E; [contradiction |].
  destruct (p c) eqn:Ep; [| contradiction].
  intros [<- | []]. exists c. split; [exact Ep |].
  unfold reads. cbn. rewrite E. repeat split. lia.
Qed.

Lemma in_matches_lit (s : string) (fuel : nat) (st st' : mstate) :
  In st' (matches (Lit s) fuel st) -> reads st s st'.
Proof.
  revert st. induction s as [| c s IH]; intros st.
  - cbn. intros [<- | []]. apply reads_refl.
  - cbn [Lit]. rewrite in_matches_seq. intros (mid & H1 & H2).
    apply in_matches_class in H1 as (c' & Hc & H1).
    apply Ascii.eqb_eq in Hc. subst c'.
    apply (reads_trans _ _ _ (String c "") s H1), IH, H2.
Qed.

Lemma in_star_iter_class (p : ascii -> bool) (fuel n : nat) (st st' : mstate) :
  In st' (star_iter (matches (Class p) fuel) n st) ->
  exists w, all_chars p w = true /\ reads st w st'.
Proof.
  revert st. induction n as [| n IH]; intros st; cbn [star_iter].
  - intros [<- | []]. exists "". split; [reflexivity | apply reads_refl].
  - rewrite in_app_iff, in_flat_map. intros [(mid & H1 & H2) | [<- | []]].
    + destruct (pos st <? pos mid)%nat; [| contradiction].
      apply in_matches_class in H1 as (c & Hc & H1).
      apply IH in H2 as (w & Hw & H2).
      exists (String c w). split; [cbn; now rewrite Hc |].
      apply (reads_trans _ _ _ (String c "") w H1 H2).
    + exists "". split; [reflexivity | apply reads_refl].
Qed.

Lemma in_matches_star_class (p : ascii -> bool) (fuel : nat) (st st' : mstate) :
  In st' (matches (Star (Class p)) fuel st) ->
  exists w, all_chars p w = true /\ reads st w st'.
Proof. apply in_star_iter_class. Qed.

Lemma in_matches_plus_class (p : ascii -> bool) (fuel : nat) (st st' : mstate) :
  In st' (matches (Plus (Class p)) fuel st) ->
  exists w, w <> "" /\ all_chars p w = true /\ reads st w st'.
Proof.
  unfold Plus. rewrite in_matches_seq. intros (mid & H1 & H2).
  apply in_matches_class in H1 as (c & Hc & H1).
  apply in_matches_star_class in H2 as (w & Hw & H2).
  exists (String c w). split; [discriminate | split; [cbn; now rewrite Hc |]].
  apply (reads_trans _ _ _ (String c "") w H1 H2).
Qed.

Lemma in_matches_opt_chr (c : ascii) (fuel : nat) (st st' : mstate) :
  In st' (matches (Opt (Chr c)) fuel st) ->
  exists d, (d = "" \/ d = String c "") /\ reads st d st'.
Proof.
  cbn [matches]. rewrite in_app_iff. intros [H | [<- | []]].
  - apply (in_matches_class _ fuel) in H as (c' & Hc & H).
    apply Ascii.eqb_eq in Hc. subst c'. exists (String c ""). auto.
  - exists "". split; [now left | apply reads_refl].
Qed.

Lemma in_matches_bol (fuel : nat) (st st' : mstate) :
  In st' (matches Bol fuel st) -> st' = st /\ pos st = 0%nat.
Proof.
  cbn [matches]. destruct (Nat.eqb_spec (pos st) 0); [| contradiction].
  intros [<- | []]. auto.
Qed.

Lemma in_matches_eol (fuel : nat) (st st' : mstate) :
  In st' (matches Eol fuel st) ->
  st' = st /\ (rest st = "" \/ rest st = String Str.nl "").
Proof.
  cbn [matches]. destruct (rest st) as [| c [| d r]]; try contradiction.
  - intros [<- | []]. auto.
  - destruct (Ascii.eqb_spec c Str.nl) as [-> |]; [| contradiction].
    intros [<- | []]. auto.
Qed.

Lemma in_matches_group (n : nat) (a : regex) (fuel : nat) (st st' : mstate) :
  In st' (matches (Group n a) fuel st) ->
  exists st1, In st1 (matches a fuel st)
              /\ pos st' = pos st1 /\ rest st' = rest st1
              /\ caps st' = (n, Str.take (pos st1 - pos st) (rest st)) :: caps st1.
Proof.
  cbn [matches]. rewrite in_map_iff. intros (st1 & <- & H).
  exists st1. now repeat split.
Qed.

(** A group around a pattern that reads [w] and leaves the groups alone
    records [w]. *)
Lemma group_reads (n : nat) (st st1 st' : mstate) (w : string) :
  reads st w st1 ->
  pos st' = pos st1 -> rest st' = rest st1 ->
  caps st' = (n, Str.take (pos st1 - pos st) (rest st)) :: caps st1 ->
  rest st = w ++ rest st'
  /\ pos st' = (pos st + String.length w)%nat
  /\ caps st' = (n, w) :: caps st.
Proof.
  intros (R & P & C) Hp Hr Hc. rewrite Hp, Hr, Hc, C, P, R.
  replace (pos st + String.length w - pos st)%nat with (String.length w) by lia.
  now rewrite take_app.
Qed.

Lemma matches_lit_complete (s r : string) (fuel n : nat) (c : list (nat * string)) :
  matches (Lit s) fuel (mkState n (s ++ r) c) =
  [mkState (n + String.length s) r c].
Proof.
  revert n. induction s as [| x s IH]; intros n.
  - cbn. now rewrite Nat.add_0_r.
  - cbn [Lit matches append rest pos caps Chr]. rewrite Ascii.eqb_refl.
    cbn [flat_map]. rewrite IH, app_nil_r. cbn [String.length].
    now rewrite Nat.add_succ_r.
Qed.

Lemma star_class_complete (p : ascii -> bool) (w r : string) (fuel k n : nat)
      (c : list (nat * string)) :
  all_chars p w = true ->
  String.length w <= k ->
  In (mkState (n + String.length w) r c)
     (star_iter (matches (Class p) fuel) k (mkState n (w ++ r) c)).
Proof.
  revert k n. induction w as [| x w IH]; intros k n Hw Hk.
  - cbn [String.length append]. rewrite Nat.add_0_r.
    destruct k; cbn [star_iter]; [now left |].
    apply in_or_app. right. now left.
  - cbn [all_chars] in Hw. apply andb_true_iff in Hw as [Hx Hw].
    destruct k as [| k]; [cbn in Hk; lia |].
    cbn [star_iter]. apply in_or_app. left.
    cbn [matches append rest pos caps]. rewrite Hx. cbn [flat_map pos].
    rewrite (proj2 (Nat.ltb_lt n (S n))) by lia.
    rewrite app_nil_r. cbn [String.length].
    replace (n + S (String.length w)) with (S n + String.length w) by lia.
    apply IH; [exact Hw | cbn in Hk; lia].
Qed.


(** ** Candidate lines *)

Lemma re_match_in (r : regex) (s : string) (m : match_obj) :
  re_match r s = Some m ->
  exists st, In st (matches r (String.length s) (mkState 0 s []))
             /\ whole m = Str.take (pos st) s /\ groups m = caps st.
Proof.
  unfold re_match.
  destruct (matches r (String.length s) (mkState 0 s [])) as [| st l]; [discriminate |].
  intros [= <-]. exists st. split; [now left | now split].
Qed.

Lemma url_regex_prefix (fuel : nat) (st st' : mstate) :
  In st' (matches (Seq Bol
                  (Seq (Star (Class Str.is_space))
                  (Seq (Opt (Chr "-"))
                  (Seq (Star (Class Str.is_space))
                  (Seq (Lit "url:")
                       (Star (Class Str.is_space))))))) fuel st) ->
  exists w1 d w2 w3,
    reads st (w1 ++ d ++ w2 ++ "url:" ++ w3) st'
    /\ all_chars Str.is_space w1 = true
    /\ (d = "" \/ d = "-")
    /\ all_chars Str.is_space w2 = true
    /\ all_chars Str.is_space w3 = true.
Proof.
  rewrite in_matches_seq. intros (t0 & H0 & H).
  apply in_matches_bol in H0 as [-> _].
  rewrite in_matches_seq in H. destruct H as (t1 & H1 & H).
  apply in_matches_star_class in H1 as (w1 & Hw1 & R1).
  rewrite in_matches_seq in H. destruct H as (t2 & H2 & H).
  apply in_matches_opt_chr in H2 as (d & Hd & R2).
  rewrite in_matches_seq in H. destruct H as (t3 & H3 & H).
  apply in_matches_star_class in H3 as (w2 & Hw2 & R3).
  rewrite in_matches_seq in H. destruct H as (t4 & H4 & H).
  apply in_matches_lit in H4.
  apply in_matches_star_class in H as (w3 & Hw3 & R5).
  exists w1, d, w2, w3. repeat split; try assumption.
  - pose proof (reads_trans _ _ _ _ _ R1
                 (reads_trans _ _ _ _ _ R2
                   (reads_trans _ _ _ _ _ R3
                     (reads_trans _ _ _ _ _ H4 R5)))) as (R & _ & _).
    exact R.
  - pose proof (reads_trans _ _ _ _ _ R1
                 (reads_trans _ _ _ _ _ R2
                   (reads_trans _ _ _ _ _ R3
                     (reads_trans _ _ _ _ _ H4 R5)))) as (_ & P & _).
    exact P.
  - pose proof (reads_trans _ _ _ _ _ R1
                 (reads_trans _ _ _ _ _ R2
                   (reads_trans _ _ _ _ _ R3
                     (reads_trans _ _ _ _ _ H4 R5)))) as (_ & _ & C).
    exact C.
Qed.

(** A line that [url_regex] matches has the shape of a candidate, and the
    match object holds its parts. *)
Lemma url_regex_sound (line : string) (m : match_obj) :
  re_match url_regex line = Some m ->
  exists g1 head mid tail e,
    candidate line g1 head mid tail e
    /\ group 1 m = g1 /\ group 2 m = head /\ group 3 m = tail
    /\ whole m = g1 ++ head ++ "{{" ++ mid ++ "}}" ++ tail.
Proof.
  intros Hm. apply re_match_in in Hm as (st & Hin & Hwhole & Hgroups).
  unfold url_regex in Hin.
  rewrite in_matches_seq in Hin. destruct Hin as (s1 & H1 & Hin).
  apply in_matches_group in H1 as (t1 & H1 & P1 & R1 & C1).
  apply url_regex_prefix in H1 as (w1 & d & w2 & w3 & Rd1 & Hw1 & Hd & Hw2 & Hw3).
  destruct (group_reads 1 _ _ _ _ Rd1 P1 R1 C1) as (E1 & Q1 & D1).
  rewrite in_matches_seq in Hin. destruct Hin as (s2 & H2 & Hin).
  apply in_matches_group in H2 as (t2 & H2 & P2 & R2 & C2).
  apply in_matches_plus_class in H2 as (head & Hne2 & Hh & Rd2).
  destruct (group_reads 2 _ _ _ _ Rd2 P2 R2 C2) as (E2 & Q2 & D2).
  rewrite in_matches_seq in Hin. destruct Hin as (s3 & H3 & Hin).
  apply in_matches_lit in H3 as (E3 & Q3 & D3).
  rewrite in_matches_seq in Hin. destruct Hin as (s4 & H4 & Hin).
  apply in_matches_star_class in H4 as (mid & Hmid & E4 & Q4 & D4).
  rewrite in_matches_seq in Hin. destruct Hin as (s5 & H5 & Hin).
  apply in_matches_lit in H5 as (E5 & Q5 & D5).
  rewrite in_matches_seq in Hin. destruct Hin as (s6 & H6 & Hin).
  apply in_matches_group in H6 as (t6 & H6 & P6 & R6 & C6).
  apply in_matches_plus_class in H6 as (tail & Hne6 & Ht & Rd6).
  destruct (group_reads 3 _ _ _ _ Rd6 P6 R6 C6) as (E6 & Q6 & D6).
  apply in_matches_eol in Hin as (-> & He).
  set (g1 := w1 ++ d ++ w2 ++ "url:" ++ w3) in *.
  cbn [rest pos caps] in E1, Q1, D1.
  assert (Hline : line = g1 ++ head ++ "{{" ++ mid ++ "}}" ++ tail ++ rest s6).
  { rewrite E1, E2, E3, E4, E5, E6. reflexivity. }
  assert (Hpos : pos s6 =
                 String.length (g1 ++ head ++ "{{" ++ mid ++ "}}" ++ tail)).
  { rewrite Q6, Q5, Q4, Q3, Q2, Q1, !length_append. cbn. lia. }
  exists g1, head, mid, tail, (rest s6). split; [| repeat split].
  - constructor; try assumption; try (split; assumption).
    exists w1, d, w2, w3. now repeat split.
  - unfold group. rewrite Hgroups, D6, D5, D4, D3, D2, D1. reflexivity.
  - unfold group. rewrite Hgroups, D6, D5, D4, D3, D2, D1. reflexivity.
  - unfold group. rewrite Hgroups, D6. cbn. reflexivity.
  - rewrite Hwhole, Hpos. rewrite Hline at 1.
    replace (g1 ++ head ++ "{{" ++ mid ++ "}}" ++ tail ++ rest s6)
      with ((g1 ++ head ++ "{{" ++ mid ++ "}}" ++ tail) ++ rest s6)
      by (now rewrite !append_assoc).
    apply take_app.
Qed.

(** Conversely, the matcher finds a match on every line of that shape. *)

Lemma matches_star_class_complete (p : ascii -> bool) (w r : string)
      (fuel n : nat) (c : list (nat * string)) :
  all_chars p w = true ->
  String.length w <= fuel ->
  In (mkState (n + String.length w) r c)
     (matches (Star (Class p)) fuel (mkState n (w ++ r) c)).
Proof. intros Hw Hf. exact (star_class_complete p w r fuel fuel n c Hw Hf). Qed.

Lemma matches_plus_class_complete (p : ascii -> bool) (w r : string)
      (fuel n : nat) (c : list (nat * string)) :
  w <> "" ->
  all_chars p w = true ->
  String.length w <= fuel ->
  In (mkState (n + String.length w) r c)
     (matches (Plus (Class p)) fuel (mkState n (w ++ r) c)).
Proof.
  intros Hne Hw Hf. destruct w as [| x w]; [congruence |].
  cbn [all_chars] in Hw. apply andb_true_iff in Hw as [Hx Hw].
  unfold Plus. apply in_matches_seq.
  exists (mkState (S n) (w ++ r) c). split.
  - cbn [matches append rest pos caps]. rewrite Hx. now left.
  - cbn [String.length] in *.
    replace (n + S (String.length w)) with (S n + String.length w) by lia.
    apply matches_star_class_complete; [exact Hw | lia].
Qed.

Lemma matches_opt_chr_complete (x : ascii) (d r : string)
      (fuel n : nat) (c : list (nat * string)) :
  d = "" \/ d = String x "" ->
  In (mkState (n + String.length d) r c)
     (matches (Opt (Chr x)) fuel (mkState n (d ++ r) c)).
Proof.
  intros [-> | ->]; cbn [matches append rest pos caps Chr String.length].
  - rewrite Nat.add_0_r. apply in_or_app. right. now left.
  - rewrite Ascii.eqb_refl. left. f_equal. lia.
Qed.

Lemma matches_group_complete (k : nat) (a : regex) (fuel : nat) (st st1 : mstate) :
  In st1 (matches a fuel st) ->
  In (mkState (pos st1) (rest st1)
              ((k, Str.take (pos st1 - pos st) (rest st)) :: caps st1))
     (matches (Group k a) fuel st).
Proof.
  intros H. cbn [matches].
  apply (in_map (fun st' => mkState (pos st') (rest st')
                   ((k, Str.take (pos st' - pos st) (rest st)) :: caps st')) _ _ H).
Qed.

Lemma url_regex_complete (line g1 head mid tail e : string) :
  candidate line g1 head mid tail e ->
  re_match url_regex line <> None.
Proof.
  intros [Hline (w1 & d & w2 & w3 & Hg1 & Hw1 & Hd & Hw2 & Hw3)
                [Hne2 Hh] Hmid [Hne3 Ht] He].
  set (fuel := String.length line).
  set (r6 := e).
  set (r5 := tail ++ r6).
  set (r4 := "}}" ++ r5).
  set (r3 := mid ++ r4).
  set (r2 := "{{" ++ r3).
  set (r1 := head ++ r2).
  assert (E : line = w1 ++ d ++ w2 ++ "url:" ++ w3 ++ r1).
  { rewrite Hline, Hg1. unfold r1, r2, r3, r4, r5, r6.
    now rewrite !append_assoc. }
  assert (Hlen : String.length line =
                 String.length w1 + String.length d + String.length w2 + 4
                 + String.length w3 + String.length head + 2
                 + String.length mid + 2 + String.length tail + String.length e).
  { rewrite E. unfold r1, r2, r3, r4, r5, r6. rewrite !length_append. cbn. lia. }
  assert (H : exists st, In st (matches url_regex fuel (mkState 0 line []))).
  { unfold url_regex. eexists. apply in_matches_seq. eexists. split.
    - (* group 1 *)
      apply matches_group_complete.
      apply in_matches_seq. eexists. split; [cbn; now left |].
      apply in_matches_seq. eexists. split.
      { rewrite E. apply matches_star_class_complete; [exact Hw1 | unfold fuel; lia]. }
      apply in_matches_seq. eexists. split.
      { apply matches_opt_chr_complete. exact Hd. }
      apply in_matches_seq. eexists. split.
      { apply matches_star_class_complete; [exact Hw2 | unfold fuel; lia]. }
      apply in_matches_seq. eexists. split.
      { rewrite matches_lit_complete. now left. }
      apply matches_star_class_complete; [exact Hw3 | unfold fuel; lia].
    - cbn [pos rest caps].
      apply in_matches_seq. eexists. split.
      { apply matches_group_complete. unfold r1.
        apply matches_plus_class_complete; [exact Hne2 | exact Hh | unfold fuel; lia]. }
      cbn [pos rest caps].
      apply in_matches_seq. eexists. split.
      { unfold r2. rewrite matches_lit_complete. now left. }
      apply in_matches_seq. eexists. split.
      { unfold r3. apply matches_star_class_complete; [exact Hmid | unfold fuel; lia]. }
      apply in_matches_seq. eexists. split.
      { unfold r4. rewrite matches_lit_complete. now left. }
      apply in_matches_seq. eexists. split.
      { apply matches_group_complete. unfold r5.
        apply matches_plus_class_complete; [exact Hne3 | exact Ht | unfold fuel; lia]. }
      cbn [pos rest caps matches]. unfold r6.
      destruct He as [-> | ->]; cbn; now left. }
  destruct H as [st Hst]. unfold re_match. fold fuel.
  destruct (matches url_regex fuel (mkState 0 line [])); [contradiction | discriminate].
Qed.

(** The lines that [url_regex] matches are the lines of that shape. *)
Lemma url_regex_spec (line : string) :
  re_match url_regex line <> None <->
  exists g1 head mid tail e, candidate line g1 head mid tail e.
Proof.
  split.
  - destruct (re_match url_regex line) as [m |] eqn:E; [intros _ | congruence].
    destruct (url_regex_sound line m E) as (g1 & head & mid & tail & e & Hc & _).
    now exists g1, head, mid, tail, e.
  - intros (g1 & head & mid & tail & e & Hc).
    eapply url_regex_complete; eassumption.
Qed.

Lemma has_char_app (c : ascii) (a b : string) :
  Str.has_char c (a ++ b) = Str.has_char c a || Str.has_char c b.
Proof.
  induction a as [| x a IH]; simpl; [reflexivity |].
  now rewrite IH, orb_assoc.
Qed.

Lemma split_pieces (sep : ascii) (s : string) :
  Forall (fun l => Str.has_char sep l = false) (Str.split sep s).
Proof.
  induction s as [| c s IH]; simpl; [now repeat constructor |].
  destruct (Ascii.eqb c sep) eqn:E; [now constructor |].
  destruct (Str.split sep s) as [| h t].
  - constructor; [| constructor]. simpl. now rewrite E.
  - inversion IH; subst. constructor; [| assumption].
    simpl. now rewrite E.
Qed.

(** On a line without a newline the match is the whole line. *)
Lemma url_regex_whole (line : string) (m : match_obj) :
  Str.has_char Str.nl line = false ->
  re_match url_regex line = Some m ->
  whole m = line.
Proof.
  intros Hnl Hm.
  destruct (url_regex_sound line m Hm) as (g1 & head & mid & tail & e & Hc & _ & _ & _ & Hw).
  destruct Hc as [Hline _ _ _ _ He].
  rewrite Hw. destruct He as [-> | ->].
  - rewrite Hline. now rewrite append_empty_r.
  - exfalso. rewrite Hline in Hnl.
    rewrite !has_char_app in Hnl. cbn in Hnl.
    rewrite !orb_true_r in Hnl. discriminate.
Qed.

Lemma last_char_app (a b : string) :
  b <> "" -> last_char (a ++ b) = last_char b.
Proof.
  intros Hb. induction a as [| c a IH]; [reflexivity |].
  cbn [append last_char]. rewrite IH.
  destruct (a ++ b) eqn:E; [| reflexivity].
  destruct a; simpl in E; [congruence | discriminate].
Qed.

Lemma last_char_all (p : ascii -> bool) (s : string) (c : ascii) :
  all_chars p s = true -> last_char s = Some c -> p c = true.
Proof.
  induction s as [| x s IH]; [discriminate |].
  cbn [all_chars last_char]. intros H. apply andb_true_iff in H as [Hx Hs].
  destruct s; [intros [= <-]; exact Hx | now apply IH].
Qed.

(** A line that [url_regex] matches has, after two closing braces, a tail
    that is not empty and holds no closing brace; the line does not end
    with a closing brace. *)
Lemma url_regex_tail (line : string) (m : match_obj) :
  re_match url_regex line = Some m ->
  (exists pre e,
      line = pre ++ "}}" ++ group 3 m ++ e
      /\ group 3 m <> ""
      /\ all_chars (not_char "}") (group 3 m) = true
      /\ (e = "" \/ e = String Str.nl ""))
  /\ last_char line <> Some "}"%char.
Proof.
  intros Hm.
  destruct (url_regex_sound line m Hm)
    as (g1 & head & mid & tail & e & Hc & _ & _ & H3 & _).
  destruct Hc as [Hline _ _ _ [Hne Ht] He]. rewrite H3.
  assert (E : line = (g1 ++ head ++ "{{" ++ mid) ++ "}}" ++ tail ++ e)
    by (rewrite Hline, !append_assoc; reflexivity).
  split.
  - exists (g1 ++ head ++ "{{" ++ mid), e. now repeat split.
  - rewrite E. destruct He as [-> | ->].
    + rewrite append_empty_r.
      replace ((g1 ++ head ++ "{{" ++ mid) ++ "}}" ++ tail)
        with (((g1 ++ head ++ "{{" ++ mid) ++ "}}") ++ tail)
        by (now rewrite !append_assoc).
      rewrite last_char_app by exact Hne.
      intros Hl. apply (last_char_all _ _ _ Ht) in Hl. discriminate.
    + replace ((g1 ++ head ++ "{{" ++ mid) ++ "}}" ++ tail ++ String Str.nl "")
        with (((g1 ++ head ++ "{{" ++ mid) ++ "}}" ++ tail) ++ String Str.nl "")
        by (now rewrite !append_assoc).
      rewrite last_char_app by discriminate. discriminate.
Qed.

Lemma url_regex_closing_brace (x : string) :
  re_match url_regex (x ++ "}") = None.
Proof.
  destruct (re_match url_regex (x ++ "}")) as [m |] eqn:E; [| reflexivity].
  exfalso. apply url_regex_tail in E as [_ H]. apply H.
  now rewrite last_char_app.
Qed.

Section Rewriter.
Variable urlparse_path : string -> string.
Variable relpath : string -> string -> string.
Variables (meta_yaml_tpl pkgs_dir : string) (urls : dict SourceEntry).

Let loop := replace_urls_loop urlparse_path relpath meta_yaml_tpl pkgs_dir urls.
Let out := rewritten urlparse_path relpath meta_yaml_tpl pkgs_dir urls.
Let diag := diagnostics urlparse_path relpath meta_yaml_tpl pkgs_dir urls.

(** What one line becomes, and the diagnostic it causes. *)
Lemma loop_cons (line : string) (content result : list string) :
  loop (line :: content) result =
  match re_match url_regex line with
  | None => loop content (result ++ [line])%list
  | Some m =>
      match find_url (group 2 m) (group 3 m) urls with
      | None =>
          let '(evs, r) := loop content (result ++ [line])%list in
          (DiagUrlNotFound line :: evs, r)
      | Some u =>
          loop content
               ((result ++ [("#" ++ whole m)%string]) ++
                [(group 1 m ++ local_path urlparse_path relpath meta_yaml_tpl
                                          pkgs_dir u urls)%string])%list
      end
  end.
Proof.
  unfold loop. cbn [replace_urls_loop].
  destruct (re_match url_regex line) as [m |]; [| reflexivity].
  destruct (find_url (group 2 m) (group 3 m) urls); [reflexivity |].
  cbn. now destruct (replace_urls_loop _ _ _ _ _ _ _).
Qed.

Lemma loop_result (content result : list string) :
  loop content result = (diag content, inr (result ++ out content)%list).
Proof.
  unfold diag, diagnostics, out, rewritten. fold loop.
  revert result. induction content as [| line content IH]; intros result.
  - cbn. now rewrite app_nil_r.
  - rewrite (loop_cons line content result), (loop_cons line content []).
    destruct (re_match url_regex line) as [m |].
    + destruct (find_url (group 2 m) (group 3 m) urls).
      * rewrite IH, (IH (_ ++ _)%list). cbn. now rewrite <- !app_assoc.
      * rewrite IH, (IH (_ ++ _)%list). cbn. now rewrite <- !app_assoc.
    + rewrite IH, (IH (_ ++ _)%list). cbn. now rewrite <- !app_assoc.
Qed.

Lemma out_diag_cons (line : string) (content : list string) :
  (out (line :: content), diag (line :: content)) =
  match re_match url_regex line with
  | None => (line :: out content, diag content)
  | Some m =>
      match find_url (group 2 m) (group 3 m) urls with
      | None => (line :: out content, DiagUrlNotFound line :: diag content)
      | Some u =>
          (("#" ++ whole m)
             :: (group 1 m ++ local_path urlparse_path relpath meta_yaml_tpl
                                         pkgs_dir u urls)
             :: out content,
           diag content)
      end
  end.
Proof.
  unfold out at 1, rewritten, diag at 1, diagnostics. fold loop.
  rewrite loop_cons.
  destruct (re_match url_regex line) as [m |].
  - destruct (find_url (group 2 m) (group 3 m) urls); rewrite loop_result; reflexivity.
  - rewrite loop_result. reflexivity.
Qed.

Lemma out_flat_map (content : list string) :
  out content =
  flat_map (line_out urlparse_path relpath meta_yaml_tpl pkgs_dir urls) content.
Proof.
  induction content as [| line content IH]; [reflexivity |].
  pose proof (f_equal fst (out_diag_cons line content)) as H. cbn [fst] in H.
  rewrite H. cbn [flat_map]. rewrite <- IH. unfold line_out.
  destruct (re_match url_regex line) as [m |];
    [destruct (find_url (group 2 m) (group 3 m) urls) |]; reflexivity.
Qed.

Lemma diag_flat_map (content : list string) :
  diag content = flat_map (line_diag urls) content.
Proof.
  induction content as [| line content IH]; [reflexivity |].
  pose proof (f_equal snd (out_diag_cons line content)) as H. cbn [snd] in H.
  rewrite H. cbn [flat_map]. rewrite <- IH. unfold line_diag.
  destruct (re_match url_regex line) as [m |];
    [destruct (find_url (group 2 m) (group 3 m) urls) |]; reflexivity.
Qed.

Lemma replace_urls_result (text : string) :
  replace_urls urlparse_path relpath meta_yaml_tpl text urls pkgs_dir =
  ((diag (Str.split Str.nl text)
    ++ [WriteFile meta_yaml_tpl
          (Str.join (String Str.nl "") (out (Str.split Str.nl text)))])%list,
   inr tt).
Proof.
  unfold replace_urls. fold loop. rewrite loop_result. reflexivity.
Qed.
End Rewriter.

(** ** The rewriter *)

Lemma find_first {T : Type} (f : T -> bool) (l : list T) (x : T) :
  find f l = Some x ->
  exists pre post, l = (pre ++ x :: post)%list /\ f x = true
                   /\ forallb (fun y => negb (f y)) pre = true.
Proof.
  induction l as [| a l IH]; [discriminate |]. cbn [find].
  destruct (f a) eqn:E.
  - intros [= <-]. now exists [], l.
  - intros H. destruct (IH H) as (pre & post & -> & Hx & Hpre).
    exists (a :: pre), post. cbn. now rewrite E, Hpre.
Qed.

Lemma url_matches_sound (head tail u : string) :
  url_matches head tail u = true ->
  exists mid rest,
    u = head ++ mid ++ tail ++ rest /\ all_chars (not_char Str.nl) mid = true.
Proof.
  unfold url_matches. destruct (re_match (url_pattern head tail) u) as [m |] eqn:E;
    [intros _ | discriminate].
  apply re_match_in in E as (st & Hin & _ & _).
  unfold url_pattern in Hin.
  rewrite in_matches_seq in Hin. destruct Hin as (s1 & H1 & Hin).
  apply in_matches_lit in H1 as (E1 & _ & _).
  rewrite in_matches_seq in Hin. destruct Hin as (s2 & H2 & Hin).
  apply in_matches_star_class in H2 as (mid & Hmid & E2 & _ & _).
  apply in_matches_lit in Hin as (E3 & _ & _).
  exists mid, (rest st). split; [| exact Hmid].
  cbn [rest] in E1. now rewrite E1, E2, E3.
Qed.

(** The pattern of a head and a tail matches the texts that begin with the
    head and hold the tail further on, on the same line. *)
Lemma url_matches_spec (head tail u : string) :
  url_matches head tail u = true <->
  exists mid rest,
    u = head ++ mid ++ tail ++ rest /\ all_chars (not_char Str.nl) mid = true.
Proof.
  split; [apply url_matches_sound |].
  intros (mid & r & -> & Hmid). unfold url_matches, re_match, url_pattern.
  set (u := head ++ mid ++ tail ++ r).
  assert (Hin : In (mkState (0 + String.length head + String.length mid
                             + String.length tail) r [])
                   (matches (Seq (Lit head) (Seq (Star Dot) (Lit tail)))
                            (String.length u) (mkState 0 u []))).
  { apply in_matches_seq. eexists. split.
    - unfold u. rewrite matches_lit_complete. now left.
    - apply in_matches_seq. eexists. split.
      + apply matches_star_class_complete; [exact Hmid |].
        unfold u. rewrite !length_append. lia.
      + rewrite matches_lit_complete. now left. }
  destruct (matches _ _ _); [contradiction | reflexivity].
Qed.


Lemma dict_get_with_dest_fn (urlparse_path : string -> string) (pkg u : string)
      (urls : dict SourceEntry) :
  dict_get u (with_dest_fn urlparse_path pkg urls) =
  match dict_get u urls with
  | Some v => Some (mkSource (hash_type v) (hash v)
                             (Some (dest_fn urlparse_path pkg u v)))
  | None => None
  end.
Proof.
  induction urls as [| [k v] urls IH]; [reflexivity |].
  cbn [with_dest_fn map fst snd dict_get].
  destruct (String.eqb_spec u k) as [-> | Hne]; [reflexivity | exact IH].
Qed.

Lemma dict_keys_with_dest_fn (urlparse_path : string -> string) (pkg : string)
      (urls : dict SourceEntry) :
  dict_keys (with_dest_fn urlparse_path pkg urls) = dict_keys urls.
Proof.
  unfold dict_keys, with_dest_fn. rewrite map_map. reflexivity.
Qed.

Lemma find_skip {T : Type} (f : T -> bool) (pre : list T) (x : T) (post : list T) :
  (forall y, In y pre -> f y = false) -> f x = true ->
  find f (pre ++ x :: post) = Some x.
Proof.
  intros Hpre Hx. induction pre as [| a pre IH]; cbn [app find].
  - now rewrite Hx.
  - rewrite (Hpre a (or_introl eq_refl)). apply IH. intros y Hy. apply Hpre. now right.
Qed.

(** [find_url] gives the first known URL that fits the head and the tail,
    and none exactly when no known URL fits. *)
Lemma find_url_fits (head tail : string) (urls : dict SourceEntry) :
  ((forall u, In u (dict_keys urls) -> ~ url_fits head tail u) ->
   find_url head tail urls = None)
  /\ (forall pre u post,
         dict_keys urls = (pre ++ u :: post)%list ->
         url_fits head tail u ->
         (forall y, In y pre -> ~ url_fits head tail y) ->
         find_url head tail urls = Some u).
Proof.
  assert (Hno : forall y, ~ url_fits head tail y ->
                          match re_match (url_pattern head tail) y with
                          | Some _ => true
                          | None => false
                          end = false).
  { intros y Hy. pose proof (url_matches_spec head tail y) as Hs.
    unfold url_matches, is_some in Hs.
    destruct (re_match (url_pattern head tail) y); [| reflexivity].
    elim Hy. now apply Hs. }
  unfold find_url. split.
  - intros Hnone.
    destruct (find _ (dict_keys urls)) as [u |] eqn:E; [| reflexivity].
    apply find_some in E as [Hin Hu]. rewrite (Hno u (Hnone u Hin)) in Hu. discriminate.
  - intros pre u post -> Hu Hpre. apply find_skip.
    + intros y Hy. apply Hno. now apply Hpre.
    + apply url_matches_spec in Hu. unfold url_matches, is_some in Hu.
      now destruct (re_match (url_pattern head tail) u).
Qed.

Section RoundTrip.
Variable urlparse_path : string -> string.
Variable relpath : string -> string -> string.

(** C10.  A line that the pattern of candidates matches has, after two
    closing braces, at least one character, none of which is a closing
    brace, up to its end.  A line that ends with the two closing braces is
    therefore not matched and has not the shape of a candidate:
    [replace_urls] writes it as it is and prints nothing for it. *)
Theorem empty_tail_not_candidate
        (meta_yaml_tpl pkgs_dir : string) (urls : dict SourceEntry) :
  (forall line m,
      re_match url_regex line = Some m ->
      exists pre e,
        line = pre ++ "}}" ++ group 3 m ++ e
        /\ group 3 m <> ""
        /\ all_chars (not_char "}") (group 3 m) = true
        /\ (e = "" \/ e = String Str.nl ""))
  /\ (forall x, re_match url_regex (x ++ "}}") = None)
  /\ (forall x g1 head mid tail e, ~ candidate (x ++ "}}") g1 head mid tail e)
  /\ (forall x text before after,
         Str.split Str.nl text = (before ++ (x ++ "}}")%string :: after)%list ->
         replace_urls urlparse_path relpath meta_yaml_tpl text urls pkgs_dir =
         ((diagnostics urlparse_path relpath meta_yaml_tpl pkgs_dir urls before
           ++ diagnostics urlparse_path relpath meta_yaml_tpl pkgs_dir urls after
           ++ [WriteFile meta_yaml_tpl
                 (Str.join (String Str.nl "")
                    (rewritten urlparse_path relpath meta_yaml_tpl pkgs_dir urls before
                     ++ [(x ++ "}}")%string]
                     ++ rewritten urlparse_path relpath meta_yaml_tpl pkgs_dir urls
                          after))])%list,
          inr tt)).
Proof.
  assert (Hnone : forall x, re_match url_regex (x ++ "}}") = None).
  { intros x. replace (x ++ "}}") with ((x ++ "}") ++ "}")
      by (now rewrite append_assoc).
    apply url_regex_closing_brace. }
  split; [| split; [exact Hnone | split]].
  - intros line m Hm. now apply url_regex_tail in Hm as [H _].
  - intros x g1 head mid tail e Hc.
    apply (url_regex_complete _ _ _ _ _ _ Hc), Hnone.
  - intros x text before after Hsplit.
    rewrite replace_urls_result, Hsplit.
    rewrite !out_flat_map, !diag_flat_map, !flat_map_app.
    cbn [flat_map]. unfold line_out at 2, line_diag at 2.
    rewrite (Hnone x). cbn [app]. now rewrite <- !app_assoc.
Qed.
(** On a line of the document, which holds no newline, a match covers the
    line and nothing stands between the tail and the end. *)
Lemma url_regex_sound_line (line : string) (m : match_obj) :
  Str.has_char Str.nl line = false ->
  re_match url_regex line = Some m ->
  whole m = line
  /\ exists g1 head mid tail,
      candidate line g1 head mid tail ""
      /\ group 1 m = g1 /\ group 2 m = head /\ group 3 m = tail.
Proof.
  intros Hnl Hm. split; [now apply url_regex_whole |].
  destruct (url_regex_sound line m Hm)
    as (g1 & head & mid & tail & e & Hc & H1 & H2 & H3 & _).
  exists g1, head, mid, tail.
  destruct (cand_end Hc) as [-> | ->]; [now split |].
  exfalso. rewrite (cand_line Hc) in Hnl.
  rewrite !has_char_app in Hnl. cbn in Hnl.
  rewrite !orb_true_r in Hnl. discriminate.
Qed.

End RoundTrip.

(** ** The instances *)

Module InstanceFacts.
Import Instances.

#[export] Instance release_CmpOrder : CmpOrder release_compare.
Proof.
  split.
  - induction a as [| x a IH]; intros [| y b]; simpl; try discriminate; [reflexivity |].
    destruct (N.compare x y) eqn:E; try discriminate.
    apply N.compare_eq in E. subst y. intros H. now rewrite (IH b H).
  - induction a as [| x a IH]; simpl; [reflexivity |].
    now rewrite N.compare_refl.
  - induction a as [| x a IH]; intros [| y b]; simpl; try reflexivity.
    rewrite (N.compare_antisym y x).
    destruct (N.compare y x); simpl; [apply IH | reflexivity | reflexivity].
  - induction a as [| x a IH]; intros [| y b] [| z c]; simpl;
      try discriminate; try reflexivity.
    destruct (N.compare x y) eqn:Exy; try discriminate.
    + apply N.compare_eq in Exy. subst y.
      destruct (N.compare x z); try discriminate; [apply IH | reflexivity].
    + intros _. destruct (N.compare y z) eqn:Eyz; try discriminate.
      * apply N.compare_eq in Eyz. subst z. now rewrite Exy.
      * rewrite N.compare_lt_iff in *.
        assert (H : N.compare x z = Lt)
          by (apply N.compare_lt_iff; eapply N.lt_trans; eassumption).
        now rewrite H.
Qed.

Lemma release_lt_le (a b : list N) : Ver_lt a b = negb (Ver_le b a).
Proof.
  unfold Ver_lt, Ver_le. rewrite (cmp_antisym (cmp := release_compare) b a).
  destruct (release_compare a b); reflexivity.
Qed.

Lemma release_le_total (a b : list N) : Ver_le a b = true \/ Ver_le b a = true.
Proof. apply (cmp_le_total release_compare). Qed.

Lemma release_le_trans (a b c : list N) :
  Ver_le a b = true -> Ver_le b c = true -> Ver_le a c = true.
Proof. apply (cmp_le_trans release_compare). Qed.

End InstanceFacts.

(** ** The theorems at work *)

Module Witnesses.
Import Instances Examples InstanceFacts.

Lemma pkg_db_value : pkg_db = [("pkg", [r_1_9; r_1_9'; r_1_10])].
Proof. vm_compute. reflexivity. Qed.

Lemma odd_db_value : odd_db = [("pkg", [r_1_0; r_abc])].
Proof. vm_compute. reflexivity. Qed.

(** C1: with the bound 1.9.5 the newest record of version at most 1.9.5 is
    returned; and with the bound 1.5 the record 1.0 is returned from a
    group whose oldest record, 0abc, has a version that does not parse. *)
Lemma resolve_upper_bound_witness :
  dict_get "pkg" pkg_db = Some [r_1_9; r_1_9'; r_1_10]
  /\ outcome (get_pkg_spec PV Ver_le "pkg" (Some "1.9.5") (Some "310") pkg_db)
     = inr r_1_9
  /\ dict_get "pkg" MoreExamples.mixed_db
     = Some [MoreExamples.r_0abc; r_1_0; MoreExamples.r_2_0]
  /\ outcome (get_pkg_spec PV Ver_le "pkg" (Some "1.5") None MoreExamples.mixed_db)
     = inr r_1_0.
Proof.
  assert (Hget : dict_get "pkg" pkg_db = Some [r_1_9; r_1_9'; r_1_10])
    by (vm_compute; reflexivity).
  assert (Hmix : dict_get "pkg" MoreExamples.mixed_db
                 = Some [MoreExamples.r_0abc; r_1_0; MoreExamples.r_2_0])
    by (vm_compute; reflexivity).
  split; [exact Hget | split; [| split; [exact Hmix |]]].
  - rewrite (proj1 (resolve_upper_bound (list N) PV Ver_le "pkg" "1.9.5" (Some "310")
                                        pkg_db _ Hget)).
    + vm_compute. reflexivity.
    + intros _. vm_compute. discriminate.
    + vm_compute. repeat constructor; discriminate.
  - apply (proj2 (proj2 (resolve_upper_bound (list N) PV Ver_le "pkg" "1.5" None
                           MoreExamples.mixed_db _ Hmix))
             [MoreExamples.r_2_0] r_1_0 [MoreExamples.r_0abc]).
    + vm_compute. reflexivity.
    + constructor; [| constructor]. split; [vm_compute; discriminate |].
      vm_compute. reflexivity.
    + vm_compute. reflexivity.
Defined.

(** C1, as stated, fails: the group holds a record of version 1.0, below
    the bound 2.0, and the resolver fails with InvalidVersion on the record
    abc that the scan meets first. *)
Lemma resolve_upper_bound_counterexample :
  dict_get "pkg" odd_db = Some [r_1_0; r_abc]
  /\ newest_within_bound PV Ver_le "pkg" "2.0" (candidates None [r_1_0; r_abc])
     = inr r_1_0
  /\ outcome (get_pkg_spec PV Ver_le "pkg" (Some "2.0") None odd_db)
     = inl (InvalidVersion "abc")
  /\ outcome (get_pkg_spec PV Ver_le "pkg" (Some "2.0") None odd_db)
     <> newest_within_bound PV Ver_le "pkg" "2.0" (candidates None [r_1_0; r_abc]).
Proof.
  repeat split; try (vm_compute; reflexivity).
  vm_compute. discriminate.
Qed.

(** C2 *)
Lemma database_groups_sorted_witness :
  dict_get "pkg" pkg_db = Some [r_1_9; r_1_9'; r_1_10]
  /\ StronglySorted (fun x y => version_le PV Ver_le x y = true)
                    [r_1_9; r_1_9'; r_1_10]
  /\ StronglySorted (fun x y => triple_le x y = true) [r_1_0; r_abc].
Proof.
  assert (Hget : dict_get "pkg" pkg_db = Some [r_1_9; r_1_9'; r_1_10])
    by (vm_compute; reflexivity).
  assert (Hodd : dict_get "pkg" odd_db = Some [r_1_0; r_abc])
    by (vm_compute; reflexivity).
  split; [exact Hget | split].
  - apply (database_groups_sorted (list N) PV Ver_lt Ver_le
             release_lt_le release_le_total release_le_trans listing forge_url "pkg" _ Hget).
    vm_compute. repeat constructor; discriminate.
  - apply (database_groups_sorted (list N) PV Ver_lt Ver_le
             release_lt_le release_le_total release_le_trans odd_listing forge_url "pkg" _ Hodd).
    vm_compute. intros H. inversion H as [| ? ? Habc _]. now apply Habc.
Defined.

(** C3 *)
Lemma two_layer_unpack_witness :
  unpack_artifact urlparse_path abspath
    (record "pkg-1.0-0.conda" "1.0" "0" 1) "/w" =
  ([DownloadFile (forge_url ++ "/linux-64/pkg-1.0-0.conda") "/w/pkg-1.0-0.conda";
    Rmtree "/w/pkg-1.0-0";
    Makedirs "/w/pkg-1.0-0";
    UnpackArchive "/w/pkg-1.0-0.conda" "/w/pkg-1.0-0" (Some "zip");
    ZstExtractAll "/w/pkg-1.0-0/info-pkg-1.0-0.tar.zst" "/w/pkg-1.0-0"],
   inr "/w/pkg-1.0-0").
Proof.
  apply (two_layer_unpack urlparse_path abspath
           (record "pkg-1.0-0.conda" "1.0" "0" 1) "/w");
    vm_compute; reflexivity.
Defined.

(** C4 *)
Lemma load_urls_hash_precedence_witness :
  (exists d, load_urls meta = ([], inr d)
             /\ dict_get "https://example.com/a/1.2.3.tar.gz" d
                = Some (mkSource "sha256" "ab12" None)
             /\ dict_get "https://example.com/mylib-src.zip" d
                = Some (mkSource "md5" "ef56" None))
  /\ exists u, outcome (create_feedstock urlparse_path abspath relpath
                          (record "pkg-1.0-0.conda" "1.0" "0" 1) unpacked
                          "/w" "/recipes" "/pkgs")
               = inl (MissingHashError u).
Proof.
  split.
  - destruct (proj1 (proj2 (load_urls_hash_precedence urlparse_path abspath relpath meta)))
      as (d & Hd & Hspec); [vm_compute; reflexivity |].
    exists d. split; [exact Hd | split].
    + destruct (Hspec "https://example.com/a/1.2.3.tar.gz"
                  (mkItem (Some "https://example.com/a/1.2.3.tar.gz")
                          None (Some "ab12") (Some "cd34") None))
        as (kind & h & Hk & Hh & Hg); [vm_compute; reflexivity |].
      vm_compute in Hk. injection Hk as <-. vm_compute in Hh. injection Hh as <-.
      exact Hg.
    + destruct (Hspec "https://example.com/mylib-src.zip"
                  (mkItem (Some "https://example.com/mylib-src.zip")
                          (Some "ef56") (Some "ab12") None None))
        as (kind & h & Hk & Hh & Hg); [vm_compute; reflexivity |].
      vm_compute in Hk. injection Hk as <-. vm_compute in Hh. injection Hh as <-.
      exact Hg.
  - destruct (proj2 (proj2 (load_urls_hash_precedence urlparse_path abspath relpath
                              bad_meta)))
      as (u & _ & _ & Hrun); [vm_compute; reflexivity |].
    exists u. apply (Hrun _ unpacked). reflexivity.
Defined.


(** C8: no build holds 311; the group is kept and its last record returned. *)
Lemma build_filter_never_empties_witness :
  filter_build (Some "311") [r_1_9; r_1_9'; r_1_10] =
    ([WarnNoBuild "311"], inr [r_1_9; r_1_9'; r_1_10])
  /\ exists p, outcome (get_pkg_spec PV Ver_le "pkg" None (Some "311") pkg_db) = inr p.
Proof.
  assert (Hget : dict_get "pkg" pkg_db = Some [r_1_9; r_1_9'; r_1_10])
    by (vm_compute; reflexivity).
  destruct (build_filter_never_empties (list N) PV Ver_le "pkg" "311" pkg_db _ Hget)
    as (_ & _ & Hwarn & _ & Hlast & _).
  split.
  - destruct Hwarn as [Ho He]; [vm_compute; reflexivity |].
    rewrite (M_eta (filter_build _ _)), Ho, He; [reflexivity | discriminate].
  - destruct Hlast as (p & Hp & _); [discriminate |]. now exists p.
Defined.

(** C9 *)
Lemma explicit_filename_prefixed_witness :
  dest_fn urlparse_path "pkg" "https://example.com/download"
          (mkSource "md5" "ef56" (Some "v2.0.zip")) = "pkg-v2.0.zip".
Proof.
  apply (proj1 (explicit_filename_prefixed urlparse_path "pkg" "/pkgs"
                  "https://example.com/download" "v2.0.zip"
                  (mkSource "md5" "ef56" (Some "v2.0.zip"))
                  [("https://example.com/download",
                    mkSource "md5" "ef56" (Some "v2.0.zip"))]
                  eq_refl eq_refl (or_introl eq_refl))).
Defined.

(** C10 *)
Lemma empty_tail_not_candidate_witness :
  re_match url_regex "  - url: https://example.com/{{ name }}" = None.
Proof.
  apply (proj1 (proj2 (empty_tail_not_candidate urlparse_path relpath "" "" []))
           "  - url: https://example.com/{{ name ").
Defined.
End Witnesses.

(** * Further properties *)

(** ** The resolver, alone and on a database that was built *)

Lemma StronglySorted_split {T : Type} (R : T -> T -> Prop) (pre post : list T) (p : T) :
  StronglySorted R (pre ++ p :: post) ->
  Forall (fun q => R q p) pre /\ Forall (R p) post.
Proof.
  induction pre as [| x pre IH]; cbn [app]; intros H.
  - split; [constructor | now inversion H].
  - inversion H as [| ? ? Hs Hx]; subst. destruct (IH Hs) as [Hpre Hpost].
    split; [| exact Hpost]. constructor; [| exact Hpre].
    rewrite Forall_forall in Hx. apply Hx, in_or_app. right. now left.
Qed.

Lemma StronglySorted_filtered {T : Type} (R : T -> T -> Prop) (f : T -> bool)
      (l : list T) :
  StronglySorted R l -> StronglySorted R (filter f l).
Proof.
  induction 1 as [| x l Hs IH Hx]; cbn [filter]; [constructor |].
  destruct (f x); [| exact IH]. constructor; [exact IH |].
  rewrite Forall_forall in *. intros y Hy. apply Hx.
  now apply filter_In in Hy as [Hy _].
Qed.

Lemma find_rev_last {T : Type} (f : T -> bool) (l : list T) (p : T) :
  find f (List.rev l) = Some p ->
  exists pre post, l = (pre ++ p :: post)%list /\ f p = true
                   /\ Forall (fun q => f q = false) post.
Proof.
  intros H. apply find_first in H as (a & b & E & Hp & Ha).
  exists (List.rev b), (List.rev a). split; [| split; [exact Hp |]].
  - apply (f_equal (@List.rev T)) in E. rewrite rev_involutive in E.
    rewrite E, rev_app_distr. cbn [List.rev]. now rewrite <- app_assoc.
  - apply Forall_rev. rewrite forallb_forall in Ha. apply Forall_forall.
    intros q Hq. specialize (Ha q Hq). now destruct (f q).
Qed.

Lemma find_none_all {T : Type} (f : T -> bool) (l : list T) :
  find f l = None -> Forall (fun q => f q = false) l.
Proof.
  intros H. apply Forall_forall. intros q Hq.
  destruct (f q) eqn:E; [| reflexivity].
  now rewrite (find_none f l H q Hq) in E.
Qed.

Lemma candidates_incl (py : option string) (group : list PackageRecord)
      (p : PackageRecord) :
  In p (candidates py group) -> In p group.
Proof.
  unfold candidates. destruct (truthy py) as [f |]; [| trivial].
  destruct (narrowed f group) eqn:E; [trivial |]. rewrite <- E.
  unfold narrowed. rewrite filter_In. tauto.
Qed.

Section ResolverMore.
Variable Ver : Type.
Variable PV : string -> option Ver.
Variable Ver_le : Ver -> Ver -> bool.

Lemma scan_bound_error (ver : string) (l : list PackageRecord) (e : error) :
  scan_bound PV Ver_le ver l = inl e -> exists s, e = InvalidVersion s.
Proof.
  induction l as [| p l IH]; cbn [scan_bound]; [discriminate |].
  unfold version_le_bound.
  destruct (PV (version p)); [| intros [= <-]; eauto].
  destruct (PV ver); [| intros [= <-]; eauto].
  destruct (Ver_le v v0); [discriminate | exact IH].
Qed.

Lemma scan_bound_found (ver : string) (l : list PackageRecord) (p : PackageRecord) :
  scan_bound PV Ver_le ver l = inr (Some p) ->
  In p l /\ qualifies PV Ver_le ver p = true.
Proof.
  induction l as [| x l IH]; cbn [scan_bound]; [discriminate |].
  unfold version_le_bound.
  destruct (PV (version x)) as [a |] eqn:Ea; [| discriminate].
  destruct (PV ver) as [b |] eqn:Eb; [| discriminate].
  destruct (Ver_le a b) eqn:E.
  - intros [= <-]. split; [now left |]. unfold qualifies. now rewrite Ea, Eb.
  - intros H. destruct (IH H) as [Hin Hq]. split; [now right | exact Hq].
Qed.

(** X1.  The resolver fails with NotFoundError exactly when the name is not
    a key of the database, whatever the bound and the filter; it has then
    printed nothing. *)
Theorem unknown_package
        (pkg : string) (ver py : option string)
        (pkg_db : dict (list PackageRecord)) :
  (dict_get pkg pkg_db = None ->
   get_pkg_spec PV Ver_le pkg ver py pkg_db = ([], inl (NotFoundError pkg)))
  /\ (forall p,
         outcome (get_pkg_spec PV Ver_le pkg ver py pkg_db) = inl (NotFoundError p) ->
         dict_get pkg pkg_db = None).
Proof.
  split.
  - intros H. unfold get_pkg_spec. now rewrite H.
  - intros p H. destruct (dict_get pkg pkg_db) as [group |] eqn:E; [| reflexivity].
    exfalso. rewrite (get_pkg_spec_outcome _ PV Ver_le pkg ver py pkg_db group E) in H.
    destruct ver as [v |].
    + destruct (scan_bound PV Ver_le v (List.rev (candidates py group)))
        as [e | [q |]] eqn:Es; try discriminate.
      apply scan_bound_error in Es as [s ->]. discriminate.
    + destruct (List.rev (candidates py group)); discriminate.
Qed.

(** X2.  A record that the resolver returns is one of the records that the
    database holds under the name.  Its build contains the filter when the
    filter selects something, and its version is at most the bound when
    there is one. *)
Theorem resolved_record_in_group
        (pkg : string) (ver py : option string)
        (pkg_db : dict (list PackageRecord)) (p : PackageRecord) :
  outcome (get_pkg_spec PV Ver_le pkg ver py pkg_db) = inr p ->
  exists group,
    dict_get pkg pkg_db = Some group
    /\ In p group
    /\ (forall f, py = Some f -> f <> "" -> narrowed f group <> [] ->
                  exists a b, build p = a ++ f ++ b)
    /\ (forall v, ver = Some v -> qualifies PV Ver_le v p = true).
Proof.
  intros H. destruct (dict_get pkg pkg_db) as [group |] eqn:E.
  2: { unfold get_pkg_spec in H. rewrite E in H. discriminate. }
  exists group. split; [reflexivity |].
  rewrite (get_pkg_spec_outcome _ PV Ver_le pkg ver py pkg_db group E) in H.
  assert (Hin : In p (candidates py group)
                /\ forall v, ver = Some v -> qualifies PV Ver_le v p = true).
  { destruct ver as [v |].
    - destruct (scan_bound PV Ver_le v (List.rev (candidates py group)))
        as [e | [q |]] eqn:Es; try discriminate.
      injection H as <-. apply scan_bound_found in Es as [Hin Hq].
      split; [now apply in_rev | intros ? [= <-]; exact Hq].
    - destruct (List.rev (candidates py group)) as [| q l] eqn:Er; [discriminate |].
      injection H as <-. split; [| discriminate].
      apply in_rev. rewrite Er. now left. }
  destruct Hin as [Hin Hq]. split; [now apply candidates_incl in Hin | split; [| exact Hq]].
  intros f -> Hf Hne. unfold candidates in Hin.
  assert (Ht : truthy (Some f) = Some f) by (destruct f; [now elim Hf | reflexivity]).
  rewrite Ht in Hin. destruct (narrowed f group) eqn:En; [congruence |].
  rewrite <- En in Hin. unfold narrowed in Hin.
  apply filter_In in Hin as [_ Hc]. now apply contains_spec.
Qed.
End ResolverMore.

Section ResolvedFromDatabase.
Variable Ver : Type.
Variable PV : string -> option Ver.
Variable Ver_lt Ver_le : Ver -> Ver -> bool.

Hypothesis Ver_lt_le : forall a b, Ver_lt a b = negb (Ver_le b a).
Hypothesis Ver_le_total : forall a b, Ver_le a b = true \/ Ver_le b a = true.
Hypothesis Ver_le_trans :
  forall a b c, Ver_le a b = true -> Ver_le b c = true -> Ver_le a c = true.

Lemma parsed_group_sorted (data : list (string * RepoEntry)) (forge_url k : string)
      (g : list PackageRecord) :
  dict_get k (parse_repodata PV Ver_lt data forge_url) = Some g ->
  Forall (fun x => parses PV (version x)) g ->
  StronglySorted (fun x y => version_le PV Ver_le x y = true) g.
Proof.
  intros Hget Hall. rewrite parse_repodata_get in Hget.
  destruct (records_named forge_url k data) as [| r raw'] eqn:Eraw; [discriminate |].
  injection Hget as <-. unfold sort_group in *.
  destruct (sorted Ver_lt (fun x => PV (version x)) (r :: raw')) as [l' |] eqn:E.
  - now apply (version_sorted Ver PV Ver_lt Ver_le Ver_lt_le Ver_le_total Ver_le_trans) in E.
  - exfalso.
    destruct (fallback_sorted (r :: raw')) as (lf & Ef & Hp & _). rewrite Ef in Hall.
    assert (Hraw : Forall (fun x => PV (version x) <> None) (r :: raw'))
      by (apply (Permutation_Forall (Permutation_sym Hp)), Hall).
    apply (sorted_defined _ _ Ver_lt) in Hraw as [l' Hl']. congruence.
Qed.

Lemma candidates_sorted (py : option string) (g : list PackageRecord) :
  StronglySorted (fun x y => version_le PV Ver_le x y = true) g ->
  StronglySorted (fun x y => version_le PV Ver_le x y = true) (candidates py g).
Proof.
  intros H. unfold candidates. destruct (truthy py) as [f |]; [| exact H].
  destruct (narrowed f g) eqn:E; [exact H |]. rewrite <- E.
  now apply StronglySorted_filtered.
Qed.

Lemma version_le_refl (p : PackageRecord) :
  parses PV (version p) -> version_le PV Ver_le p p = true.
Proof.
  unfold parses, version_le. destruct (PV (version p)) as [a |]; [intros _ | congruence].
  now destruct (Ver_le_total a a).
Qed.

(** X3.  On a database that [parse_repodata] built, for a name whose
    versions all parse, resolution without an upper bound returns a newest
    candidate: no candidate has a greater version. *)
Theorem resolves_to_newest
        (data : list (string * RepoEntry)) (forge_url pkg : string)
        (py : option string) (group : list PackageRecord) (p : PackageRecord) :
  let pkg_db := parse_repodata PV Ver_lt data forge_url in
  dict_get pkg pkg_db = Some group ->
  Forall (fun x => parses PV (version x)) group ->
  outcome (get_pkg_spec PV Ver_le pkg None py pkg_db) = inr p ->
  In p (candidates py group)
  /\ forall q, In q (candidates py group) -> version_le PV Ver_le q p = true.
Proof.
  intros pkg_db Hget Hall H.
  rewrite (get_pkg_spec_outcome _ PV Ver_le pkg None py pkg_db group Hget) in H.
  destruct (List.rev (candidates py group)) as [| x l] eqn:Er; [discriminate |].
  injection H as <-.
  assert (E : candidates py group = (List.rev l ++ [x])%list).
  { apply (f_equal (@List.rev _)) in Er. now rewrite rev_involutive in Er. }
  assert (Hx : In x (candidates py group))
    by (rewrite E; apply in_or_app; right; now left).
  split; [exact Hx |].
  pose proof (candidates_sorted py group (parsed_group_sorted _ _ _ _ Hget Hall)) as Hs.
  rewrite E in Hs. apply StronglySorted_split in Hs as [Hpre _].
  intros q Hq. rewrite E in Hq. apply in_app_or in Hq as [Hq | [<- | []]].
  - rewrite Forall_forall in Hpre. now apply Hpre.
  - apply version_le_refl. rewrite Forall_forall in Hall.
    now apply Hall, (candidates_incl py).
Qed.

(** X4.  On such a database, with a bound that parses, resolution returns
    a candidate whose version is at most the bound and which no candidate
    within the bound exceeds; it fails, with VersionNotFoundError, exactly
    when every candidate exceeds the bound. *)
Theorem resolves_to_closest_below_bound
        (data : list (string * RepoEntry)) (forge_url pkg ver : string)
        (py : option string) (group : list PackageRecord) :
  let pkg_db := parse_repodata PV Ver_lt data forge_url in
  let result := outcome (get_pkg_spec PV Ver_le pkg (Some ver) py pkg_db) in
  dict_get pkg pkg_db = Some group ->
  Forall (fun x => parses PV (version x)) group ->
  parses PV ver ->
  (forall p, result = inr p ->
             In p (candidates py group)
             /\ qualifies PV Ver_le ver p = true
             /\ forall q, In q (candidates py group) ->
                          qualifies PV Ver_le ver q = true ->
                          version_le PV Ver_le q p = true)
  /\ (forall e, result = inl e ->
                e = VersionNotFoundError ver pkg
                /\ forall q, In q (candidates py group) ->
                             qualifies PV Ver_le ver q = false)
  /\ ((forall q, In q (candidates py group) -> qualifies PV Ver_le ver q = false) ->
      result = inl (VersionNotFoundError ver pkg)).
Proof.
  intros pkg_db result Hget Hall Hver.
  assert (Hc : Forall (fun x => parses PV (version x)) (candidates py group)).
  { rewrite Forall_forall in *. intros x Hx. now apply Hall, (candidates_incl py). }
  assert (Hres : result =
                 match find (qualifies PV Ver_le ver) (List.rev (candidates py group)) with
                 | Some p => inr p
                 | None => inl (VersionNotFoundError ver pkg)
                 end).
  { unfold result.
    rewrite (get_pkg_spec_outcome _ PV Ver_le pkg (Some ver) py pkg_db group Hget).
    rewrite scan_bound_parsed; [| intros _; exact Hver | now apply Forall_rev].
    now destruct (find _ _). }
  pose proof (candidates_sorted py group (parsed_group_sorted _ _ _ _ Hget Hall)) as Hs.
  destruct (find (qualifies PV Ver_le ver) (List.rev (candidates py group)))
    as [x |] eqn:Ef.
  - apply find_rev_last in Ef as (pre & post & E & Hq & Hpost).
    split; [| split].
    + intros p Hp. rewrite Hres in Hp. injection Hp as <-.
      assert (Hx : In x (candidates py group))
        by (rewrite E; apply in_or_app; right; now left).
      split; [exact Hx | split; [exact Hq |]].
      intros q Hin Hqq. rewrite E in Hs, Hin.
      apply StronglySorted_split in Hs as [Hpre _].
      apply in_app_or in Hin as [Hin | [<- | Hin]].
      * rewrite Forall_forall in Hpre. now apply Hpre.
      * apply version_le_refl. rewrite Forall_forall in Hc. now apply Hc.
      * rewrite Forall_forall in Hpost. rewrite (Hpost q Hin) in Hqq. discriminate.
    + intros e He. rewrite Hres in He. discriminate.
    + intros Hnone. exfalso.
      rewrite (Hnone x) in Hq; [discriminate |].
      rewrite E. apply in_or_app. right. now left.
  - apply find_none_all in Ef. split; [| split].
    + intros p Hp. rewrite Hres in Hp. discriminate.
    + intros e He. rewrite Hres in He. injection He as <-. split; [reflexivity |].
      intros q Hin. rewrite Forall_forall in Ef. apply Ef. now apply -> in_rev.
    + intros _. exact Hres.
Qed.
End ResolvedFromDatabase.

(** ** The database build, whatever the order of the versions *)

Lemma NoDup_snoc {T : Type} (l : list T) (u : T) :
  NoDup l -> ~ In u l -> NoDup (l ++ [u]).
Proof.
  induction 1 as [| x l Hx Hl IH]; cbn [app]; intros Hu.
  - constructor; [intros [] | constructor].
  - constructor.
    + rewrite in_app_iff. intros [H | [<- | []]]; [contradiction |].
      apply Hu. now left.
    + apply IH. intros H. apply Hu. now right.
Qed.

Lemma NoDup_add_key (ks : list string) (u : string) :
  NoDup ks -> NoDup (add_key ks u).
Proof.
  intros H. unfold add_key. destruct (existsb (String.eqb u) ks) eqn:E; [exact H |].
  apply NoDup_snoc; [exact H |]. intros Hu.
  assert (existsb (String.eqb u) ks = true)
    by (apply existsb_exists; exists u; split; [exact Hu | apply String.eqb_refl]).
  congruence.
Qed.

Lemma in_add_key (ks : list string) (u k : string) :
  In k (add_key ks u) <-> In k ks \/ k = u.
Proof.
  unfold add_key. destruct (existsb (String.eqb u) ks) eqn:E.
  - split; [tauto |]. intros [H | ->]; [exact H |].
    apply existsb_exists in E as (x & Hx & Hux). apply String.eqb_eq in Hux. now subst.
  - rewrite in_app_iff. cbn. intuition congruence.
Qed.

Lemma dict_get_none_iff {V} (k : string) (d : dict V) :
  dict_get k d = None <-> ~ In k (dict_keys d).
Proof.
  induction d as [| [k' v] d IH]; cbn [dict_get dict_keys map fst In]; [tauto |].
  destruct (String.eqb_spec k k') as [-> | Hne].
  - split; [discriminate | intros H; elim H; now left].
  - fold (dict_keys d). rewrite IH. intuition congruence.
Qed.

Lemma sort_group_perm {Ver : Type} (PV : string -> option Ver)
      (Ver_lt : Ver -> Ver -> bool) (l : list PackageRecord) :
  Permutation l (sort_group PV Ver_lt l).
Proof.
  unfold sort_group.
  destruct (sorted Ver_lt (fun x => PV (version x)) l) as [l' |] eqn:E.
  - eapply sorted_perm; eassumption.
  - destruct (sorted tuple_lt (fun x => Some (tuple_key x)) l) as [l' |] eqn:E';
      [| apply Permutation_refl].
    eapply sorted_perm; eassumption.
Qed.

Lemma group_records_keys (forge_url : string) (data : list (string * RepoEntry))
      (db : dict (list PackageRecord)) :
  NoDup (dict_keys db) ->
  NoDup (dict_keys
           (fold_left (fun db e => db_append db (e_name (snd e))
                                     (make_record forge_url (fst e) (snd e)))
                      data db)).
Proof.
  revert db. induction data as [| e data IH]; intros db H; [exact H |].
  cbn [fold_left]. apply IH. unfold db_append.
  destruct (dict_get (e_name (snd e)) db); rewrite dict_keys_set;
    now apply NoDup_add_key.
Qed.

Lemma dict_keys_map_values {V W} (f : V -> W) (d : dict V) :
  dict_keys (map (fun kv => (fst kv, f (snd kv))) d) = dict_keys d.
Proof. unfold dict_keys. rewrite map_map. reflexivity. Qed.

Lemma records_named_nil (forge_url k : string) (data : list (string * RepoEntry)) :
  records_named forge_url k data = [] <->
  forall fname e, In (fname, e) data -> e_name e <> k.
Proof.
  unfold records_named. split.
  - intros H fname e Hin He.
    assert (Hf : In (fname, e) (filter (fun e => String.eqb (e_name (snd e)) k) data)).
    { apply filter_In. split; [exact Hin |]. cbn. now apply String.eqb_eq. }
    destruct (filter _ data); [contradiction | discriminate].
  - intros H. destruct (filter _ data) as [| [fname e] l] eqn:E; [reflexivity |].
    exfalso.
    assert (Hin : In (fname, e) (filter (fun e => String.eqb (e_name (snd e)) k) data))
      by (rewrite E; now left).
    apply filter_In in Hin as [Hin He]. cbn in He. apply String.eqb_eq in He.
    exact (H fname e Hin He).
Qed.

Section DatabaseMore.
Variable Ver : Type.
Variable PV : string -> option Ver.
Variable Ver_lt Ver_le : Ver -> Ver -> bool.

(** X5.  In the database every record is filed under its own name and was
    made from an entry of the listing of that name: its [nv] is the name, a
    dash and the version, its URL the base URL, the subdirectory and the
    file name; a group has as many records as the listing has entries of
    the name. *)
Theorem database_records
        (data : list (string * RepoEntry)) (forge_url k : string)
        (g : list PackageRecord) :
  dict_get k (parse_repodata PV Ver_lt data forge_url) = Some g ->
  Forall (fun r =>
            name r = k
            /\ nv r = k ++ "-" ++ version r
            /\ exists fname e,
                In (fname, e) data /\ e_name e = k
                /\ version r = e_version e /\ build r = e_build e
                /\ depends r = e_depends e
                /\ url r = forge_url ++ "/" ++ e_subdir e ++ "/" ++ fname) g
  /\ List.length g =
     List.length (filter (fun e => String.eqb (e_name (snd e)) k) data).
Proof.
  intros Hget. rewrite parse_repodata_get in Hget.
  destruct (records_named forge_url k data) as [| r raw'] eqn:Eraw; [discriminate |].
  injection Hget as <-. rewrite <- Eraw.
  pose proof (sort_group_perm PV Ver_lt (records_named forge_url k data)) as Hp.
  split.
  - apply (Permutation_Forall Hp). unfold records_named.
    apply Forall_forall. intros x Hx.
    apply in_map_iff in Hx as ([fname e] & <- & Hin).
    apply filter_In in Hin as [Hin He]. cbn in He. apply String.eqb_eq in He.
    cbn [make_record name nv version fst snd]. rewrite He.
    split; [reflexivity | split; [reflexivity |]].
    exists fname, e. now repeat split.
  - rewrite <- (Permutation_length Hp). unfold records_named. apply length_map.
Qed.

(** X6.  The names of the database are the names of the listing, each
    once; a name of the listing is resolved, without an upper bound, to
    some record, whatever the build filter. *)
Theorem database_names
        (data : list (string * RepoEntry)) (forge_url : string) :
  let pkg_db := parse_repodata PV Ver_lt data forge_url in
  NoDup (dict_keys pkg_db)
  /\ (forall k, In k (dict_keys pkg_db) <->
                exists fname e, In (fname, e) data /\ e_name e = k)
  /\ (forall fname e py,
         In (fname, e) data ->
         exists p, outcome (get_pkg_spec PV Ver_le (e_name e) None py pkg_db) = inr p).
Proof.
  intros pkg_db.
  assert (Hkeys : forall k, In k (dict_keys pkg_db) <->
                            exists fname e, In (fname, e) data /\ e_name e = k).
  { intros k. split.
    - intros Hin. destruct (dict_get k pkg_db) as [g |] eqn:E.
      + unfold pkg_db in E. rewrite parse_repodata_get in E.
        destruct (records_named forge_url k data) as [| r l] eqn:Er; [discriminate |].
        unfold records_named in Er.
        destruct (filter (fun e => String.eqb (e_name (snd e)) k) data)
          as [| [fname e] f] eqn:Ef; [discriminate |].
        assert (Hf : In (fname, e)
                        (filter (fun e => String.eqb (e_name (snd e)) k) data))
          by (rewrite Ef; now left).
        apply filter_In in Hf as [Hf He]. cbn in He. apply String.eqb_eq in He.
        now exists fname, e.
      + apply dict_get_none_iff in E. contradiction.
    - intros (fname & e & Hin & He).
      destruct (dict_get k pkg_db) as [g |] eqn:E.
      + destruct (in_dec string_dec k (dict_keys pkg_db)) as [H | H]; [exact H |].
        apply dict_get_none_iff in H. congruence.
      + exfalso. unfold pkg_db in E. rewrite parse_repodata_get in E.
        destruct (records_named forge_url k data) eqn:Er; [| discriminate].
        exact (proj1 (records_named_nil forge_url k data) Er fname e Hin He). }
  split; [| split; [exact Hkeys |]].
  - unfold pkg_db, parse_repodata. rewrite dict_keys_map_values.
    apply group_records_keys. constructor.
  - intros fname e py Hin.
    destruct (dict_get (e_name e) pkg_db) as [g |] eqn:E.
    + rewrite (get_pkg_spec_outcome _ PV Ver_le (e_name e) None py pkg_db g E).
      assert (Hg : g <> []).
      { unfold pkg_db in E. rewrite parse_repodata_get in E.
        destruct (records_named forge_url (e_name e) data) as [| r l]; [discriminate |].
        injection E as <-. intros Hnil.
        pose proof (sort_group_perm PV Ver_lt (r :: l)) as Hp.
        rewrite Hnil in Hp. now apply Permutation_sym, Permutation_nil in Hp. }
      assert (Hc : candidates py g <> []).
      { unfold candidates. destruct (truthy py) as [f |]; [| exact Hg].
        destruct (narrowed f g); [exact Hg | discriminate]. }
      destruct (List.rev (candidates py g)) as [| p l] eqn:Er.
      * exfalso. apply Hc. apply (f_equal (@List.rev _)) in Er.
        now rewrite rev_involutive in Er.
      * now exists p.
    + exfalso. apply dict_get_none_iff in E. apply E, Hkeys. now exists fname, e.
Qed.
End DatabaseMore.

(** ** Unpacking *)

Lemma last_Forall {T : Type} (P : T -> Prop) (l : list T) (d : T) :
  Forall P l -> P d -> P (List.last l d).
Proof.
  induction 1 as [| x l Hx Hl IH]; intros Hd; [exact Hd |].
  cbn [List.last]. destruct l; [exact Hx | now apply IH].
Qed.

Lemma basename_no_slash (p : string) :
  Str.has_char Path.slash (Path.basename p) = false.
Proof.
  unfold Path.basename. apply last_Forall; [apply split_pieces | reflexivity].
Qed.

Lemma no_slash_relative (b : string) :
  Str.has_char Path.slash b = false -> Str.startswith b "/" = false.
Proof.
  destruct b as [| c b]; [reflexivity |]. intros H.
  unfold Str.startswith.
  change (String.prefix "/" (String c b))
    with (match ascii_dec "/"%char c with
          | left _ => String.prefix "" b
          | right _ => false
          end).
  destruct (ascii_dec "/"%char c) as [<- |]; [| reflexivity].
  cbn in H. discriminate.
Qed.

Lemma prefix_app_r (p x y : string) :
  String.prefix p x = true -> String.prefix p (x ++ y) = true.
Proof.
  intros H. destruct (prefix_split p x H) as [r ->].
  rewrite append_assoc. apply prefix_app.
Qed.

Lemma contains_app_r (sub x y : string) :
  Str.contains sub x = true -> Str.contains sub (x ++ y) = true.
Proof.
  induction x as [| c x IH]; cbn [Str.contains append]; intros H.
  - rewrite orb_false_r in H. destruct sub; [| discriminate].
    now destruct y.
  - apply orb_true_iff in H as [H | H].
    + pose proof (prefix_app_r sub (String c x) y H) as H'. cbn [append] in H'.
      now rewrite H'.
    + rewrite (IH H). apply orb_true_r.
Qed.

Lemma contains_join_l (sub w b : string) :
  Str.startswith b "/" = false ->
  Str.contains sub w = true ->
  Str.contains sub (Path.join w b) = true.
Proof.
  intros Hb Hw. unfold Path.join. rewrite Hb.
  destruct (String.eqb w "" || Str.endswith w "/")%bool; now apply contains_app_r.
Qed.

Section UnpackerMore.
Variable urlparse_path : string -> string.
Variable abspath : string -> string.

(** X7.  [extract_archive] makes one call.  For zst it extracts the
    archive, both paths made absolute; for conda it unpacks as zip; for
    zip, tar, tar.gz, tgz, gztar, bztar, tar.bz2, xztar and tar.zx it
    unpacks by the extension of the archive.  For every other format, and
    for no format of these eleven, it raises UnsupportedFormatError before
    any call; tar.xz is such a format. *)
Theorem extract_archive_formats (archive out_path format : string) :
  (format = "zst" ->
   events (extract_archive abspath archive out_path format) =
   [ZstExtractAll (abspath archive) (abspath out_path)])
  /\ (format = "conda" ->
      events (extract_archive abspath archive out_path format) =
      [UnpackArchive archive out_path (Some "zip")])
  /\ (In format ["zip"; "tar"; "tar.gz"; "tgz"; "gztar"; "bztar"; "tar.bz2";
                 "xztar"; "tar.zx"] ->
      events (extract_archive abspath archive out_path format) =
      [UnpackArchive archive out_path None])
  /\ (extract_archive abspath archive out_path format =
      ([], inl (UnsupportedFormatError format)) <->
      ~ In format ["zst"; "conda"; "zip"; "tar"; "tar.gz"; "tgz"; "gztar"; "bztar";
                   "tar.bz2"; "xztar"; "tar.zx"])
  /\ extract_archive abspath archive out_path "tar.xz" =
     ([], inl (UnsupportedFormatError "tar.xz")).
Proof.
  split; [| split; [| split; [| split]]].
  - intros ->. reflexivity.
  - intros ->. reflexivity.
  - intros H. cbn [In] in H.
    repeat (destruct H as [<- | H]; [reflexivity |]). contradiction.
  - split.
    + intros H Hin. cbn [In] in Hin.
      repeat (destruct Hin as [<- | Hin]; [discriminate H |]). contradiction.
    + intros H. unfold extract_archive.
      destruct (String.eqb_spec format "zst") as [-> | _]; [elim H; now left |].
      destruct (String.eqb_spec format "conda") as [-> | _];
        [elim H; right; now left |].
      destruct (existsb (String.eqb format) plain_formats) eqn:E; [| reflexivity].
      exfalso. apply existsb_exists in E as (x & Hx & Hfx).
      apply String.eqb_eq in Hfx. subst x. apply H. now do 2 right.
  - reflexivity.
Qed.

(** X8.  The calls of the unpacking, in the order in which they are
    reached: the artifact is fetched into the work directory, the
    extraction directory is removed and made anew, and every unpacking
    that follows writes into that directory.  The two layers are taken
    whenever the path of the fetched file holds .conda, be it in the name of
    the work directory only, so that an artifact of another format is then
    handed to the unpacking as a zip; otherwise the archive is unpacked
    once, by its extension. *)
Theorem unpack_into_extraction_directory (pkg_spec : PackageRecord) (workdir : string) :
  let base := url_basename urlparse_path (url pkg_spec) in
  let out_fn := Path.join workdir base in
  let extract_dir := extract_dir_of urlparse_path pkg_spec workdir in
  exists evs,
    events (unpack_artifact urlparse_path abspath pkg_spec workdir) =
    DownloadFile (url pkg_spec) out_fn :: Rmtree extract_dir :: Makedirs extract_dir
      :: evs
    /\ Path.basename out_fn = base
    /\ (Str.contains ".conda" out_fn = false ->
        evs = [UnpackArchive out_fn extract_dir None])
    /\ (Str.contains ".conda" out_fn = true ->
        evs = [UnpackArchive out_fn extract_dir (Some "zip");
               ZstExtractAll
                 (abspath (Path.join extract_dir
                             ("info-" ++ Str.replace base ".conda" ".tar.zst")))
                 (abspath extract_dir)])
    /\ (Str.contains ".conda" workdir = true -> Str.contains ".conda" out_fn = true).
Proof.
  intros base out_fn extract_dir.
  assert (Hb : Str.has_char Path.slash base = false) by apply basename_no_slash.
  assert (Hr : Str.startswith base "/" = false) by now apply no_slash_relative.
  assert (Hbase : Path.basename out_fn = base) by now apply basename_join.
  unfold unpack_artifact. fold base. fold out_fn. rewrite Hbase.
  fold (extract_dir_of urlparse_path pkg_spec workdir). fold extract_dir.
  destruct (Str.contains ".conda" out_fn) eqn:E; cbn; eexists;
    (split; [reflexivity |]); (split; [reflexivity |]);
    (split; [intros H; try discriminate H; reflexivity |]);
    (split; [intros H; try discriminate H; reflexivity |]).
  - reflexivity.
  - intros Hw. rewrite <- E. now apply contains_join_l.
Qed.
End UnpackerMore.

(** ** The pipeline *)

Lemma last_written_last (l : list event) (p t d : string) :
  last_written (l ++ [WriteFile p t]) d = t.
Proof.
  revert d. induction l as [| ev l IH]; intros d; [reflexivity |].
  cbn [app last_written]. destruct ev; apply IH.
Qed.

Lemma load_urls_cases (meta : Meta) :
  (existsb lacks_hash (sources_of meta) = true
   /\ exists u, load_urls meta = ([], inl (MissingHashError u)))
  \/ (existsb lacks_hash (sources_of meta) = false
      /\ exists d, load_urls meta = ([], inr d)).
Proof.
  rewrite load_urls_sources.
  destruct (existsb lacks_hash (sources_of meta)) eqn:E.
  - left. split; [reflexivity |].
    destruct (first_lacking _ E) as (pre & item & post & -> & Hpre & Hit).
    assert (Hu : exists u, i_url item = Some u).
    { unfold lacks_hash in Hit. destruct (i_url item) as [u |]; [now exists u | discriminate]. }
    destruct Hu as [u Hu]. exists u. now apply load_urls_loop_failure.
  - right. split; [reflexivity |].
    assert (Hall : Forall (fun x => lacks_hash x = false) (sources_of meta)).
    { apply Forall_forall. intros x Hx. destruct (lacks_hash x) eqn:Ex; [| reflexivity].
      assert (existsb lacks_hash (sources_of meta) = true)
        by (apply existsb_exists; now exists x).
      congruence. }
    destruct (load_urls_loop_success (sources_of meta) [] Hall) as (d & Hd & _).
    now exists d.
Qed.

Lemma line_diag_no_effect (urls : dict SourceEntry) (lines : list string) :
  filter is_effect (flat_map (line_diag urls) lines) = [].
Proof.
  induction lines as [| line lines IH]; [reflexivity |].
  cbn [flat_map]. rewrite filter_app, IH, app_nil_r. unfold line_diag.
  destruct (re_match url_regex line) as [m |]; [| reflexivity].
  now destruct (find_url (group 2 m) (group 3 m) urls).
Qed.

Lemma source_downloads_all (urlparse_path : string -> string)
      (pkg pkgs_dir : string) (d : dict SourceEntry) :
  filter is_download (source_downloads urlparse_path pkg pkgs_dir d) =
  source_downloads urlparse_path pkg pkgs_dir d.
Proof.
  unfold source_downloads. induction d as [| kv d IH]; [reflexivity |].
  cbn [map filter is_download]. now rewrite IH.
Qed.

Section PipelineMore.
Variable urlparse_path : string -> string.
Variable abspath : string -> string.
Variable relpath : string -> string -> string.

Lemma unpack_artifact_outcome (pkg_spec : PackageRecord) (workdir : string) :
  unpack_artifact urlparse_path abspath pkg_spec workdir =
  (events (unpack_artifact urlparse_path abspath pkg_spec workdir),
   inr (extract_dir_of urlparse_path pkg_spec workdir)).
Proof.
  assert (Hb : Str.has_char Path.slash (url_basename urlparse_path (url pkg_spec)) = false)
    by apply basename_no_slash.
  unfold unpack_artifact, extract_dir_of.
  rewrite (basename_join workdir _ (no_slash_relative _ Hb) Hb).
  now destruct (Str.contains ".conda" _).
Qed.

(** The two ways the rewriting of the sources ends. *)
Lemma rewrite_sources_cases (pkg pkgs_dir meta_yaml_tpl : string) (meta : Meta)
      (text : string) :
  (existsb lacks_hash (sources_of meta) = true
   /\ exists u,
       rewrite_sources urlparse_path relpath pkg pkgs_dir meta_yaml_tpl meta text =
       ([], inl (MissingHashError u)))
  \/ (existsb lacks_hash (sources_of meta) = false
      /\ exists downloads diags text',
          rewrite_sources urlparse_path relpath pkg pkgs_dir meta_yaml_tpl meta text =
          ((downloads ++ diags ++ [WriteFile meta_yaml_tpl text'])%list, inr tt)
          /\ filter is_download downloads = downloads
          /\ filter is_effect diags = []).
Proof.
  destruct (load_urls_cases meta) as [[E [u Hu]] | [E [d Hd]]].
  - left. split; [exact E |]. exists u. unfold rewrite_sources. now rewrite Hu.
  - right. split; [exact E |].
    exists (source_downloads urlparse_path pkg pkgs_dir d),
      (flat_map (line_diag (with_dest_fn urlparse_path pkg d)) (Str.split Str.nl text)).
    eexists. split; [| split].
    + unfold rewrite_sources. rewrite Hd. cbn [bind app].
      rewrite (M_eta (download_sources urlparse_path pkg pkgs_dir d)).
      rewrite download_sources_events, download_sources_outcome.
      fold (with_dest_fn urlparse_path pkg d).
      fold (source_downloads urlparse_path pkg pkgs_dir d).
      cbn [bind]. rewrite replace_urls_result, diag_flat_map. reflexivity.
    + apply source_downloads_all.
    + apply line_diag_no_effect.
Qed.

(** The log of [create_feedstock], around that of the rewriting. *)
Lemma create_feedstock_trace
      (pkg_spec : PackageRecord) (fs : Unpacked)
      (workdir recipes_dir pkgs_dir : string)
      (revs : list event) (res : error + unit) :
  let old_recipe := old_recipe_of urlparse_path pkg_spec workdir in
  let new_recipe := new_recipe_of pkg_spec recipes_dir in
  let tpl := template_of pkg_spec fs recipes_dir in
  let meta_yaml := Path.join new_recipe "meta.yaml" in
  rewrite_sources urlparse_path relpath (name pkg_spec) pkgs_dir tpl
                  (meta_doc fs) (tpl_text fs) = (revs, res) ->
  create_feedstock urlparse_path abspath relpath pkg_spec fs
                   workdir recipes_dir pkgs_dir =
  ((events (unpack_artifact urlparse_path abspath pkg_spec workdir)
    ++ [Makedirs recipes_dir]
    ++ (if exists_new_recipe fs then [Rmtree new_recipe] else [])
    ++ (if exists_parent fs
        then [Copytree (Path.join old_recipe "parent") new_recipe]
        else Copytree old_recipe new_recipe
             :: (if exists_conda_build_cfg fs
                 then [Remove (Path.join new_recipe "conda_build_config.yaml")]
                 else []))
    ++ revs
    ++ match res with
       | inl _ => []
       | inr _ =>
           (if exists_parent fs then [] else [Remove meta_yaml; Move tpl meta_yaml])
           ++ [AppendFile (Path.join workdir "deps.txt")
                 (deps_entry pkg_spec
                    (extract_reqs (last_written revs (tpl_text fs))))]
       end)%list,
   match res with inl e => inl e | inr _ => inr tt end).
Proof.
  cbv zeta. unfold template_of. unfold old_recipe_of, new_recipe_of. intros H.
  unfold create_feedstock. rewrite unpack_artifact_outcome.
  destruct (exists_new_recipe fs), (exists_parent fs), (exists_conda_build_cfg fs);
    cbn [bind emit ret fst snd app events] in *; rewrite H;
    destruct res as [e | []]; cbn [bind emit ret fst snd app events];
    rewrite <- ?app_assoc; cbn [app]; rewrite ?app_nil_r;
    reflexivity.
Qed.
End PipelineMore.

Lemma filter_none_of {T : Type} (f g : T -> bool) (l : list T) :
  (forall x, g x = true -> f x = false) -> filter g l = l -> filter f l = [].
Proof.
  intros Hfg. induction l as [| x l IH]; [reflexivity |].
  cbn [filter]. destruct (g x) eqn:Eg.
  - intros [= H]. rewrite (Hfg x Eg). now apply IH.
  - intros H. exfalso.
    assert (Hin : In x (filter g l)) by (rewrite H; now left).
    apply filter_In in Hin as [_ Hgx]. congruence.
Qed.

Lemma filter_sub_nil {T : Type} (f g : T -> bool) (l : list T) :
  (forall x, f x = true -> g x = true) -> filter g l = [] -> filter f l = [].
Proof.
  intros Hfg. induction l as [| x l IH]; [reflexivity |].
  cbn [filter]. destruct (g x) eqn:Eg; [discriminate |].
  intros H. destruct (f x) eqn:Ef; [| now apply IH].
  rewrite (Hfg x Ef) in Eg. discriminate.
Qed.

Lemma last_written_last' (l1 l2 : list event) (p t d : string) :
  last_written (l1 ++ l2 ++ [WriteFile p t]) d = t.
Proof. rewrite app_assoc. apply last_written_last. Qed.

Ltac push_filter :=
  repeat first
    [ rewrite filter_app
    | progress cbn [app filter is_finalize is_copy is_write is_append
                    is_move is_download is_effect is_unpack] ].

Ltac push_filter_in H :=
  repeat first
    [ rewrite filter_app in H
    | progress cbn [app filter is_finalize is_copy is_write is_append
                    is_move is_download is_effect is_unpack] in H ].

Section FeedstockRuns.
Variable urlparse_path : string -> string.
Variable abspath : string -> string.
Variable relpath : string -> string -> string.

Lemma unpack_events_form (pkg_spec : PackageRecord) (workdir : string) :
  exists out_fn dir rest,
    events (unpack_artifact urlparse_path abspath pkg_spec workdir) =
    DownloadFile (url pkg_spec) out_fn :: Rmtree dir :: Makedirs dir :: rest
    /\ filter is_unpack rest = rest.
Proof.
  unfold unpack_artifact.
  destruct (Str.contains ".conda" _); cbn; do 3 eexists; split; reflexivity.
Qed.

(** X9.  For a recipe with a [parent] directory, that directory is what is
    copied, once, to the recipe of the feedstock; the document that is
    rewritten is the meta.yaml of the copy; and no file is removed or
    moved: there is no finalization. *)
Theorem multi_output_recipe
        (pkg_spec : PackageRecord) (fs : Unpacked)
        (workdir recipes_dir pkgs_dir : string) :
  exists_parent fs = true ->
  let run := create_feedstock urlparse_path abspath relpath pkg_spec fs
                              workdir recipes_dir pkgs_dir in
  let old_recipe := old_recipe_of urlparse_path pkg_spec workdir in
  let new_recipe := new_recipe_of pkg_spec recipes_dir in
  filter is_finalize (events run) = []
  /\ filter is_copy (events run) = [Copytree (Path.join old_recipe "parent") new_recipe]
  /\ (forall p t, In (WriteFile p t) (events run) ->
                  p = Path.join new_recipe "meta.yaml").
Proof.
  intros Hp run old_recipe new_recipe.
  destruct (rewrite_sources_cases urlparse_path relpath (name pkg_spec) pkgs_dir
              (template_of pkg_spec fs recipes_dir) (meta_doc fs) (tpl_text fs))
    as [[_ [u H]] | [_ (dl & dg & text' & H & Hdl & Hdg)]];
    pose proof (create_feedstock_trace urlparse_path abspath relpath pkg_spec fs
                  workdir recipes_dir pkgs_dir _ _ H) as Ht;
    cbv zeta in Ht; fold old_recipe new_recipe in Ht; rewrite Hp in Ht;
    unfold run; rewrite Ht; cbn [events fst];
    destruct (unpack_events_form pkg_spec workdir) as (o & d & rest & -> & Hrest);
    assert (Hf : filter is_finalize rest = [])
      by (apply (filter_none_of _ is_unpack); [now intros [] | exact Hrest]);
    assert (Hc : filter is_copy rest = [])
      by (apply (filter_none_of _ is_unpack); [now intros [] | exact Hrest]);
    assert (Hw : filter is_write rest = [])
      by (apply (filter_none_of _ is_unpack); [now intros [] | exact Hrest]).
  - destruct (exists_new_recipe fs); push_filter; rewrite ?Hf, ?Hc; push_filter;
      (split; [reflexivity | split; [reflexivity |]]);
      intros p t Hin;
      match type of Hin with In _ ?l =>
        assert (Hin' : In (WriteFile p t) (filter is_write l))
          by (apply filter_In; split; [exact Hin | reflexivity])
      end;
      push_filter_in Hin'; rewrite ?Hw in Hin'; push_filter_in Hin';
      contradiction.
  - assert (Hdf : filter is_finalize dl = [])
      by (apply (filter_none_of _ is_download); [now intros [] | exact Hdl]).
    assert (Hdc : filter is_copy dl = [])
      by (apply (filter_none_of _ is_download); [now intros [] | exact Hdl]).
    assert (Hdw : filter is_write dl = [])
      by (apply (filter_none_of _ is_download); [now intros [] | exact Hdl]).
    assert (Hgf : filter is_finalize dg = [])
      by (apply (filter_sub_nil _ is_effect); [now intros [] | exact Hdg]).
    assert (Hgc : filter is_copy dg = [])
      by (apply (filter_sub_nil _ is_effect); [now intros [] | exact Hdg]).
    assert (Hgw : filter is_write dg = [])
      by (apply (filter_sub_nil _ is_effect); [now intros [] | exact Hdg]).
    unfold template_of. rewrite Hp. fold new_recipe.
    destruct (exists_new_recipe fs); push_filter;
      rewrite ?Hf, ?Hc, ?Hdf, ?Hdc, ?Hgf, ?Hgc; push_filter;
      (split; [reflexivity | split; [reflexivity |]]);
      intros p t Hin;
      match type of Hin with In _ ?l =>
        assert (Hin' : In (WriteFile p t) (filter is_write l))
          by (apply filter_In; split; [exact Hin | reflexivity])
      end;
      push_filter_in Hin'; rewrite ?Hw, ?Hdw, ?Hgw in Hin'; push_filter_in Hin';
      destruct Hin' as [[= <- _] | []]; reflexivity.
Qed.
(** X10.  For a recipe without a [parent] directory whose sources all
    declare a hash, the calls of [create_feedstock] end so: the template is
    written once, the old meta.yaml removed, the template moved in its
    place, and one entry appended to deps.txt, holding the requirements that
    [extract_reqs] finds in the text just written.  Nothing is written,
    moved or appended before. *)
Theorem single_output_finalization
        (pkg_spec : PackageRecord) (fs : Unpacked)
        (workdir recipes_dir pkgs_dir : string) :
  exists_parent fs = false ->
  existsb lacks_hash (sources_of (meta_doc fs)) = false ->
  let run := create_feedstock urlparse_path abspath relpath pkg_spec fs
                              workdir recipes_dir pkgs_dir in
  let new_recipe := new_recipe_of pkg_spec recipes_dir in
  let tpl := Path.join new_recipe "meta.yaml.template" in
  let meta_yaml := Path.join new_recipe "meta.yaml" in
  exists pre text',
    events run =
      (pre ++ [WriteFile tpl text'; Remove meta_yaml; Move tpl meta_yaml;
               AppendFile (Path.join workdir "deps.txt")
                          (deps_entry pkg_spec (extract_reqs text'))])%list
    /\ filter is_write pre = []
    /\ filter is_move pre = []
    /\ filter is_append pre = [].
Proof.
  intros Hp Hok run new_recipe tpl meta_yaml.
  destruct (rewrite_sources_cases urlparse_path relpath (name pkg_spec) pkgs_dir
              (template_of pkg_spec fs recipes_dir) (meta_doc fs) (tpl_text fs))
    as [[Hbad _] | [_ (dl & dg & text' & H & Hdl & Hdg)]]; [congruence |].
  pose proof (create_feedstock_trace urlparse_path abspath relpath pkg_spec fs
                workdir recipes_dir pkgs_dir _ _ H) as Ht.
  cbv zeta in Ht. unfold template_of in Ht. rewrite Hp in Ht.
  fold new_recipe tpl meta_yaml in Ht. rewrite last_written_last' in Ht.
  exists (events (unpack_artifact urlparse_path abspath pkg_spec workdir)
          ++ [Makedirs recipes_dir]
          ++ (if exists_new_recipe fs then [Rmtree new_recipe] else [])
          ++ (Copytree (old_recipe_of urlparse_path pkg_spec workdir) new_recipe
              :: (if exists_conda_build_cfg fs
                  then [Remove (Path.join new_recipe "conda_build_config.yaml")]
                  else []))
          ++ dl ++ dg)%list, text'.
  unfold run. rewrite Ht. cbn [events outcome fst snd].
  split.
  - rewrite <- !app_assoc. cbn [app]. reflexivity.
  - destruct (unpack_events_form pkg_spec workdir) as (o & d & rest & -> & Hrest).
    assert (Hw : filter is_write rest = [] /\ filter is_move rest = []
                 /\ filter is_append rest = []).
    { repeat split; apply (filter_none_of _ is_unpack); try exact Hrest; now intros []. }
    assert (Hd : filter is_write dl = [] /\ filter is_move dl = []
                 /\ filter is_append dl = []).
    { repeat split; apply (filter_none_of _ is_download); try exact Hdl; now intros []. }
    assert (Hg : filter is_write dg = [] /\ filter is_move dg = []
                 /\ filter is_append dg = []).
    { repeat split; apply (filter_sub_nil _ is_effect); try exact Hdg; now intros []. }
    destruct Hw as (W1 & W2 & W3), Hd as (D1 & D2 & D3), Hg as (G1 & G2 & G3).
    destruct (exists_new_recipe fs), (exists_conda_build_cfg fs);
      push_filter; rewrite ?W1, ?W2, ?W3, ?D1, ?D2, ?D3, ?G1, ?G2, ?G3;
      repeat split; reflexivity.
Qed.

(** X11.  When some source with a URL declares no hash, the log of
    [create_feedstock] holds no write of a document, no move and no append:
    the recipe is left as it was copied and deps.txt as it was.  And
    MissingHashError is raised for no other reason: some source declares
    the URL it names and no hash. *)
Theorem missing_hash_leaves_recipe
        (pkg_spec : PackageRecord) (fs : Unpacked)
        (workdir recipes_dir pkgs_dir : string) :
  let run := create_feedstock urlparse_path abspath relpath pkg_spec fs
                              workdir recipes_dir pkgs_dir in
  (existsb lacks_hash (sources_of (meta_doc fs)) = true ->
   filter is_write (events run) = []
   /\ filter is_move (events run) = []
   /\ filter is_append (events run) = [])
  /\ (forall u, outcome run = inl (MissingHashError u) ->
                exists item, In item (sources_of (meta_doc fs))
                             /\ i_url item = Some u /\ lacks_hash item = true).
Proof.
  intros run.
  destruct (rewrite_sources_cases urlparse_path relpath (name pkg_spec) pkgs_dir
              (template_of pkg_spec fs recipes_dir) (meta_doc fs) (tpl_text fs))
    as [[Hbad [u H]] | [Hok (dl & dg & text' & H & _)]];
    pose proof (create_feedstock_trace urlparse_path abspath relpath pkg_spec fs
                  workdir recipes_dir pkgs_dir _ _ H) as Ht;
    cbv zeta in Ht; unfold run; rewrite Ht; cbn [events outcome fst snd].
  - split.
    + intros _.
      destruct (unpack_events_form pkg_spec workdir) as (o & d & rest & -> & Hrest).
      assert (Hw : filter is_write rest = [] /\ filter is_move rest = []
                   /\ filter is_append rest = []).
      { repeat split; apply (filter_none_of _ is_unpack); try exact Hrest; now intros []. }
      destruct Hw as (W1 & W2 & W3).
      destruct (exists_new_recipe fs), (exists_parent fs), (exists_conda_build_cfg fs);
        push_filter; rewrite ?W1, ?W2, ?W3; repeat split; reflexivity.
    + intros u' [= <-].
      unfold rewrite_sources in H. rewrite load_urls_sources in H.
      destruct (first_lacking _ Hbad) as (pre & item & post & E & Hpre & Hit).
      assert (Hu : exists ui, i_url item = Some ui).
      { unfold lacks_hash in Hit.
        destruct (i_url item) as [ui |]; [now exists ui | discriminate]. }
      destruct Hu as [ui Hu].
      rewrite E, (load_urls_loop_failure pre item post ui [] Hpre Hu Hit) in H.
      cbn [bind] in H. injection H as <-.
      exists item. split; [rewrite E; apply in_or_app; right; now left |].
      split; [exact Hu | exact Hit].
  - split; [intros Hb; congruence |].
    intros u [=].
Qed.

(** X12.  When the recipe of the feedstock exists already, it is removed
    and the copy follows at once: the new recipe replaces the old one and is
    not merged into it. *)
Theorem existing_recipe_replaced
        (pkg_spec : PackageRecord) (fs : Unpacked)
        (workdir recipes_dir pkgs_dir : string) :
  exists_new_recipe fs = true ->
  let run := create_feedstock urlparse_path abspath relpath pkg_spec fs
                              workdir recipes_dir pkgs_dir in
  let new_recipe := new_recipe_of pkg_spec recipes_dir in
  exists before src after,
    events run = (before ++ Rmtree new_recipe :: Copytree src new_recipe :: after)%list
    /\ filter is_copy before = []
    /\ filter is_copy after = [].
Proof.
  intros Hn run new_recipe.
  destruct (unpack_events_form pkg_spec workdir) as (o & d & rest & Hu & Hrest).
  assert (Hc : filter is_copy rest = [])
    by (apply (filter_none_of _ is_unpack); [now intros [] | exact Hrest]).
  exists (DownloadFile (url pkg_spec) o :: Rmtree d :: Makedirs d
          :: rest ++ [Makedirs recipes_dir])%list.
  destruct (rewrite_sources_cases urlparse_path relpath (name pkg_spec) pkgs_dir
              (template_of pkg_spec fs recipes_dir) (meta_doc fs) (tpl_text fs))
    as [[_ [u H]] | [_ (dl & dg & text' & H & Hdl & Hdg)]];
    pose proof (create_feedstock_trace urlparse_path abspath relpath pkg_spec fs
                  workdir recipes_dir pkgs_dir _ _ H) as Ht;
    cbv zeta in Ht; rewrite Hn, Hu in Ht; fold new_recipe in Ht;
    unfold run; rewrite Ht; cbn [events fst]; clear Ht H.
  - destruct (exists_parent fs); [| destruct (exists_conda_build_cfg fs)];
      rewrite <- ?app_assoc; cbn [app];
      do 2 eexists;
      (split; [rewrite <- app_assoc; cbn [app]; reflexivity |]);
      push_filter; rewrite ?Hc; split; reflexivity.
  - assert (Hdc : filter is_copy dl = [])
      by (apply (filter_none_of _ is_download); [now intros [] | exact Hdl]).
    assert (Hgc : filter is_copy dg = [])
      by (apply (filter_sub_nil _ is_effect); [now intros [] | exact Hdg]).
    destruct (exists_parent fs); [| destruct (exists_conda_build_cfg fs)];
      rewrite <- ?app_assoc; cbn [app];
      do 2 eexists;
      (split; [rewrite <- app_assoc; cbn [app]; reflexivity |]);
      push_filter; rewrite ?Hc, ?Hdc, ?Hgc; push_filter; split; reflexivity.
Qed.
End FeedstockRuns.

(** ** The command line *)

Section MainProperties.
Variable Ver : Type.
Variable PV : string -> option Ver.
Variable Ver_le : Ver -> Ver -> bool.
Variable urlparse_path : string -> string.
Variable abspath : string -> string.
Variable relpath : string -> string -> string.
Variable script_file : string.

Lemma get_pkg_spec_events (pkg : string) (ver py : option string)
      (pkg_db : dict (list PackageRecord)) :
  filter is_effect (events (get_pkg_spec PV Ver_le pkg ver py pkg_db)) = [].
Proof.
  unfold get_pkg_spec. destruct (dict_get pkg pkg_db) as [group |]; [| reflexivity].
  rewrite events_bind, filter_app.
  assert (Hf : filter is_effect (events (filter_build py group)) = []).
  { unfold filter_build. destruct (truthy py) as [f |]; [| reflexivity].
    now destruct (0 <? List.length _)%nat. }
  rewrite Hf. destruct (outcome (filter_build py group)) as [e | specs]; [reflexivity |].
  destruct ver as [v |].
  - now destruct (scan_bound PV Ver_le v (List.rev specs)) as [e | [p |]].
  - now destruct (List.rev specs).
Qed.

(** X13.  [main] resolves the package before anything else.  When the
    resolution fails, [main] fails with the same error and its log holds at
    most the warning of the build filter: nothing was fetched, unpacked or
    written.  When it succeeds, the feedstock is created for the record
    found, with the directories made absolute. *)
Theorem main_resolves_first
        (args : Args) (read_db : string -> dict (list PackageRecord)) (fs : Unpacked) :
  let abs := get_abs_path abspath script_file in
  let resolution :=
    get_pkg_spec PV Ver_le (PKG_NAME args) (upper_bound args) (Some (py args))
                 (read_db (abs (db args))) in
  let run := main PV Ver_le urlparse_path abspath relpath script_file
                  args read_db fs in
  (forall e, outcome resolution = inl e ->
             outcome run = inl e
             /\ events run = events resolution
             /\ filter is_effect (events run) = [])
  /\ (forall pkg_spec,
         outcome resolution = inr pkg_spec ->
         let creation :=
           create_feedstock urlparse_path abspath relpath pkg_spec fs
                            (abs (workdir args)) (abs (recipes_dir args))
                            (abs (pkgs_dir args)) in
         outcome run = outcome creation
         /\ events run = (events resolution ++ events creation)%list).
Proof.
  intros abs resolution run. unfold run, main. fold abs. fold resolution. split.
  - intros e He. rewrite outcome_bind, events_bind, He, app_nil_r.
    repeat split. apply get_pkg_spec_events.
  - intros pkg_spec Hp. cbv zeta. rewrite outcome_bind, events_bind, Hp.
    now split.
Qed.

(** X14.  [get_abs_path] leaves an absolute path as it is.  As
    [os.path.abspath] gives absolute paths, what it returns is absolute, and
    applying it twice changes nothing more. *)
Theorem get_abs_path_idempotent (path : string) :
  (forall q, isabs (abspath q) = true) ->
  let abs := get_abs_path abspath script_file in
  (isabs path = true -> abs path = path)
  /\ isabs (abs path) = true
  /\ abs (abs path) = abs path.
Proof.
  intros Habs abs.
  assert (H1 : forall p, isabs p = true -> abs p = p)
    by (intros p Hp; unfold abs, get_abs_path; now rewrite Hp).
  assert (H2 : isabs (abs path) = true).
  { unfold abs, get_abs_path. destruct (isabs path) eqn:E; [exact E | apply Habs]. }
  split; [apply H1 | split; [exact H2 | now apply H1]].
Qed.
End MainProperties.

(** ** The rewriter and the extractor on whole documents *)

Lemma split_join (s : string) :
  Str.join (String Str.nl "") (Str.split Str.nl s) = s.
Proof.
  unfold Str.join. induction s as [| c s IH]; [reflexivity |].
  cbn [Str.split]. pose proof (split_not_nil Str.nl s) as Hne.
  destruct (Str.split Str.nl s) as [| h t]; [congruence |].
  destruct (Ascii.eqb_spec c Str.nl) as [-> | Hc].
  - change (String.concat (String Str.nl "") ("" :: h :: t))
      with ("" ++ String Str.nl "" ++ String.concat (String Str.nl "") (h :: t)).
    now rewrite IH.
  - destruct t as [| t0 t].
    + cbn [String.concat] in *. now rewrite IH.
    + change (String.concat (String Str.nl "") (String c h :: t0 :: t))
        with (String c (h ++ String Str.nl ""
                          ++ String.concat (String Str.nl "") (t0 :: t))).
      change (String.concat (String Str.nl "") (h :: t0 :: t))
        with (h ++ String Str.nl "" ++ String.concat (String Str.nl "") (t0 :: t))
        in IH.
      now rewrite IH.
Qed.

Lemma last_char_has (c : ascii) (s : string) :
  last_char s = Some c -> Str.has_char c s = true.
Proof.
  induction s as [| x s IH]; [discriminate |].
  cbn [last_char Str.has_char]. destruct s as [| y s].
  - intros [= ->]. now rewrite Ascii.eqb_refl.
  - intros H. rewrite (IH H). apply orb_true_r.
Qed.

(** The tail of a candidate ends the line, and a URL that fits holds the
    characters of the tail. *)
Lemma candidate_tail_last (line g1 head mid tail : string) :
  candidate line g1 head mid tail "" -> last_char tail = last_char line.
Proof.
  intros [-> _ _ _ [Hne _] _]. rewrite append_empty_r.
  assert (Hn : forall a b : string, b <> "" -> a ++ b <> "").
  { intros a b Hb E. destruct a; [now apply Hb | discriminate]. }
  symmetry.
  rewrite last_char_app by (do 4 apply Hn; exact Hne).
  rewrite last_char_app by (do 3 apply Hn; exact Hne).
  rewrite last_char_app by (do 2 apply Hn; exact Hne).
  rewrite last_char_app by (apply Hn; exact Hne).
  now apply last_char_app.
Qed.

Lemma url_fits_tail_char (head tail u : string) (c : ascii) :
  url_fits head tail u -> last_char tail = Some c -> Str.has_char c u = true.
Proof.
  intros (mid & rest & -> & _) Hc. rewrite !has_char_app.
  rewrite (last_char_has c tail Hc). now rewrite !orb_true_r.
Qed.

Section RewriterMore.
Variable urlparse_path : string -> string.
Variable relpath : string -> string -> string.

(** X15.  When no known URL fits the head and the tail of a candidate line
    of the document, and so when no URL is known or no line is a
    candidate, [replace_urls] writes the document back as it was, character
    for character, and prints one diagnostic for each candidate line, in
    order. *)
Theorem unmatched_document_unchanged
        (meta_yaml_tpl text pkgs_dir : string) (urls : dict SourceEntry) :
  (forall line g1 head mid tail,
      In line (Str.split Str.nl text) ->
      candidate line g1 head mid tail "" ->
      forall u, In u (dict_keys urls) -> ~ url_fits head tail u) ->
  replace_urls urlparse_path relpath meta_yaml_tpl text urls pkgs_dir =
  ((map DiagUrlNotFound (filter is_candidate (Str.split Str.nl text))
    ++ [WriteFile meta_yaml_tpl text])%list,
   inr tt).
Proof.
  intros H. rewrite replace_urls_result, out_flat_map, diag_flat_map.
  assert (Hfind : forall line m,
             In line (Str.split Str.nl text) ->
             re_match url_regex line = Some m ->
             find_url (group 2 m) (group 3 m) urls = None).
  { intros line m Hin Hm.
    assert (Hnl : Str.has_char Str.nl line = false).
    { pose proof (split_pieces Str.nl text) as Hp.
      rewrite Forall_forall in Hp. now apply Hp. }
    destruct (url_regex_sound_line line m Hnl Hm)
      as (_ & g1 & head & mid & tail & Hc & _ & <- & <-).
    apply (proj1 (find_url_fits (group 2 m) (group 3 m) urls)).
    exact (H line g1 _ mid _ Hin Hc). }
  clear H.
  assert (Hout : forall lines,
             (forall line m, In line lines -> re_match url_regex line = Some m ->
                             find_url (group 2 m) (group 3 m) urls = None) ->
             flat_map (line_out urlparse_path relpath meta_yaml_tpl pkgs_dir urls) lines
             = lines
             /\ flat_map (line_diag urls) lines
                = map DiagUrlNotFound (filter is_candidate lines)).
  { induction lines as [| line lines IH]; intros Hl; [now split |].
    destruct IH as [IH1 IH2]; [intros l m Hin; apply Hl; now right |].
    cbn [flat_map filter]. rewrite IH1, IH2.
    unfold line_out, line_diag, is_candidate.
    destruct (re_match url_regex line) as [m |] eqn:E; cbn [is_some]; [| now split].
    rewrite (Hl line m (or_introl eq_refl) E). now split. }
  destruct (Hout _ Hfind) as [-> ->]. now rewrite split_join.
Qed.
End RewriterMore.

Lemma extract_reqs_loop_acc (content : list string) (in_req : bool)
      (result : list string) :
  extract_reqs_loop content in_req result = (result ++ emitted content in_req)%list.
Proof.
  unfold emitted. revert in_req result.
  induction content as [| line content IH]; intros in_req result.
  - cbn. now rewrite app_nil_r.
  - cbn [extract_reqs_loop]. cbv zeta.
    repeat match goal with
           | |- context [if ?b then _ else _] => destruct b
           end;
      try reflexivity; try apply IH;
      rewrite IH, (IH _ ([] ++ _)%list); cbn [app]; now rewrite <- app_assoc.
Qed.

Lemma subseq_refl_skip {A : Type} (l : list A) : subseq [] l.
Proof. induction l; constructor; assumption. Qed.

Lemma emitted_lines (content : list string) (in_req : bool) :
  subseq (emitted content in_req) (map Str.strip content)
  /\ Forall (fun l => l <> ""
                      /\ Str.startswith l "#" = false) (emitted content in_req)
  /\ (in_req = false ->
      match emitted content in_req with
      | [] => True
      | l :: _ => Str.startswith l "requirements:" = true
      end).
Proof.
  revert in_req. induction content as [| line content IH]; intros in_req.
  - unfold emitted. cbn [extract_reqs_loop map].
    split; [apply subseq_nil | split; [constructor | now intros _]].
  - unfold emitted. cbn [extract_reqs_loop map]. cbv zeta.
    destruct (String.eqb_spec (Str.strip line) "") as [E | E].
    { destruct (IH in_req) as (S1 & F1 & H1).
      repeat split; [now constructor | exact F1 | exact H1]. }
    destruct in_req; cbn [negb].
    + destruct (Str.startswith (Str.strip line) "#") eqn:Ehash.
      { destruct (IH true) as (S1 & F1 & _).
        repeat split; [now constructor | exact F1 | discriminate]. }
      assert (Hkeep : subseq (Str.strip line :: emitted content true)
                             (Str.strip line :: map Str.strip content)
                      /\ Forall (fun l => l <> "" /\ Str.startswith l "#" = false)
                                (Str.strip line :: emitted content true)).
      { destruct (IH true) as (S1 & F1 & _).
        split; [now constructor | constructor; [now split | exact F1]]. }
      destruct (Str.startswith (Str.strip line) "{");
        [rewrite extract_reqs_loop_acc; cbn [app];
         destruct Hkeep; repeat split; try assumption; discriminate |].
      destruct (Str.startswith (Str.strip line) "-");
        [rewrite extract_reqs_loop_acc; cbn [app];
         destruct Hkeep; repeat split; try assumption; discriminate |].
      destruct (Str.endswith (Str.strip line) ":" && negb (in_keys (Str.strip line))).
      * destruct (IH false) as (S1 & F1 & _).
        repeat split; [now constructor | exact F1 | discriminate].
      * rewrite extract_reqs_loop_acc; cbn [app].
        destruct Hkeep; repeat split; try assumption; discriminate.
    + destruct (Str.startswith (Str.strip line) "requirements:") eqn:Er; cbn [negb].
      * rewrite extract_reqs_loop_acc. cbn [app].
        destruct (IH true) as (S1 & F1 & _).
        repeat split; [now constructor | | now intros _].
        constructor; [split; [exact E |] | exact F1].
        destruct (Str.strip line) as [| c s]; [reflexivity |].
        destruct (Str.startswith (String c s) "#") eqn:Eh; [| reflexivity].
        exfalso. unfold Str.startswith in *.
        apply prefix_split in Eh as [r1 Eh], Er as [r2 Er].
        rewrite Eh in Er. discriminate.
      * destruct (IH false) as (S1 & F1 & H1).
        repeat split; [now constructor | exact F1 | exact H1].
Qed.

(** X16.  What [extract_reqs] gives is made of lines of the document,
    each stripped of the blanks around it, in the order of the document;
    none of them is empty or a comment, and the first one, if any, begins
    with requirements:. *)
Theorem extract_reqs_lines (text : string) :
  exists out,
    extract_reqs text = Str.join (String Str.nl "") out
    /\ subseq out (map Str.strip (Str.split Str.nl text))
    /\ Forall (fun l => l <> "" /\ Str.startswith l "#" = false) out
    /\ match out with
       | [] => True
       | l :: _ => Str.startswith l "requirements:" = true
       end.
Proof.
  exists (emitted (Str.split Str.nl text) false).
  destruct (emitted_lines (Str.split Str.nl text) false) as (S1 & F1 & H1).
  repeat split; [exact S1 | exact F1 | now apply H1].
Qed.

(** X17.  A document in which no line, once stripped, begins with
    requirements: gives the empty text. *)
Theorem extract_reqs_without_section (text : string) :
  (forall line, In line (Str.split Str.nl text) ->
                Str.startswith (Str.strip line) "requirements:" = false) ->
  extract_reqs text = "".
Proof.
  intros H. unfold extract_reqs.
  assert (E : forall content,
             (forall line, In line content ->
                           Str.startswith (Str.strip line) "requirements:" = false) ->
             extract_reqs_loop content false [] = []).
  { induction content as [| line content IH]; intros Hc; [reflexivity |].
    cbn [extract_reqs_loop]. cbv zeta.
    rewrite (Hc line (or_introl eq_refl)). cbn [negb].
    destruct (String.eqb (Str.strip line) ""); apply IH; intros l Hl; apply Hc; now right. }
  now rewrite (E _ H).
Qed.

(** ** The table of the sources *)

Lemma discover_spec (items : list SourceItem) (ks : list string) :
  NoDup ks ->
  NoDup (discover ks items)
  /\ forall u, In u (discover ks items) <->
               In u ks \/ exists item, In item items /\ i_url item = Some u.
Proof.
  revert ks. induction items as [| x items IH]; intros ks Hks.
  - split; [exact Hks |]. intros u. cbn. split; [tauto | intros [H | (i & [] & _)]; exact H].
  - unfold discover. cbn [fold_left]. fold (discover (match i_url x with
                                                       | Some u => add_key ks u
                                                       | None => ks
                                                       end) items).
    destruct (i_url x) as [ux |] eqn:Ex.
    + destruct (IH (add_key ks ux) (NoDup_add_key ks ux Hks)) as [Hn Hin].
      split; [exact Hn |]. intros u. rewrite Hin, in_add_key. split.
      * intros [[H | ->] | (i & Hi & Hu)]; [now left | |].
        -- right. exists x. split; [now left | exact Ex].
        -- right. exists i. split; [now right | exact Hu].
      * intros [H | (i & [<- | Hi] & Hu)]; [now left; left | |].
        -- left. right. congruence.
        -- right. now exists i.
    + destruct (IH ks Hks) as [Hn Hin].
      split; [exact Hn |]. intros u. rewrite Hin. split.
      * intros [H | (i & Hi & Hu)]; [now left |].
        right. exists i. split; [now right | exact Hu].
      * intros [H | (i & [<- | Hi] & Hu)]; [now left | congruence |].
        right. now exists i.
Qed.

(** X18.  The table that [load_urls] returns has one entry for each URL
    that a source declares, whatever the number of sources that declare it,
    and no other entry; and nothing is printed or done on the way. *)
Theorem load_urls_table (meta : Meta) (d : dict SourceEntry) (evs : list event) :
  load_urls meta = (evs, inr d) ->
  evs = []
  /\ NoDup (dict_keys d)
  /\ (forall u, In u (dict_keys d) <->
                exists item, In item (sources_of meta) /\ i_url item = Some u)
  /\ (List.length d <= List.length (sources_of meta))%nat.
Proof.
  rewrite load_urls_sources. intros H.
  assert (He : evs = []).
  { pose proof (load_urls_loop_events (sources_of meta) []) as E.
    rewrite H in E. exact E. }
  subst evs. pose proof (load_urls_loop_keys _ _ _ H) as Hk.
  destruct (discover_spec (sources_of meta) [] (NoDup_nil _)) as [Hn Hin].
  cbn [dict_keys map] in Hk. rewrite <- Hk in Hn, Hin.
  split; [reflexivity | split; [exact Hn | split]].
  - intros u. rewrite Hin. split; [intros [[] | H']; exact H' | now right].
  - replace (List.length d) with (List.length (dict_keys d))
      by (unfold dict_keys; apply length_map).
    apply NoDup_incl_length with (l' := map i_url_or (sources_of meta)) in Hn.
    + now rewrite length_map in Hn.
    + intros u Hu. apply Hin in Hu as [[] | (i & Hi & Hu)].
      apply in_map_iff. exists i. split; [| exact Hi].
      unfold i_url_or. now rewrite Hu.
Qed.

Section DownloadsMore.
Variable urlparse_path : string -> string.

(** X19.  When the loop over the sources has run through, the table it
    hands on has the URLs of the table it was given, in their order, with
    the hash of each entry and a file name for every entry, and each URL was
    fetched once, in that order, to the packages directory joined with the
    very name that the table now holds for it. *)
Theorem download_sources_table (pkg pkgs_dir : string)
        (urls urls' : dict SourceEntry) :
  outcome (download_sources urlparse_path pkg pkgs_dir urls) = inr urls' ->
  dict_keys urls' = dict_keys urls
  /\ (forall u v, dict_get u urls = Some v ->
                  exists f, dict_get u urls' =
                            Some (mkSource (hash_type v) (hash v) (Some f)))
  /\ Forall2 (fun ev kv =>
                exists f, fn (snd kv) = Some f
                          /\ ev = DownloadFile (fst kv) (Path.join pkgs_dir f))
             (events (download_sources urlparse_path pkg pkgs_dir urls)) urls'.
Proof.
  rewrite download_sources_outcome, download_sources_events.
  intros [= <-].
  split; [apply dict_keys_with_dest_fn | split].
  - intros u v Hv.
    pose proof (dict_get_with_dest_fn urlparse_path pkg u urls) as Hg.
    unfold with_dest_fn in Hg. rewrite Hg, Hv. eexists. reflexivity.
  - induction urls as [| [u v] urls IH]; cbn [map]; constructor.
    + eexists. split; reflexivity.
    + exact IH.
Qed.
End DownloadsMore.

(** ** The download loop *)

Lemma flat_map_seq_shift {T : Type} (f : nat -> list T) (a n : nat) :
  flat_map f (seq (S a) n) = flat_map (fun i => f (S i)) (seq a n).
Proof.
  revert a. induction n as [| n IH]; intros a; [reflexivity |].
  cbn [seq flat_map]. now rewrite IH.
Qed.

Lemma download_loop_from (reads : list string) (b : nat) :
  (b < 77)%nat ->
  fst (download_loop reads b) = String.concat "" (received reads)
  /\ snd (download_loop reads b) =
     flat_map (fun i => chunk_progress (b + i)) (seq 1 (List.length (received reads))).
Proof.
  revert b. induction reads as [| s reads IH]; intros b Hb.
  - split; reflexivity.
  - cbn [download_loop received].
    destruct (String.length s =? 0)%nat eqn:Es; [split; reflexivity |].
    assert (Hcat : forall l, String.concat "" (s :: l) = s ++ String.concat "" l).
    { intros [| x l]; cbn [String.concat]; [now rewrite append_empty_r | reflexivity]. }
    cbn [List.length seq flat_map]. rewrite flat_map_seq_shift.
    destruct (S b =? 77)%nat eqn:E77.
    + apply Nat.eqb_eq in E77.
      destruct (IH 0%nat ltac:(lia)) as (H1 & H2).
      destruct (download_loop reads 0) as [written printed'].
      cbn [fst snd] in *. rewrite Hcat, H1, H2. split; [reflexivity |].
      replace (b + 1)%nat with 77%nat by lia.
      change (chunk_progress 77) with ["."; String Str.nl "oo "].
      cbn [app]. do 2 f_equal. apply flat_map_ext. intros i. unfold chunk_progress.
      replace (b + S i)%nat with (0 + i + 1 * 77)%nat by lia.
      now rewrite Nat.Div0.mod_add.
    + apply Nat.eqb_neq in E77.
      destruct (IH (S b) ltac:(lia)) as (H1 & H2).
      destruct (download_loop reads (S b)) as [written printed'].
      cbn [fst snd] in *. rewrite Hcat, H1, H2. split; [reflexivity |].
      assert (Hcp : chunk_progress (b + 1) = ["."]).
      { unfold chunk_progress. rewrite Nat.mod_small by lia.
        destruct (Nat.eqb_spec (b + 1) 0); [lia | reflexivity]. }
      rewrite Hcp. cbn [app]. f_equal. apply flat_map_ext. intros i.
      now replace (b + S i)%nat with (S b + i)%nat by lia.
Qed.

(** X20.  The loop of [download_file] writes the chunks it receives, in
    order and whole, up to the end of the stream.  It prints, chunk after
    chunk, one dot, followed by a line break when the chunk is the 77th, the
    154th and so on, and prints nothing else. *)
Theorem download_loop_progress (reads : list string) :
  let chunks := received reads in
  fst (download_loop reads 0) = String.concat "" chunks
  /\ snd (download_loop reads 0) =
     flat_map chunk_progress (seq 1 (List.length chunks)).
Proof.
  cbv zeta. destruct (download_loop_from reads 0 ltac:(lia)) as [H1 H2].
  split; [exact H1 |]. rewrite H2. apply flat_map_ext. intros i. reflexivity.
Qed.

(** ** The merged listing *)

Lemma dict_get_app {V} (k : string) (a b : dict V) :
  dict_get k (a ++ b)%list =
  match dict_get k a with Some v => Some v | None => dict_get k b end.
Proof.
  induction a as [| [k' v] a IH]; [reflexivity |].
  cbn [app dict_get]. now destruct (String.eqb k k').
Qed.

Lemma dict_get_update {V} (k : string) (other d : dict V) :
  dict_get k (dict_update d other) =
  match dict_get k (List.rev other) with
  | Some v => Some v
  | None => dict_get k d
  end.
Proof.
  unfold dict_update. revert d.
  induction other as [| [k' v'] other IH]; intros d; [reflexivity |].
  cbn [fold_left fst snd List.rev]. rewrite IH, dict_get_app.
  destruct (dict_get k (List.rev other)); [reflexivity |].
  cbn [dict_get]. destruct (String.eqb_spec k k') as [-> | Hne].
  - apply dict_get_set_same.
  - now apply dict_get_set_other.
Qed.

Lemma dict_update_keys {V} (other d : dict V) :
  NoDup (dict_keys d) -> NoDup (dict_keys (dict_update d other)).
Proof.
  unfold dict_update. revert d.
  induction other as [| [k' v'] other IH]; intros d Hd; [exact Hd |].
  cbn [fold_left fst snd]. apply IH. rewrite dict_keys_set. now apply NoDup_add_key.
Qed.

Lemma load_repodata_rows (fetched : list Repodata) :
  load_repodata fetched = dict_update [] (all_rows fetched).
Proof.
  unfold load_repodata, all_rows.
  generalize (@nil (string * RepoEntry)) as d.
  induction fetched as [| r fetched IH]; intros d; [reflexivity |].
  cbn [fold_left flat_map]. rewrite IH. unfold dict_update.
  now rewrite !fold_left_app.
Qed.

(** X21.  In the listing that [load_repodata] merges, a file name stands
    once, with the row of the last table that has it, in the order
    packages, packages.conda of each architecture in turn; a name that no
    table has is absent. *)
Theorem load_repodata_last_wins (fetched : list Repodata) :
  NoDup (dict_keys (load_repodata fetched))
  /\ (forall fname,
         dict_get fname (load_repodata fetched) =
         dict_get fname (List.rev (all_rows fetched)))
  /\ (forall fname, In fname (dict_keys (load_repodata fetched)) <->
                    In fname (dict_keys (all_rows fetched))).
Proof.
  rewrite load_repodata_rows.
  assert (Hget : forall fname,
             dict_get fname (dict_update [] (all_rows fetched)) =
             dict_get fname (List.rev (all_rows fetched))).
  { intros fname. rewrite dict_get_update.
    now destruct (dict_get fname (List.rev (all_rows fetched))). }
  split; [apply dict_update_keys; constructor | split; [exact Hget |]].
  intros fname.
  destruct (dict_get fname (dict_update [] (all_rows fetched))) as [v |] eqn:E.
  - pose proof E as E'. rewrite Hget in E'. split; intros _.
    + assert (Hin : In fname (dict_keys (List.rev (all_rows fetched)))).
      { destruct (dict_get_none_iff fname (List.rev (all_rows fetched))) as [_ Hn].
        destruct (in_dec string_dec fname (dict_keys (List.rev (all_rows fetched))))
          as [Hi | Hi]; [exact Hi |].
        rewrite (Hn Hi) in E'. discriminate. }
      unfold dict_keys in *. rewrite map_rev in Hin. now apply in_rev in Hin.
    + destruct (dict_get_none_iff fname (dict_update [] (all_rows fetched))) as [_ Hn].
      destruct (in_dec string_dec fname
                       (dict_keys (dict_update [] (all_rows fetched))))
        as [Hi | Hi]; [exact Hi |].
      rewrite (Hn Hi) in E. discriminate.
  - pose proof E as E'. rewrite Hget in E'.
    apply dict_get_none_iff in E, E'. split; intros H; [contradiction |].
    elim E'. unfold dict_keys in *. rewrite map_rev. now apply -> in_rev.
Qed.

(** ** The version-only shape *)

Lemma reads_advances (st st' : mstate) (w : string) :
  reads st w st' -> advances st w st'.
Proof. intros (R & P & _). now split. Qed.

Lemma advances_trans (st1 st2 st3 : mstate) (w1 w2 : string) :
  advances st1 w1 st2 -> advances st2 w2 st3 -> advances st1 (w1 ++ w2) st3.
Proof.
  unfold advances. intros (R1 & P1) (R2 & P2).
  rewrite R1, R2, P2, P1, append_assoc, length_append. split; [reflexivity | lia].
Qed.

Lemma in_block (k : nat) (p q : ascii -> bool) (fuel : nat) (st st' : mstate) :
  In st' (matches (block_regex k p q) fuel st) ->
  exists c w, p c = true /\ w <> "" /\ all_chars q w = true
              /\ advances st (String c w) st'.
Proof.
  unfold block_regex. intros H.
  apply in_matches_group in H as (st1 & H & Hpos & Hrest & _).
  rewrite in_matches_seq in H. destruct H as (mid & H1 & H2).
  apply in_matches_class in H1 as (c & Hc & H1).
  apply in_matches_plus_class in H2 as (w & Hne & Hw & H2).
  exists c, w. repeat split; try assumption.
  - rewrite Hrest. exact (proj1 (reads_trans _ _ _ (String c "") w H1 H2)).
  - rewrite Hpos.
    exact (proj1 (proj2 (reads_trans _ _ _ (String c "") w H1 H2))).
Qed.

Lemma in_star_blocks (k : nat) (p q : ascii -> bool) (fuel n : nat)
      (st st' : mstate) :
  In st' (star_iter (matches (block_regex k p q) fuel) n st) ->
  st' = st \/ exists w, blocks p q w /\ advances st w st'.
Proof.
  revert st. induction n as [| n IH]; intros st; cbn [star_iter].
  - intros [<- | []]. now left.
  - rewrite in_app_iff, in_flat_map. intros [(mid & H1 & H2) | [<- | []]]; [| now left].
    destruct (pos st <? pos mid)%nat; [| contradiction].
    apply in_block in H1 as (c & w & Hc & Hne & Hw & H1). right.
    apply IH in H2 as [-> | (w' & Hb & H2)].
    + exists (String c w). split; [now constructor | exact H1].
    + exists (String c w ++ w'). split; [now constructor |].
      exact (advances_trans _ _ _ _ _ H1 H2).
Qed.

Lemma in_plus_blocks (k : nat) (p q : ascii -> bool) (fuel : nat)
      (st st' : mstate) :
  In st' (matches (Plus (block_regex k p q)) fuel st) ->
  exists w, blocks p q w /\ advances st w st'.
Proof.
  unfold Plus. rewrite in_matches_seq. intros (mid & H1 & H2).
  apply in_block in H1 as (c & w & Hc & Hne & Hw & H1).
  cbn [matches] in H2. apply in_star_blocks in H2 as [-> | (w' & Hb & H2)].
  - exists (String c w). split; [now constructor | exact H1].
  - exists (String c w ++ w'). split; [now constructor |].
    exact (advances_trans _ _ _ _ _ H1 H2).
Qed.

Lemma star_iter_self (step : mstate -> list mstate) (n : nat) (st : mstate) :
  In st (star_iter step n st).
Proof. destruct n; cbn [star_iter]; [now left |]. apply in_or_app. right. now left. Qed.

Lemma block_complete (k : nat) (p q : ascii -> bool) (c : ascii) (w r : string)
      (fuel n : nat) (c0 : list (nat * string)) :
  p c = true -> w <> "" -> all_chars q w = true -> String.length w <= fuel ->
  exists cs,
    In (mkState (n + S (String.length w)) r cs)
       (matches (block_regex k p q) fuel (mkState n (String c w ++ r) c0)).
Proof.
  intros Hc Hne Hw Hf.
  assert (H : In (mkState (n + S (String.length w)) r c0)
                 (matches (Seq (Class p) (Plus (Class q))) fuel
                          (mkState n (String c w ++ r) c0))).
  { rewrite in_matches_seq. exists (mkState (S n) (w ++ r) c0). split.
    - cbn [matches append rest pos caps]. rewrite Hc. now left.
    - replace (n + S (String.length w))%nat with (S n + String.length w)%nat by lia.
      now apply matches_plus_class_complete. }
  eexists. exact (matches_group_complete k _ fuel _ _ H).
Qed.

Lemma star_blocks_complete (k : nat) (p q : ascii -> bool) (fuel : nat) (w : string) :
  blocks p q w ->
  forall (i n : nat) (c0 : list (nat * string)) (r : string),
    String.length w <= i -> String.length w <= fuel ->
    exists cs,
      In (mkState (n + String.length w) r cs)
         (star_iter (matches (block_regex k p q) fuel) i (mkState n (w ++ r) c0)).
Proof.
  induction 1 as [c w Hc Hne Hw | c w r' Hc Hne Hw Hb IH]; intros i n c0 r Hi Hf.
  - cbn [String.length] in *. destruct i as [| i]; [lia |].
    destruct (block_complete k p q c w r fuel n c0 Hc Hne Hw ltac:(lia)) as [cs Hin].
    exists cs. cbn [star_iter]. apply in_or_app. left.
    apply in_flat_map. eexists. split; [exact Hin |].
    cbn [pos]. destruct (Nat.ltb_spec n (n + S (String.length w))); [| lia].
    apply star_iter_self.
  - rewrite length_append in *. cbn [String.length] in *.
    destruct i as [| i]; [lia |].
    rewrite append_assoc.
    destruct (block_complete k p q c w (r' ++ r) fuel n c0 Hc Hne Hw ltac:(lia))
      as [cs Hin].
    destruct (IH i (n + S (String.length w))%nat cs r ltac:(lia) ltac:(lia))
      as [cs' Hin'].
    exists cs'. cbn [star_iter]. apply in_or_app. left.
    apply in_flat_map. eexists. split; [exact Hin |].
    cbn [pos]. destruct (Nat.ltb_spec n (n + S (String.length w))); [| lia].
    replace (n + (S (String.length w) + String.length r'))%nat
      with (n + S (String.length w) + String.length r')%nat by lia.
    exact Hin'.
Qed.

Lemma plus_blocks_complete (k : nat) (p q : ascii -> bool) (fuel : nat) (w : string)
      (n : nat) (c0 : list (nat * string)) (r : string) :
  blocks p q w -> String.length w <= fuel ->
  exists cs,
    In (mkState (n + String.length w) r cs)
       (matches (Plus (block_regex k p q)) fuel (mkState n (w ++ r) c0)).
Proof.
  intros Hb Hf. unfold Plus.
  destruct Hb as [c w Hc Hne Hw | c w r' Hc Hne Hw Hb].
  - cbn [String.length] in *.
    destruct (block_complete k p q c w r fuel n c0 Hc Hne Hw ltac:(lia)) as [cs Hin].
    exists cs. rewrite in_matches_seq. eexists. split; [exact Hin |].
    cbn [matches]. apply star_iter_self.
  - rewrite length_append in *. cbn [String.length] in *. rewrite append_assoc.
    destruct (block_complete k p q c w (r' ++ r) fuel n c0 Hc Hne Hw ltac:(lia))
      as [cs Hin].
    destruct (star_blocks_complete k p q fuel r' Hb fuel
                (n + S (String.length w))%nat cs r ltac:(lia) ltac:(lia))
      as [cs' Hin'].
    exists cs'. rewrite in_matches_seq. eexists. split; [exact Hin |].
    cbn [matches].
    replace (n + (S (String.length w) + String.length r'))%nat
      with (n + S (String.length w) + String.length r')%nat by lia.
    exact Hin'.
Qed.

Lemma fn_is_simple_regex_blocks :
  fn_is_simple_regex =
  Seq Bol
 (Seq (Opt (Chr "v"))
 (Seq (Plus (Class Str.is_digit))
 (Seq (Plus (block_regex 1 dash_or_dot Str.is_digit))
 (Seq (Plus (block_regex 2 (Ascii.eqb ".") Str.is_word))
      Eol)))).
Proof. reflexivity. Qed.

(** X22.  [fn_is_simple] accepts exactly the file names of the
    version-only shape: an optional v, one or more digits, one or more
    blocks of a dash or a dot followed by digits, one or more blocks of a
    dot followed by word characters, and then the end of the name, before
    which one newline may stand. *)
Theorem fn_is_simple_shape (s : string) :
  fn_is_simple s = true <-> version_only s.
Proof.
  unfold fn_is_simple. rewrite fn_is_simple_regex_blocks. split.
  - destruct (re_match _ s) as [m |] eqn:E; [intros _ | discriminate].
    apply re_match_in in E as (st & Hin & _).
    rewrite in_matches_seq in Hin. destruct Hin as (s1 & H1 & Hin).
    apply in_matches_bol in H1 as [-> _].
    rewrite in_matches_seq in Hin. destruct Hin as (s2 & H2 & Hin).
    apply in_matches_opt_chr in H2 as (v & Hv & H2). apply reads_advances in H2.
    rewrite in_matches_seq in Hin. destruct Hin as (s3 & H3 & Hin).
    apply in_matches_plus_class in H3 as (ds & Hne & Hds & H3).
    apply reads_advances in H3.
    rewrite in_matches_seq in Hin. destruct Hin as (s4 & H4 & Hin).
    apply in_plus_blocks in H4 as (b1 & Hb1 & H4).
    rewrite in_matches_seq in Hin. destruct Hin as (s5 & H5 & Hin).
    apply in_plus_blocks in H5 as (b2 & Hb2 & H5).
    apply in_matches_eol in Hin as [-> He].
    exists v, ds, b1, b2, (rest s5).
    destruct H2 as [R2 _], H3 as [R3 _], H4 as [R4 _], H5 as [R5 _].
    cbn [rest] in R2. rewrite R2, R3, R4, R5.
    repeat split; assumption.
  - intros (v & ds & b1 & b2 & e & -> & Hv & Hne & Hds & Hb1 & Hb2 & He).
    set (s := v ++ ds ++ b1 ++ b2 ++ e).
    assert (Hlen : String.length s =
                   (String.length v + String.length ds + String.length b1
                    + String.length b2 + String.length e)%nat).
    { unfold s. rewrite !length_append. lia. }
    set (fuel := String.length s) in *.
    pose proof (matches_opt_chr_complete "v" v (ds ++ b1 ++ b2 ++ e) fuel 0 [] Hv)
      as M2.
    pose proof (matches_plus_class_complete Str.is_digit ds (b1 ++ b2 ++ e) fuel
                  (0 + String.length v) [] Hne Hds ltac:(lia)) as M3.
    destruct (plus_blocks_complete 1 dash_or_dot Str.is_digit fuel b1
                (0 + String.length v + String.length ds) [] (b2 ++ e) Hb1
                ltac:(lia)) as [c4 M4].
    destruct (plus_blocks_complete 2 (Ascii.eqb ".") Str.is_word fuel b2
                (0 + String.length v + String.length ds + String.length b1) c4 e Hb2
                ltac:(lia)) as [c5 M5].
    assert (Hin : In (mkState (0 + String.length v + String.length ds
                               + String.length b1 + String.length b2) e c5)
                     (matches
                        (Seq Bol
                        (Seq (Opt (Chr "v"))
                        (Seq (Plus (Class Str.is_digit))
                        (Seq (Plus (block_regex 1 dash_or_dot Str.is_digit))
                        (Seq (Plus (block_regex 2 (Ascii.eqb ".") Str.is_word))
                             Eol)))))
                        fuel (mkState 0 s []))).
    { rewrite in_matches_seq. eexists. split; [cbn [matches pos]; now left |].
      rewrite in_matches_seq. eexists. split; [exact M2 |].
      rewrite in_matches_seq. eexists. split; [exact M3 |].
      rewrite in_matches_seq. eexists. split; [exact M4 |].
      rewrite in_matches_seq. eexists. split; [exact M5 |].
      cbn [matches rest]. destruct He as [-> | ->]; [now left |].
      rewrite Ascii.eqb_refl. now left. }
    unfold re_match. fold fuel.
    destruct (matches _ fuel (mkState 0 s [])); [contradiction | reflexivity].
Qed.

(** ** Rewriting twice *)

Lemma all_chars_has_char (p : ascii -> bool) (c : ascii) (w : string) :
  all_chars p w = true -> p c = false -> Str.has_char c w = false.
Proof.
  intros Hw Hc. induction w as [| x w IH]; [reflexivity |].
  cbn [all_chars Str.has_char] in *. apply andb_true_iff in Hw as [Hx Hw].
  rewrite (IH Hw), orb_false_r. destruct (Ascii.eqb_spec x c); congruence.
Qed.

Lemma split_cons_sep (a b : string) :
  Str.has_char Str.nl a = false ->
  Str.split Str.nl (a ++ String Str.nl b) = a :: Str.split Str.nl b.
Proof.
  induction a as [| x a IH]; intros H.
  - cbn [append Str.split]. now rewrite Ascii.eqb_refl.
  - cbn [Str.has_char] in H. apply orb_false_iff in H as [Hx Ha].
    cbn [append Str.split]. rewrite Hx, (IH Ha). reflexivity.
Qed.

Lemma split_join_lines (l : list string) :
  l <> [] ->
  Forall (fun x => Str.has_char Str.nl x = false) l ->
  Str.split Str.nl (Str.join (String Str.nl "") l) = l.
Proof.
  unfold Str.join. intros Hne Hl. induction Hl as [| x l Hx Hl IH]; [congruence |].
  destruct l as [| y l].
  - cbn [String.concat]. now apply split_no_sep.
  - change (String.concat (String Str.nl "") (x :: y :: l))
      with (x ++ String Str.nl (String.concat (String Str.nl "") (y :: l))).
    rewrite (split_cons_sep _ _ Hx), IH; [reflexivity | discriminate].
Qed.

Lemma prefix_no_brace (g1 : string) :
  (exists w1 d w2 w3,
      g1 = w1 ++ d ++ w2 ++ "url:" ++ w3
      /\ all_chars Str.is_space w1 = true
      /\ (d = "" \/ d = "-")
      /\ all_chars Str.is_space w2 = true
      /\ all_chars Str.is_space w3 = true) ->
  Str.has_char "{" g1 = false.
Proof.
  intros (w1 & d & w2 & w3 & -> & H1 & Hd & H2 & H3).
  rewrite !has_char_app.
  rewrite (all_chars_has_char _ "{" w1 H1), (all_chars_has_char _ "{" w2 H2),
    (all_chars_has_char _ "{" w3 H3) by reflexivity.
  now destruct Hd as [-> | ->].
Qed.

Lemma candidate_has_brace (line : string) (m : match_obj) :
  re_match url_regex line = Some m -> Str.has_char "{" line = true.
Proof.
  intros Hm.
  destruct (url_regex_sound line m Hm) as (g1 & head & mid & tail & e & Hc & _).
  destruct Hc as [-> _ _ _ _ _]. rewrite !has_char_app. cbn. now rewrite !orb_true_r.
Qed.

Lemma comment_no_candidate (s : string) :
  re_match url_regex ("#" ++ s) = None.
Proof.
  destruct (re_match url_regex ("#" ++ s)) as [m |] eqn:Hm; [exfalso | reflexivity].
  destruct (url_regex_sound _ m Hm) as (g1 & head & mid & tail & e & Hc & _).
  destruct Hc as [Hline (w1 & d & w2 & w3 & -> & H1 & Hd & H2 & H3) _ _ _ _].
  destruct w1 as [| c w1].
  - destruct Hd as [-> | ->]; [| discriminate].
    destruct w2 as [| c w2]; [discriminate |].
    cbn [append] in Hline. injection Hline as <- _. discriminate.
  - cbn [append] in Hline. injection Hline as <- _. discriminate.
Qed.

Lemma flat_map_twice {A B C : Type} (f : B -> list C) (g : A -> list B) (l : list A) :
  flat_map f (flat_map g l) = flat_map (fun x => flat_map f (g x)) l.
Proof.
  induction l as [| x l IH]; [reflexivity |].
  cbn [flat_map]. now rewrite flat_map_app, IH.
Qed.

Section RewriterTwice.
Variable urlparse_path : string -> string.
Variable relpath : string -> string -> string.

Lemma line_out_stable (meta_yaml_tpl pkgs_dir : string) (urls : dict SourceEntry)
      (line : string) :
  (forall u, In u (dict_keys urls) ->
             let p := local_path urlparse_path relpath meta_yaml_tpl pkgs_dir u urls in
             Str.has_char "{" p = false /\ Str.has_char Str.nl p = false) ->
  Str.has_char Str.nl line = false ->
  let out := line_out urlparse_path relpath meta_yaml_tpl pkgs_dir urls in
  flat_map out (out line) = out line
  /\ flat_map (line_diag urls) (out line) = line_diag urls line
  /\ out line <> []
  /\ Forall (fun x => Str.has_char Str.nl x = false) (out line).
Proof.
  intros Hp Hnl out. unfold out, line_out, line_diag.
  destruct (re_match url_regex line) as [m |] eqn:Hm.
  - destruct (find_url (group 2 m) (group 3 m) urls) as [u |] eqn:Hu.
    + assert (Hin : In u (dict_keys urls)).
      { unfold find_url in Hu. now apply find_some in Hu as [Hin _]. }
      destruct (Hp u Hin) as [Hb Hn].
      destruct (url_regex_sound_line line m Hnl Hm)
        as (Hw & g1 & head & mid & tail & Hc & <- & _).
      destruct Hc as [Hline Hpre _ _ _ _].
      set (new := group 1 m ++ local_path urlparse_path relpath meta_yaml_tpl
                                          pkgs_dir u urls).
      assert (Hnew : re_match url_regex new = None).
      { destruct (re_match url_regex new) as [m' |] eqn:E; [| reflexivity].
        apply candidate_has_brace in E. unfold new in E.
        rewrite has_char_app, (prefix_no_brace _ Hpre), Hb in E. discriminate. }
      assert (Hg : Str.has_char Str.nl (group 1 m) = false).
      { rewrite Hline, has_char_app in Hnl. now apply orb_false_iff in Hnl as [Hg _]. }
      cbn [flat_map]. rewrite comment_no_candidate, Hnew. cbn [app].
      repeat split; [discriminate |].
      constructor; [rewrite Hw; cbn [append Str.has_char]; now rewrite Hnl |].
      constructor; [| constructor]. unfold new. now rewrite has_char_app, Hg, Hn.
    + cbn [flat_map]. rewrite Hm, Hu. cbn [app].
      repeat split; [discriminate | now repeat constructor].
  - cbn [flat_map]. rewrite Hm. cbn [app].
    repeat split; [discriminate | now repeat constructor].
Qed.

Lemma lines_out_stable (meta_yaml_tpl pkgs_dir : string) (urls : dict SourceEntry)
      (lines : list string) :
  (forall u, In u (dict_keys urls) ->
             let p := local_path urlparse_path relpath meta_yaml_tpl pkgs_dir u urls in
             Str.has_char "{" p = false /\ Str.has_char Str.nl p = false) ->
  Forall (fun x => Str.has_char Str.nl x = false) lines ->
  let out := line_out urlparse_path relpath meta_yaml_tpl pkgs_dir urls in
  flat_map out (flat_map out lines) = flat_map out lines
  /\ flat_map (line_diag urls) (flat_map out lines) = flat_map (line_diag urls) lines
  /\ Forall (fun x => Str.has_char Str.nl x = false) (flat_map out lines)
  /\ (lines <> [] -> flat_map out lines <> []).
Proof.
  intros Hp Hl out. induction Hl as [| line l Hline Hl IH].
  - repeat split; [constructor | congruence].
  - destruct IH as (I1 & I2 & I3 & _).
    destruct (line_out_stable meta_yaml_tpl pkgs_dir urls line Hp Hline)
      as (L1 & L2 & L3 & L4).
    fold out in L1, L2, L3, L4.
    cbn [flat_map]. rewrite !flat_map_app, I1, I2, L1, L2.
    repeat split.
    + apply Forall_app. now split.
    + intros _ E. apply app_eq_nil in E as [E _]. contradiction.
Qed.

(** X23.  Rewriting is stable: when the paths written hold no opening
    brace and no newline, a second run of [replace_urls] on what the first
    one wrote prints the same diagnostics and writes the same text again;
    no line is commented out twice. *)
Theorem replace_urls_stable
        (meta_yaml_tpl text pkgs_dir : string) (urls : dict SourceEntry)
        (diags : list event) (text' : string) :
  (forall u, In u (dict_keys urls) ->
             let p := local_path urlparse_path relpath meta_yaml_tpl pkgs_dir u urls in
             Str.has_char "{" p = false /\ Str.has_char Str.nl p = false) ->
  replace_urls urlparse_path relpath meta_yaml_tpl text urls pkgs_dir =
    ((diags ++ [WriteFile meta_yaml_tpl text'])%list, inr tt) ->
  replace_urls urlparse_path relpath meta_yaml_tpl text' urls pkgs_dir =
    ((diags ++ [WriteFile meta_yaml_tpl text'])%list, inr tt).
Proof.
  intros Hp. rewrite !replace_urls_result, !out_flat_map, !diag_flat_map.
  intros [= H1]. apply app_inj_tail in H1 as [Hd [= Ht]].
  set (out := line_out urlparse_path relpath meta_yaml_tpl pkgs_dir urls) in *.
  set (lines := Str.split Str.nl text) in *.
  destruct (lines_out_stable meta_yaml_tpl pkgs_dir urls lines Hp
                             (split_pieces Str.nl text)) as (A1 & A2 & A3 & A4).
  fold out in A1, A2, A3, A4.
  assert (Hs : Str.split Str.nl text' = flat_map out lines).
  { rewrite <- Ht. apply split_join_lines; [| exact A3].
    apply A4. apply split_not_nil. }
  rewrite Hs, A1, A2, Hd, Ht. reflexivity.
Qed.
End RewriterTwice.

(** ** The further properties at work *)

Module ExtraWitnesses.
Import Instances Examples InstanceFacts MoreExamples.

Lemma listed_group : dict_get "pkg" pkg_db = Some [r_1_9; r_1_9'; r_1_10].
Proof. vm_compute. reflexivity. Qed.

Lemma listed_group_parses :
  Forall (fun x => parses PV (version x)) [r_1_9; r_1_9'; r_1_10].
Proof. vm_compute. repeat constructor; discriminate. Qed.

Lemma abspath_absolute (q : string) : isabs (abspath q) = true.
Proof.
  unfold isabs, abspath. destruct (Str.startswith q "/") eqn:E; [exact E | reflexivity].
Qed.

(** X1 *)
Lemma unknown_package_witness :
  get_pkg_spec PV Ver_le "nope" (Some "1.0") (Some "310") pkg_db =
  ([], inl (NotFoundError "nope")).
Proof.
  apply (proj1 (unknown_package (list N) PV Ver_le "nope" (Some "1.0") (Some "310")
                                pkg_db)).
  vm_compute. reflexivity.
Defined.

(** X2 *)
Lemma resolved_record_in_group_witness :
  exists group,
    dict_get "pkg" pkg_db = Some group /\ In r_1_9 group
    /\ qualifies PV Ver_le "1.9.5" r_1_9 = true.
Proof.
  destruct (resolved_record_in_group (list N) PV Ver_le "pkg" (Some "1.9.5")
              (Some "310") pkg_db r_1_9) as (group & Hg & Hin & _ & Hq).
  - vm_compute. reflexivity.
  - exists group. split; [exact Hg | split; [exact Hin | now apply Hq]].
Defined.

(** X3 *)
Lemma resolves_to_newest_witness :
  In r_1_10 (candidates (Some "310") [r_1_9; r_1_9'; r_1_10])
  /\ forall q, In q (candidates (Some "310") [r_1_9; r_1_9'; r_1_10]) ->
               version_le PV Ver_le q r_1_10 = true.
Proof.
  apply (resolves_to_newest (list N) PV Ver_lt Ver_le
           release_lt_le release_le_total release_le_trans
           listing forge_url "pkg" (Some "310") _ r_1_10 listed_group
           listed_group_parses).
  vm_compute. reflexivity.
Defined.

(** X4 *)
Lemma resolves_to_closest_below_bound_witness :
  In r_1_9 (candidates (Some "310") [r_1_9; r_1_9'; r_1_10])
  /\ qualifies PV Ver_le "1.9.5" r_1_9 = true
  /\ forall q, In q (candidates (Some "310") [r_1_9; r_1_9'; r_1_10]) ->
               qualifies PV Ver_le "1.9.5" q = true ->
               version_le PV Ver_le q r_1_9 = true.
Proof.
  apply (proj1 (resolves_to_closest_below_bound (list N) PV Ver_lt Ver_le
                  release_lt_le release_le_total release_le_trans
                  listing forge_url "pkg" "1.9.5" (Some "310") _ listed_group
                  listed_group_parses ltac:(vm_compute; discriminate))).
  vm_compute. reflexivity.
Defined.

(** X5 *)
Lemma database_records_witness :
  Forall (fun r => name r = "pkg" /\ nv r = "pkg" ++ "-" ++ version r)
         [r_1_9; r_1_9'; r_1_10]
  /\ List.length [r_1_9; r_1_9'; r_1_10] = 3%nat.
Proof.
  destruct (database_records (list N) PV Ver_lt listing forge_url "pkg" _ listed_group)
    as [Hall Hlen].
  split; [| exact Hlen].
  apply Forall_forall. intros r Hr.
  destruct (proj1 (Forall_forall _ _) Hall r Hr) as (H1 & H2 & _). now split.
Defined.

(** X6 *)
Lemma database_names_witness :
  NoDup (dict_keys pkg_db)
  /\ exists p, outcome (get_pkg_spec PV Ver_le "pkg" None (Some "27") pkg_db) = inr p.
Proof.
  destruct (database_names (list N) PV Ver_lt Ver_le listing forge_url)
    as (Hn & _ & Hr).
  split; [exact Hn |].
  apply (Hr "pkg-1.9-py39_0.conda" (entry "1.9" "py39_0" 1) (Some "27")).
  vm_compute. tauto.
Defined.

(** X7 *)
Lemma extract_archive_formats_witness :
  events (extract_archive abspath "/w/a.tar.bz2" "/w/a" "tar.bz2") =
  [UnpackArchive "/w/a.tar.bz2" "/w/a" None]
  /\ extract_archive abspath "/w/a.tar.xz" "/w/a" "tar.xz" =
     ([], inl (UnsupportedFormatError "tar.xz")).
Proof.
  destruct (extract_archive_formats abspath "/w/a.tar.bz2" "/w/a" "tar.bz2")
    as (_ & _ & Hplain & _ & _).
  destruct (extract_archive_formats abspath "/w/a.tar.xz" "/w/a" "tar.xz")
    as (_ & _ & _ & Hnot & _).
  split.
  - apply Hplain. cbn. tauto.
  - apply Hnot. cbn. intros H.
    repeat (destruct H as [H | H]; [discriminate H |]). exact H.
Defined.

(** X8 *)
Lemma unpack_into_extraction_directory_witness :
  events (unpack_artifact urlparse_path abspath r_bz2 "/w.conda") =
  [DownloadFile (url r_bz2) "/w.conda/pkg-1.0-0.tar.bz2";
   Rmtree "/w.conda/pkg-1.0-0"; Makedirs "/w.conda/pkg-1.0-0";
   UnpackArchive "/w.conda/pkg-1.0-0.tar.bz2" "/w.conda/pkg-1.0-0" (Some "zip");
   ZstExtractAll "/w.conda/pkg-1.0-0/info-pkg-1.0-0.tar.bz2" "/w.conda/pkg-1.0-0"].
Proof.
  destruct (unpack_into_extraction_directory urlparse_path abspath r_bz2 "/w.conda")
    as (evs & H & _ & _ & Hc & Hw).
  rewrite H, (Hc (Hw eq_refl)). reflexivity.
Defined.

(** X9 *)
Lemma multi_output_recipe_witness :
  let run := create_feedstock urlparse_path abspath relpath r_1_0 multi
                              "/w" "/r" "/p" in
  filter is_finalize (events run) = []
  /\ filter is_copy (events run) =
     [Copytree "/w/pkg-1.0-0/info/recipe/parent" "/r/pkg-1.0"].
Proof.
  destruct (multi_output_recipe urlparse_path abspath relpath r_1_0 multi
              "/w" "/r" "/p" eq_refl) as (Hf & Hc & _).
  split; [exact Hf | exact Hc].
Defined.

(** X10 *)
Lemma single_output_finalization_witness :
  let run := create_feedstock urlparse_path abspath relpath r_1_0 single
                              "/w" "/r" "/p" in
  exists pre text',
    events run =
      (pre ++ [WriteFile "/r/pkg-1.0/meta.yaml.template" text';
               Remove "/r/pkg-1.0/meta.yaml";
               Move "/r/pkg-1.0/meta.yaml.template" "/r/pkg-1.0/meta.yaml";
               AppendFile "/w/deps.txt" (deps_entry r_1_0 (extract_reqs text'))])%list
    /\ filter is_write pre = [].
Proof.
  destruct (single_output_finalization urlparse_path abspath relpath r_1_0 single
              "/w" "/r" "/p" eq_refl eq_refl) as (pre & text' & He & Hw & _).
  exists pre, text'. split; [exact He | exact Hw].
Defined.

(** X11 *)
Lemma missing_hash_leaves_recipe_witness :
  filter is_write (events (create_feedstock urlparse_path abspath relpath r_1_0
                                            unpacked "/w" "/r" "/p")) = [].
Proof.
  destruct (missing_hash_leaves_recipe urlparse_path abspath relpath r_1_0 unpacked
              "/w" "/r" "/p") as [H _].
  destruct (H eq_refl) as (Hw & _). exact Hw.
Defined.

(** X12 *)
Lemma existing_recipe_replaced_witness :
  exists before src after,
    events (create_feedstock urlparse_path abspath relpath r_1_0 multi
                             "/w" "/r" "/p") =
    (before ++ Rmtree "/r/pkg-1.0" :: Copytree src "/r/pkg-1.0" :: after)%list
    /\ filter is_copy before = [] /\ filter is_copy after = [].
Proof.
  exact (existing_recipe_replaced urlparse_path abspath relpath r_1_0 multi
           "/w" "/r" "/p" eq_refl).
Defined.

(** X13 *)
Lemma main_resolves_first_witness :
  let run := main PV Ver_le urlparse_path abspath relpath "/opt/tools/create_feedstock.py"
                  (default_args "nope") (fun _ => pkg_db) single in
  outcome run = inl (NotFoundError "nope") /\ filter is_effect (events run) = [].
Proof.
  destruct (main_resolves_first (list N) PV Ver_le urlparse_path abspath relpath
              "/opt/tools/create_feedstock.py" (default_args "nope")
              (fun _ => pkg_db) single) as [Hfail _].
  destruct (Hfail (NotFoundError "nope") eq_refl) as (Ho & _ & He).
  split; [exact Ho | exact He].
Defined.

(** X14 *)
Lemma get_abs_path_idempotent_witness :
  let abs := get_abs_path abspath "/opt/tools/create_feedstock.py" in
  abs (abs "../pkgs") = abs "../pkgs" /\ isabs (abs "../pkgs") = true.
Proof.
  destruct (get_abs_path_idempotent abspath "/opt/tools/create_feedstock.py"
              "../pkgs" abspath_absolute) as (_ & Ha & Hi).
  split; [exact Hi | exact Ha].
Defined.

(** X15 *)
Lemma unmatched_document_unchanged_witness :
  replace_urls urlparse_path relpath "/r/meta.yaml" foreign_template sources "/p" =
  ([DiagUrlNotFound "  - url: https://other.org/{{ name }}.bin";
    WriteFile "/r/meta.yaml" foreign_template],
   inr tt).
Proof.
  rewrite (unmatched_document_unchanged urlparse_path relpath "/r/meta.yaml"
             foreign_template "/p" sources).
  - vm_compute. reflexivity.
  - intros line g1 head mid tail Hin Hc u Hu Hfit.
    vm_compute in Hin. destruct Hin as [<- | [<- | []]].
    + apply (url_regex_complete _ _ _ _ _ _ Hc). vm_compute. reflexivity.
    + pose proof (candidate_tail_last _ _ _ _ _ Hc) as Hlast.
      assert (Hn : Str.has_char "n" u = true)
        by (apply (url_fits_tail_char head tail u "n" Hfit); rewrite Hlast;
            vm_compute; reflexivity).
      vm_compute in Hu. destruct Hu as [<- | [<- | []]]; vm_compute in Hn; discriminate.
Defined.

(** X16 *)
Lemma extract_reqs_lines_witness :
  exists out,
    extract_reqs reqs_document = Str.join (String Str.nl "") out
    /\ subseq out (map Str.strip (Str.split Str.nl reqs_document)).
Proof.
  destruct (extract_reqs_lines reqs_document) as (out & H1 & H2 & _).
  exists out. split; [exact H1 | exact H2].
Defined.

(** X17 *)
Lemma extract_reqs_without_section_witness : extract_reqs plain_text = "".
Proof.
  apply (extract_reqs_without_section plain_text).
  intros line Hin. vm_compute in Hin.
  destruct Hin as [<- | [<- | []]]; vm_compute; reflexivity.
Defined.

(** X18 *)
Lemma load_urls_table_witness :
  exists d, load_urls meta = ([], inr d)
            /\ NoDup (dict_keys d) /\ (List.length d <= 3)%nat.
Proof.
  assert (H : load_urls meta =
              ([], inr [("https://example.com/a/1.2.3.tar.gz",
                         mkSource "sha256" "ab12" None);
                        ("https://example.com/mylib-src.zip",
                         mkSource "md5" "ef56" None)]))
    by (vm_compute; reflexivity).
  eexists. split; [exact H |].
  destruct (load_urls_table meta _ _ H) as (_ & Hn & _ & Hl).
  split; [exact Hn | exact Hl].
Defined.

(** X19 *)
Lemma download_sources_table_witness :
  Forall2 (fun ev kv =>
                exists f, fn (snd kv) = Some f
                          /\ ev = DownloadFile (fst kv) (Path.join "/p" f))
             (events (download_sources urlparse_path "pkg" "/p" sources)) sources.
Proof.
  destruct (download_sources_table urlparse_path "pkg" "/p" sources sources)
    as (_ & _ & Hf).
  - vm_compute. reflexivity.
  - exact Hf.
Defined.

(** X20 *)
Lemma download_loop_progress_witness :
  fst (download_loop stream 0) = "abc"
  /\ snd (download_loop stream 0) = ["."; "."].
Proof.
  destruct (download_loop_progress stream) as (Hw & Hp).
  split; [exact Hw | exact Hp].
Defined.

(** X21 *)
Lemma load_repodata_last_wins_witness :
  NoDup (dict_keys (load_repodata fetched))
  /\ dict_get "a-1.tar.bz2" (load_repodata fetched) = Some (entry "1" "1" 3).
Proof.
  destruct (load_repodata_last_wins fetched) as (Hn & Hg & _).
  split; [exact Hn |]. rewrite Hg. reflexivity.
Defined.

(** X22 *)
Lemma fn_is_simple_shape_witness :
  version_only "1.2.3.tar.gz" /\ ~ version_only "mylib-src.zip".
Proof.
  split.
  - apply (proj1 (fn_is_simple_shape "1.2.3.tar.gz")). vm_compute. reflexivity.
  - intros H. apply (proj2 (fn_is_simple_shape "mylib-src.zip")) in H.
    vm_compute in H. discriminate.
Defined.

(** X23 *)
Lemma replace_urls_stable_witness :
  exists diags text',
    replace_urls urlparse_path relpath "/r/meta.yaml" template sources "/p" =
    ((diags ++ [WriteFile "/r/meta.yaml" text'])%list, inr tt)
    /\ replace_urls urlparse_path relpath "/r/meta.yaml" text' sources "/p" =
       ((diags ++ [WriteFile "/r/meta.yaml" text'])%list, inr tt).
Proof.
  pose proof (replace_urls_result urlparse_path relpath "/r/meta.yaml" "/p" sources
                template) as H.
  do 2 eexists. split; [exact H |].
  apply (replace_urls_stable urlparse_path relpath "/r/meta.yaml" template "/p"
           sources _ _); [| exact H].
  intros u Hin. vm_compute in Hin.
  destruct Hin as [<- | [<- | []]]; vm_compute; split; reflexivity.
Defined.

End ExtraWitnesses.
